(** * My Kingdom: world generation, pathfinding and job simulation

    A shallow embedding of the simulation core of the game (resource
    nodes, buildings, citizens, the A* pathfinder, the job manager and the
    tiered world generator), followed by the properties of the design
    document that are checked against it.

    Conventions of the embedding:
    - Python [int] is [Z]; Python [float] is the exact rational type [Q]
      (rounding is not modelled); [str] is [string]. The one place where
      rounding, the infinities and NaN are modelled is the climate
      classification of [biomes64], which is stated on binary64 floats.
    - A [dict] whose iteration order is observable (the required resources
      of a building definition, the "needed" dictionary built from it) is
      an association list; a [dict] only read by key and summed (the
      stockpile, [materials_delivered]) is a [gmap].
    - A list indexed with [l[i]] is read with stdpp's lookup; a call that
      would raise (an index out of range, an empty [randint] range)
      yields [Raises] instead of a value.
    - The module-level [random] generator is an explicit state threaded
      through the generation passes. *)

From Stdlib Require Import ZArith QArith Qround Qabs Lia Bool.
From Stdlib Require Import Sorting.Permutation.
From stdpp Require Import base option list gmap strings fin_maps.
From stdpp Require Import sorting.
From Stdlib Require Floats Uint63.

#[local] Open Scope string_scope.
#[local] Open Scope list_scope.
#[local] Open Scope Z_scope.

(** ** Rational comparisons as booleans *)

Definition Qltb (a b : Q) : bool := negb (Qle_bool b a).
Definition Qgtb (a b : Q) : bool := Qltb b a.
Definition Qleb (a b : Q) : bool := Qle_bool a b.
Definition Qgeb (a b : Q) : bool := Qle_bool b a.

(** [int(v)] on a float: truncation towards zero. *)
Definition py_int (v : Q) : Z := if Qltb v 0 then Qceiling v else Qfloor v.

(** [d.get(k, 0)] on a dictionary of integers. *)
Definition dict_get (d : gmap string Z) (k : string) : Z := default 0 (d !! k).

(** [sum(d.values())]. *)
Definition dict_sum (d : gmap string Z) : Z :=
  map_fold (fun _ v acc => v + acc) 0 d.

(** * Shared helpers *)

(** [range(a, b)]. *)
Definition range (a b : Z) : list Z := seqZ a (b - a).

(** A call either returns a value or raises (an [IndexError] on a list
    index out of range, a [ValueError] on an empty [randint] range). *)
Inductive outcome (A : Type) :=
  | Returns (a : A)
  | Raises.
Arguments Returns {A} a.
Arguments Raises {A}.

Definition obind {A B : Type} (m : outcome A) (f : A -> outcome B) : outcome B :=
  match m with
  | Returns a => f a
  | Raises => Raises
  end.

(** A [for] loop over [l] threading the loop state [s]. *)
Fixpoint for_each {A S : Type} (l : list A) (body : A -> S -> outcome S) (s : S)
    : outcome S :=
  match l with
  | [] => Returns s
  | a :: rest => obind (body a s) (for_each rest body)
  end.

(** The position that [l[i]] reads in a list of length [len]: negative
    indices count from the end. *)
Definition norm_index (len : nat) (i : Z) : option nat :=
  let j := if i <? 0 then i + Z.of_nat len else i in
  if (0 <=? j) && (j <? Z.of_nat len) then Some (Z.to_nat j) else None.

(** [l[i]] for a Python list. *)
Definition py_index {A : Type} (l : list A) (i : Z) : outcome A :=
  match norm_index (length l) i with
  | Some j =>
      match l !! j with
      | Some a => Returns a
      | None => Raises
      end
  | None => Raises
  end.

(** * entities/resource.py *)

Module resource.

Inductive ResourceType := TREE | STONE | BERRY_BUSH | IRON_ORE.

Record Resource := mkResource {
  resource_type : ResourceType;
  x : Z;
  y : Z;
  amount_remaining : Z;
  max_amount : Z;
  gather_time : Q;
  provides_resource : string;
  provides_amount : Z;
  is_depleted : bool;
  currently_being_gathered : bool;
  assigned_citizen_id : option Z;
  designated : bool
}.

(** The dataclass constructor with its defaults, before [__post_init__]. *)
Definition dataclass_init (ty : ResourceType) (px py : Z)
    (amount maxa : Z) (gt : Q) : Resource :=
  mkResource ty px py amount maxa gt "wood" 10 false false None false.

Definition set_kind (self : Resource) (res : string) (pa : Z) (gt : Q) (maxa : Z)
    : Resource :=
  mkResource (resource_type self) (x self) (y self) maxa maxa gt res pa
    (is_depleted self) (currently_being_gathered self)
    (assigned_citizen_id self) (designated self).

Definition __post_init__ (self : Resource) : Resource :=
  match resource_type self with
  | TREE => set_kind self "wood" 4 3 4
  | STONE => set_kind self "stone" 8 5 24
  | BERRY_BUSH => set_kind self "food" 5 2 25
  | IRON_ORE => set_kind self "iron" 5 6 60
  end.

(** [Resource(resource_type=ty, x=px, y=py)]. *)
Definition new (ty : ResourceType) (px py : Z) : Resource :=
  __post_init__ (dataclass_init ty px py 100 100 3).

Definition set_is_depleted (self : Resource) (b : bool) : Resource :=
  mkResource (resource_type self) (x self) (y self) (amount_remaining self)
    (max_amount self) (gather_time self) (provides_resource self)
    (provides_amount self) b (currently_being_gathered self)
    (assigned_citizen_id self) (designated self).

Definition set_amount_remaining (self : Resource) (a : Z) : Resource :=
  mkResource (resource_type self) (x self) (y self) a
    (max_amount self) (gather_time self) (provides_resource self)
    (provides_amount self) (is_depleted self) (currently_being_gathered self)
    (assigned_citizen_id self) (designated self).

Definition set_provides (self : Resource) (res : string) (pa : Z) : Resource :=
  mkResource (resource_type self) (x self) (y self) (amount_remaining self)
    (max_amount self) (gather_time self) res pa (is_depleted self)
    (currently_being_gathered self) (assigned_citizen_id self) (designated self).

Definition set_assignment (self : Resource) (g : bool) (c : option Z) : Resource :=
  mkResource (resource_type self) (x self) (y self) (amount_remaining self)
    (max_amount self) (gather_time self) (provides_resource self)
    (provides_amount self) (is_depleted self) g c (designated self).

Definition set_designated (self : Resource) (b : bool) : Resource :=
  mkResource (resource_type self) (x self) (y self) (amount_remaining self)
    (max_amount self) (gather_time self) (provides_resource self)
    (provides_amount self) (is_depleted self) (currently_being_gathered self)
    (assigned_citizen_id self) b.

(** [gather]: the returned pair and the node after the call. *)
Definition gather (self : Resource) : (option string * Z) * Resource :=
  if is_depleted self || (amount_remaining self <=? 0) then
    ((None, 0), set_is_depleted self true)
  else
    let gather_amount := Z.min (provides_amount self) (amount_remaining self) in
    let self1 := set_amount_remaining self (amount_remaining self - gather_amount) in
    let self2 :=
      if amount_remaining self1 <=? 0 then set_is_depleted self1 true else self1 in
    ((Some (provides_resource self), gather_amount), self2).

Definition assign_citizen (self : Resource) (citizen_id : Z) : Resource :=
  set_assignment self true (Some citizen_id).

Definition unassign_citizen (self : Resource) : Resource :=
  set_assignment self false None.

(** The dictionary written by [to_dict] and read back by [from_dict]. *)
Record SavedResource := mkSaved {
  d_resource_type : ResourceType;
  d_x : Z;
  d_y : Z;
  d_amount_remaining : Z;
  d_max_amount : Z;
  d_gather_time : Q;
  d_provides_resource : string;
  d_provides_amount : Z;
  d_is_depleted : bool
}.

Definition to_dict (self : Resource) : SavedResource :=
  mkSaved (resource_type self) (x self) (y self) (amount_remaining self)
    (max_amount self) (gather_time self) (provides_resource self)
    (provides_amount self) (is_depleted self).

Definition from_dict (data : SavedResource) : Resource :=
  let resource :=
    __post_init__ (dataclass_init (d_resource_type data) (d_x data) (d_y data)
                     (d_amount_remaining data) (d_max_amount data)
                     (d_gather_time data)) in
  let resource :=
    set_provides resource (d_provides_resource data) (d_provides_amount data) in
  set_is_depleted resource (d_is_depleted data).

(** [n] successive [gather()] calls on the same node. *)
Fixpoint gather_n (n : nat) (self : Resource) : Resource :=
  match n with
  | O => self
  | S k => gather_n k (snd (gather self))
  end.

(** The states a node of the game can be in: built by the constructor,
    then changed by [gather], the assignment methods, the designation
    flag, and a save/load round trip. *)
Inductive node_state : Resource -> Prop :=
  | ns_new ty px py : node_state (new ty px py)
  | ns_gather r : node_state r -> node_state (snd (gather r))
  | ns_assign r c : node_state r -> node_state (assign_citizen r c)
  | ns_unassign r : node_state r -> node_state (unassign_citizen r)
  | ns_designate r b : node_state r -> node_state (set_designated r b)
  | ns_load r : node_state r -> node_state (from_dict (to_dict r)).

(** The amounts returned by [n] successive [gather()] calls, added up. *)
Fixpoint total_yield (n : nat) (self : Resource) : Z :=
  match n with
  | O => 0
  | S k => snd (fst (gather self)) + total_yield k (snd (gather self))
  end.

End resource.

(** * entities/building.py *)

Module building.

Inductive BuildingType :=
  | HOUSE | STORAGE | WAREHOUSE | WORKSHOP | FARM
  | MINE | LUMBER_CAMP | WELL | MARKET | WAGON.

Inductive BuildingState := PLANNED | UNDER_CONSTRUCTION | COMPLETE.

#[global] Instance BuildingType_eq_dec : EqDecision BuildingType.
Proof. solve_decision. Defined.

#[global] Instance BuildingState_eq_dec : EqDecision BuildingState.
Proof. solve_decision. Defined.

(** The colour and the description of a definition are presentation data
    and are left out. *)
Record BuildingDefinition := mkDefinition {
  def_building_type : BuildingType;
  name : string;
  width : Z;
  height : Z;
  required_resources : list (string * Z);
  construction_work : Q;
  max_workers : Z
}.

Definition BUILDING_DEFINITIONS (t : BuildingType) : BuildingDefinition :=
  match t with
  | HOUSE => mkDefinition HOUSE "House" 3 3 [("wood", 20); ("stone", 10)] 100 0
  | STORAGE => mkDefinition STORAGE "Storage" 4 4 [("wood", 30)] 80 0
  | WAREHOUSE =>
      mkDefinition WAREHOUSE "Warehouse" 5 5 [("wood", 50); ("stone", 30)] 150 0
  | WORKSHOP =>
      mkDefinition WORKSHOP "Workshop" 3 3 [("wood", 25); ("stone", 15)] 120 4
  | FARM => mkDefinition FARM "Farm" 5 5 [("wood", 10)] 60 3
  | MINE => mkDefinition MINE "Mine" 2 2 [("wood", 15); ("stone", 5)] 150 5
  | LUMBER_CAMP => mkDefinition LUMBER_CAMP "Lumber Camp" 3 2 [("wood", 15)] 70 4
  | WELL => mkDefinition WELL "Well" 1 1 [("stone", 20)] 100 0
  | MARKET =>
      mkDefinition MARKET "Market" 4 3 [("wood", 40); ("stone", 20)] 140 6
  | WAGON => mkDefinition WAGON "Wagon Stockpile" 2 2 [] 0 0
  end.

Record Building := mkBuilding {
  id : Z;
  building_type : BuildingType;
  x : Z;
  y : Z;
  state : BuildingState;
  construction_progress : Q;
  materials_delivered : gmap string Z;
  assigned_workers : list Z;
  auto_employ : bool;
  is_active : bool;
  production_progress : Q
}.

(** [Building(id=.., building_type=.., x=.., y=..)] with the dataclass
    defaults. *)
Definition new (bid : Z) (t : BuildingType) (px py : Z) : Building :=
  mkBuilding bid t px py PLANNED 0 ∅ [] true false 0.

Definition set_state (self : Building) (s : BuildingState) : Building :=
  mkBuilding (id self) (building_type self) (x self) (y self) s
    (construction_progress self) (materials_delivered self)
    (assigned_workers self) (auto_employ self) (is_active self)
    (production_progress self).

Definition set_construction_progress (self : Building) (p : Q) : Building :=
  mkBuilding (id self) (building_type self) (x self) (y self) (state self)
    p (materials_delivered self)
    (assigned_workers self) (auto_employ self) (is_active self)
    (production_progress self).

Definition set_materials_delivered (self : Building) (m : gmap string Z)
    : Building :=
  mkBuilding (id self) (building_type self) (x self) (y self) (state self)
    (construction_progress self) m
    (assigned_workers self) (auto_employ self) (is_active self)
    (production_progress self).

Definition set_is_active (self : Building) (a : bool) : Building :=
  mkBuilding (id self) (building_type self) (x self) (y self) (state self)
    (construction_progress self) (materials_delivered self)
    (assigned_workers self) (auto_employ self) a
    (production_progress self).

Definition get_definition (self : Building) : BuildingDefinition :=
  BUILDING_DEFINITIONS (building_type self).

(** The loop of [get_required_materials] over the items of
    [required_resources], in their order. *)
Fixpoint needed_of (delivered_map : gmap string Z) (req : list (string * Z))
    : list (string * Z) :=
  match req with
  | [] => []
  | (resource, amount) :: rest =>
      let delivered := dict_get delivered_map resource in
      if delivered <? amount
      then (resource, amount - delivered) :: needed_of delivered_map rest
      else needed_of delivered_map rest
  end.

Definition get_required_materials (self : Building) : list (string * Z) :=
  needed_of (materials_delivered self) (required_resources (get_definition self)).

Definition has_all_materials (self : Building) : bool :=
  (length (get_required_materials self) =? 0)%nat.

Definition deliver_material (self : Building) (resource_type : string)
    (amount : Z) : Building :=
  let current := dict_get (materials_delivered self) resource_type in
  set_materials_delivered self
    (<[resource_type := current + amount]> (materials_delivered self)).

Definition can_start_construction (self : Building) : bool :=
  bool_decide (state self = PLANNED) && has_all_materials self.

Definition add_construction_progress (self : Building) (amount : Q) : Building :=
  if bool_decide (state self = UNDER_CONSTRUCTION) then
    let self1 :=
      set_construction_progress self (construction_progress self + amount)%Q in
    if Qgeb (construction_progress self1) (construction_work (get_definition self1))
    then
      let self2 := set_state self1 COMPLETE in
      let self3 :=
        set_construction_progress self2 (construction_work (get_definition self2)) in
      set_is_active self3 true
    else self1
  else self.

Definition occupies_tile (self : Building) (tile_x tile_y : Z) : bool :=
  let definition := get_definition self in
  (x self <=? tile_x) && (tile_x <? x self + width definition)
  && (y self <=? tile_y) && (tile_y <? y self + height definition).

Definition get_center (self : Building) : Q * Q :=
  let definition := get_definition self in
  ((inject_Z (x self) + inject_Z (width definition) / 2)%Q,
   (inject_Z (y self) + inject_Z (height definition) / 2)%Q).

Definition set_assigned_workers (self : Building) (ws : list Z) : Building :=
  mkBuilding (id self) (building_type self) (x self) (y self) (state self)
    (construction_progress self) (materials_delivered self)
    ws (auto_employ self) (is_active self) (production_progress self).

(** [l.remove(v)] on a list that holds [v]: the first occurrence goes. *)
Fixpoint remove_first (v : Z) (l : list Z) : list Z :=
  match l with
  | [] => []
  | a :: rest => if bool_decide (a = v) then rest else a :: remove_first v rest
  end.

Definition assign_worker (self : Building) (citizen_id : Z) : Building :=
  if bool_decide (citizen_id ∈ assigned_workers self) then self
  else set_assigned_workers self (assigned_workers self ++ [citizen_id]).

Definition remove_worker (self : Building) (citizen_id : Z) : Building :=
  if bool_decide (citizen_id ∈ assigned_workers self)
  then set_assigned_workers self (remove_first citizen_id (assigned_workers self))
  else self.

(** The dictionary written by [to_dict] and read back by [from_dict]. *)
Record SavedBuilding := mkSaved {
  d_id : Z;
  d_building_type : BuildingType;
  d_x : Z;
  d_y : Z;
  d_state : BuildingState;
  d_construction_progress : Q;
  d_materials_delivered : gmap string Z;
  d_assigned_workers : list Z;
  d_auto_employ : bool;
  d_is_active : bool;
  d_production_progress : Q
}.

Definition to_dict (self : Building) : SavedBuilding :=
  mkSaved (id self) (building_type self) (x self) (y self) (state self)
    (construction_progress self) (materials_delivered self)
    (assigned_workers self) (auto_employ self) (is_active self)
    (production_progress self).

Definition from_dict (data : SavedBuilding) : Building :=
  let building := new (d_id data) (d_building_type data) (d_x data) (d_y data) in
  let building := set_state building (d_state data) in
  let building := set_construction_progress building (d_construction_progress data) in
  let building := set_materials_delivered building (d_materials_delivered data) in
  let building := set_assigned_workers building (d_assigned_workers data) in
  let building :=
    mkBuilding (id building) (building_type building) (x building) (y building)
      (state building) (construction_progress building)
      (materials_delivered building) (assigned_workers building)
      (d_auto_employ data) (is_active building) (production_progress building) in
  let building := set_is_active building (d_is_active data) in
  mkBuilding (id building) (building_type building) (x building) (y building)
    (state building) (construction_progress building)
    (materials_delivered building) (assigned_workers building)
    (auto_employ building) (is_active building) (d_production_progress data).

(** The deliveries of a list of (kind, amount) pairs, one after the
    other. *)
Definition deliver_all (self : Building) (loads : list (string * Z)) : Building :=
  fold_left (fun b load => deliver_material b (fst load) (snd load)) loads self.

End building.

(** * world/biomes.py *)

Module biomes.

Inductive BiomeType :=
  | TEMPERATE_FOREST | GRASSLAND | BOREAL_FOREST | TUNDRA
  | DESERT | TROPICAL_RAINFOREST | ARID_SHRUBLAND | WETLAND.

#[global] Instance BiomeType_eq_dec : EqDecision BiomeType.
Proof. solve_decision. Defined.

(** The colours and the description are presentation data and are left
    out. *)
Record BiomeProperties := mkBiome {
  name : string;
  min_temperature : Q;
  max_temperature : Q;
  min_rainfall : Q;
  max_rainfall : Q;
  tree_density : Q;
  rock_density : Q;
  fertility : Q
}.

(** The table, in the insertion order of the dictionary literal, which is
    the order in which [BIOME_DEFINITIONS.items()] yields it. *)
Definition BIOME_DEFINITIONS : list (BiomeType * BiomeProperties) :=
  [ (TEMPERATE_FOREST,
     mkBiome "Temperate Forest" (-0.2) 0.6 0.4 0.8 0.4 0.1 0.8);
    (GRASSLAND, mkBiome "Grassland" 0.0 0.7 0.3 0.6 0.1 0.05 0.9);
    (BOREAL_FOREST, mkBiome "Boreal Forest" (-0.6) 0.2 0.4 0.7 0.5 0.15 0.4);
    (TUNDRA, mkBiome "Tundra" (-0.8) (-0.2) 0.2 0.5 0.05 0.25 0.2);
    (DESERT, mkBiome "Desert" 0.5 1.0 0.0 0.2 0.02 0.3 0.1);
    (TROPICAL_RAINFOREST,
     mkBiome "Tropical Rainforest" 0.6 1.0 0.7 1.0 0.7 0.05 0.7);
    (ARID_SHRUBLAND, mkBiome "Arid Shrubland" 0.3 0.8 0.2 0.4 0.15 0.2 0.4);
    (WETLAND, mkBiome "Wetland" (-0.1) 0.5 0.6 1.0 0.25 0.05 0.6) ]%Q.

Definition temp_match (temperature : Q) (properties : BiomeProperties) : Q :=
  (if Qltb temperature (min_temperature properties)
   then 1.0 - (min_temperature properties - temperature)
   else if Qgtb temperature (max_temperature properties)
   then 1.0 - (temperature - max_temperature properties)
   else 1.0)%Q.

Definition rain_match (rainfall : Q) (properties : BiomeProperties) : Q :=
  (if Qltb rainfall (min_rainfall properties)
   then 1.0 - (min_rainfall properties - rainfall)
   else if Qgtb rainfall (max_rainfall properties)
   then 1.0 - (rainfall - max_rainfall properties)
   else 1.0)%Q.

Definition score (temperature rainfall : Q) (properties : BiomeProperties) : Q :=
  (temp_match temperature properties * rain_match rainfall properties)%Q.

(** [score > best_score], where [None] is the initial [float('-inf')]. *)
Definition beats (score : Q) (best_score : option Q) : bool :=
  match best_score with
  | None => true
  | Some b => Qgtb score b
  end.

(** The scoring loop, from a given [(best_biome, best_score)]. *)
Fixpoint best_from (temperature rainfall : Q)
    (items : list (BiomeType * BiomeProperties))
    (best : BiomeType * option Q) : BiomeType * option Q :=
  match items with
  | [] => best
  | (biome_type, properties) :: rest =>
      let s := score temperature rainfall properties in
      if beats s (snd best)
      then best_from temperature rainfall rest (biome_type, Some s)
      else best_from temperature rainfall rest best
  end.

Definition get_biome_from_climate (temperature rainfall : Q) : BiomeType :=
  fst (best_from temperature rainfall BIOME_DEFINITIONS (GRASSLAND, None)).

(** [BIOME_DEFINITIONS[biome_type]]. *)
Definition get_biome_properties (biome_type : BiomeType) : BiomeProperties :=
  match list_find (fun p => bool_decide (fst p = biome_type)) BIOME_DEFINITIONS with
  | Some (_, (_, p)) => p
  | None => mkBiome EmptyString 0 0 0 0 0 0 0
  end.

End biomes.

(** * world/biomes.py on binary64

    The generator tiers above are modelled on exact rationals and use the
    classification as a black box. Which biome wins a close contest is
    decided by the rounding of the scores, and what is returned when no
    score beats the initial [float('-inf')] by the infinities, so the
    classification itself is modelled a second time here, on the floats
    of the source: [float] is binary64 with round-to-nearest-even, the
    arithmetic and the comparisons of a Python [float]. *)

Module biomes64.
Import PrimFloat.
Export biomes(BiomeType(..)).
#[local] Open Scope float_scope.

Record BiomeProperties := mkBiome {
  name : string;
  min_temperature : float;
  max_temperature : float;
  min_rainfall : float;
  max_rainfall : float;
  tree_density : float;
  rock_density : float;
  fertility : float
}.

(** The table, in the insertion order of the dictionary literal; a
    decimal constant denotes the float nearest to it, as in Python. *)
#[warnings="-inexact-float"]
Definition BIOME_DEFINITIONS : list (BiomeType * BiomeProperties) :=
  [ (TEMPERATE_FOREST,
     mkBiome "Temperate Forest" (-0.2) 0.6 0.4 0.8 0.4 0.1 0.8);
    (GRASSLAND, mkBiome "Grassland" 0.0 0.7 0.3 0.6 0.1 0.05 0.9);
    (BOREAL_FOREST, mkBiome "Boreal Forest" (-0.6) 0.2 0.4 0.7 0.5 0.15 0.4);
    (TUNDRA, mkBiome "Tundra" (-0.8) (-0.2) 0.2 0.5 0.05 0.25 0.2);
    (DESERT, mkBiome "Desert" 0.5 1.0 0.0 0.2 0.02 0.3 0.1);
    (TROPICAL_RAINFOREST,
     mkBiome "Tropical Rainforest" 0.6 1.0 0.7 1.0 0.7 0.05 0.7);
    (ARID_SHRUBLAND, mkBiome "Arid Shrubland" 0.3 0.8 0.2 0.4 0.15 0.2 0.4);
    (WETLAND, mkBiome "Wetland" (-0.1) 0.5 0.6 1.0 0.25 0.05 0.6) ].

(** [a > b] is [b <? a]: both are false when either side is NaN. *)
Definition temp_match (temperature : float) (properties : BiomeProperties)
    : float :=
  if temperature <? min_temperature properties
  then 1.0 - (min_temperature properties - temperature)
  else if max_temperature properties <? temperature
  then 1.0 - (temperature - max_temperature properties)
  else 1.0.

Definition rain_match (rainfall : float) (properties : BiomeProperties)
    : float :=
  if rainfall <? min_rainfall properties
  then 1.0 - (min_rainfall properties - rainfall)
  else if max_rainfall properties <? rainfall
  then 1.0 - (rainfall - max_rainfall properties)
  else 1.0.

Definition score (temperature rainfall : float) (properties : BiomeProperties)
    : float :=
  temp_match temperature properties * rain_match rainfall properties.

(** The scoring loop, from a given [(best_biome, best_score)]; a biome
    takes over when [score > best_score]. *)
Fixpoint best_from (temperature rainfall : float)
    (items : list (BiomeType * BiomeProperties))
    (best : BiomeType * float) : BiomeType * float :=
  match items with
  | [] => best
  | (biome_type, properties) :: rest =>
      let s := score temperature rainfall properties in
      if snd best <? s
      then best_from temperature rainfall rest (biome_type, s)
      else best_from temperature rainfall rest best
  end.

(** [best_biome] starts as [GRASSLAND] and [best_score] as
    [float('-inf')]. *)
Definition get_biome_from_climate (temperature rainfall : float) : BiomeType :=
  fst (best_from temperature rainfall BIOME_DEFINITIONS (GRASSLAND, neg_infinity)).



End biomes64.

(** * world/terrain.py *)

Module terrain.

Inductive TerrainType := GRASS | WATER | SAND | FOREST | STONE | DIRT.

#[global] Instance TerrainType_eq_dec : EqDecision TerrainType.
Proof. solve_decision. Defined.

(** A tile; the decorations, the colour variation seeds and the building
    back-reference are rendering and placement data and are left out. *)
Record Tile := mkTile {
  x : Z;
  y : Z;
  terrain_type : TerrainType;
  resource : option resource.Resource
}.

Definition new (px py : Z) (t : TerrainType) : Tile := mkTile px py t None.

Definition set_terrain_type (self : Tile) (t : TerrainType) : Tile :=
  mkTile (x self) (y self) t (resource self).

Definition set_resource (self : Tile) (r : resource.Resource) : Tile :=
  mkTile (x self) (y self) (terrain_type self) (Some r).

(** [tiles[y][x]]. *)
Definition tile_at (tiles : list (list Tile)) (ty tx : Z) : outcome Tile :=
  obind (py_index tiles ty) (fun row => py_index row tx).

End terrain.

(** * systems/pathfinding.py *)

Module pathfinding.

#[warnings="-register-all"]
Inductive Node :=
  mkNode (f_cost g_cost h_cost : Q) (x y : Z) (parent : option Node).

Definition f_cost (n : Node) : Q := let 'mkNode f _ _ _ _ _ := n in f.
Definition g_cost (n : Node) : Q := let 'mkNode _ g _ _ _ _ := n in g.
Definition h_cost (n : Node) : Q := let 'mkNode _ _ h _ _ _ := n in h.
Definition x (n : Node) : Z := let 'mkNode _ _ _ px _ _ := n in px.
Definition y (n : Node) : Z := let 'mkNode _ _ _ _ py _ := n in py.
Definition parent (n : Node) : option Node := let 'mkNode _ _ _ _ _ p := n in p.

(** The nodes from [node] back to the start, following [parent]. *)
Fixpoint chain (node : Node) : list (Z * Z) :=
  match node with
  | mkNode _ _ _ px py p =>
      (px, py) :: match p with
                  | Some q => chain q
                  | None => []
                  end
  end.

Definition _reconstruct_path (node : Node) : list (Z * Z) := rev (chain node).

(** The footprint cells of the buildings that lie inside the grid. *)
Definition footprint_cells (width height : Z) (b : building.Building)
    : list (Z * Z) :=
  let definition := building.get_definition b in
  by_ ← range (building.y b) (building.y b + building.height definition);
  bx ← range (building.x b) (building.x b + building.width definition);
  if (0 <=? bx) && (bx <? width) && (0 <=? by_) && (by_ <? height)
  then [(bx, by_)] else [].

Definition building_obstacle_map (width height : Z)
    (buildings : list building.Building) : gset (Z * Z) :=
  fold_left (fun acc b => acc ∪ list_to_set (footprint_cells width height b))
    buildings ∅.

Definition _is_walkable (px py : Z) (tiles : list (list terrain.Tile))
    (building_obstacles : gset (Z * Z)) : outcome bool :=
  if bool_decide ((px, py) ∈ building_obstacles) then Returns false
  else
    obind (terrain.tile_at tiles py px) (fun tile =>
      if bool_decide (terrain.terrain_type tile = terrain.WATER)
      then Returns false
      else Returns true).

Definition directions : list (Z * Z) :=
  [(-1, 0); (1, 0); (0, -1); (0, 1); (-1, -1); (-1, 1); (1, -1); (1, 1)].

Section AStar.

(** The floating-point square root [v ** 0.5], and the two operations of
    [heapq] on the open list. [heappop] is only called on a non-empty
    list, given here by its first element and the rest. *)
Variable fsqrt : Q -> Q.
Variable heappush : list Node -> Node -> list Node.
Variable heappop : Node -> list Node -> Node * list Node.

Definition _heuristic (x1 y1 x2 y2 : Z) : Q :=
  fsqrt (inject_Z ((x2 - x1) ^ 2 + (y2 - y1) ^ 2)).

(** The body of the loop over the eight neighbours of [current]. *)
Definition visit_neighbor (tiles : list (list terrain.Tile))
    (building_obstacles closed_set : gset (Z * Z))
    (width height goal_x goal_y : Z) (current : Node)
    (d : Z * Z) (open_list : list Node) : outcome (list Node) :=
  let '(dx, dy) := d in
  let nx := x current + dx in
  let ny := y current + dy in
  if negb ((0 <=? nx) && (nx <? width) && (0 <=? ny) && (ny <? height))
  then Returns open_list
  else if bool_decide ((nx, ny) ∈ closed_set) then Returns open_list
  else
    obind (_is_walkable nx ny tiles building_obstacles) (fun walkable =>
      if negb walkable then Returns open_list
      else
        let move_cost :=
          (if negb (dx =? 0) && negb (dy =? 0) then 1.414 else 1.0)%Q in
        let g := (g_cost current + move_cost)%Q in
        let h := _heuristic nx ny goal_x goal_y in
        let f := (g + h)%Q in
        let neighbor := mkNode f g h nx ny (Some current) in
        Returns (heappush open_list neighbor)).

(** The [while] loop; [fuel] is the number of iterations still allowed
    by [max_iterations]. *)
Fixpoint search (fuel : nat) (tiles : list (list terrain.Tile))
    (building_obstacles : gset (Z * Z)) (width height goal_x goal_y : Z)
    (open_list : list Node) (closed_set : gset (Z * Z))
    : outcome (option (list (Z * Z))) :=
  match fuel with
  | O => Returns None
  | S fuel' =>
      match open_list with
      | [] => Returns None
      | n0 :: rest0 =>
          let '(current, open_list) := heappop n0 rest0 in
          if (x current =? goal_x) && (y current =? goal_y)
          then Returns (Some (_reconstruct_path current))
          else
            let closed_set := closed_set ∪ {[ (x current, y current) ]} in
            obind
              (for_each directions
                 (visit_neighbor tiles building_obstacles closed_set
                    width height goal_x goal_y current)
                 open_list)
              (fun open_list =>
                 search fuel' tiles building_obstacles width height
                   goal_x goal_y open_list closed_set)
      end
  end.

Definition find_path (start_x start_y goal_x goal_y : Z)
    (tiles : list (list terrain.Tile)) (buildings : list building.Building)
    (max_iterations : Z) : outcome (option (list (Z * Z))) :=
  match tiles with
  | [] => Returns None
  | row0 :: _ =>
      if (length row0 =? 0)%nat then Returns None
      else
        let height := Z.of_nat (length tiles) in
        let width := Z.of_nat (length row0) in
        if negb ((0 <=? start_x) && (start_x <? width)
                 && (0 <=? start_y) && (start_y <? height))
        then Returns None
        else if negb ((0 <=? goal_x) && (goal_x <? width)
                      && (0 <=? goal_y) && (goal_y <? height))
        then Returns None
        else if (start_x =? goal_x) && (start_y =? goal_y)
        then Returns (Some [(start_x, start_y)])
        else
          let building_obstacles :=
            building_obstacle_map width height buildings in
          let building_obstacles := building_obstacles ∖ {[ (goal_x, goal_y) ]} in
          let h := _heuristic start_x start_y goal_x goal_y in
          let start_node := mkNode (0 + h)%Q 0 h start_x start_y None in
          let open_list := heappush [] start_node in
          search (Z.to_nat max_iterations) tiles building_obstacles
            width height goal_x goal_y open_list ∅
  end.

End AStar.

(** A concrete priority queue: the open list is kept in insertion order
    and [heappop] removes the first node of least [f_cost]. *)
Definition push_back (l : list Node) (n : Node) : list Node := l ++ [n].

Fixpoint pop_min (n0 : Node) (rest : list Node) : Node * list Node :=
  match rest with
  | [] => (n0, [])
  | n1 :: rest' =>
      let '(m, others) := pop_min n1 rest' in
      if Qleb (f_cost n0) (f_cost m) then (n0, rest) else (m, n0 :: others)
  end.

(** A rational approximation of the square root, to six decimals. *)
Definition approx_sqrt (q : Q) : Q :=
  (inject_Z (Z.sqrt (Qfloor (q * 1000000000000))) / 1000000)%Q.

(** What the design document asks of every waypoint: in bounds, not
    Water, and on no building footprint unless it is the goal. *)
Definition valid_waypoint (tiles : list (list terrain.Tile))
    (buildings : list building.Building) (goal_x goal_y : Z) (p : Z * Z) : Prop :=
  let '(px, py) := p in
  0 <= py < Z.of_nat (length tiles)
  /\ 0 <= px < Z.of_nat (length (default [] (head tiles)))
  /\ (exists tile, terrain.tile_at tiles py px = Returns tile
                   /\ terrain.terrain_type tile ≠ terrain.WATER)
  /\ (forall b, b ∈ buildings -> building.occupies_tile b px py = true ->
                (px, py) = (goal_x, goal_y)).

End pathfinding.

(** * entities/citizen.py *)

Module citizen.

(** [JobType.IDLE] is written [JOB_IDLE] to keep it apart from
    [CitizenState.IDLE]. *)
Inductive JobType :=
  | JOB_IDLE | CONSTRUCTION | GATHERING | HAULING | FARMING | CRAFTING.

Inductive CitizenState := IDLE | WALKING | WORKING | CARRYING.

#[global] Instance JobType_eq_dec : EqDecision JobType.
Proof. solve_decision. Defined.

#[global] Instance CitizenState_eq_dec : EqDecision CitizenState.
Proof. solve_decision. Defined.

(** The object a citizen works on. The source holds a reference to a
    [Building] or a [Resource] that also sits in the game's lists; the
    reference is the position of the object in its list. *)
Inductive Task :=
  | BuildingRef (i : nat)
  | ResourceRef (i : nat).

Record Citizen := mkCitizen {
  id : Z;
  name : string;
  x : Q;
  y : Q;
  state : CitizenState;
  current_job : option JobType;
  target_x : option Q;
  target_y : option Q;
  construction_skill : Z;
  gathering_skill : Z;
  hauling_skill : Z;
  can_construct : bool;
  can_gather : bool;
  can_haul : bool;
  carrying_resource : option string;
  carrying_amount : Z;
  move_speed : Q;
  current_task : option Task;
  current_path : option (list (Z * Z));
  path_index : Z
}.

(** [Citizen(id=.., name=.., x=.., y=..)]; the three skills are drawn at
    random by the dataclass and are given here. *)
Definition new (cid : Z) (nm : string) (px py : Q) (cs gs hs : Z) : Citizen :=
  mkCitizen cid nm px py IDLE None None None cs gs hs true true true
    None 0 5 None None 0.

Definition set_position (self : Citizen) (px py : Q) : Citizen :=
  mkCitizen (id self) (name self) px py (state self) (current_job self)
    (target_x self) (target_y self) (construction_skill self)
    (gathering_skill self) (hauling_skill self) (can_construct self)
    (can_gather self) (can_haul self) (carrying_resource self)
    (carrying_amount self) (move_speed self) (current_task self)
    (current_path self) (path_index self).

Definition set_state (self : Citizen) (s : CitizenState) : Citizen :=
  mkCitizen (id self) (name self) (x self) (y self) s (current_job self)
    (target_x self) (target_y self) (construction_skill self)
    (gathering_skill self) (hauling_skill self) (can_construct self)
    (can_gather self) (can_haul self) (carrying_resource self)
    (carrying_amount self) (move_speed self) (current_task self)
    (current_path self) (path_index self).

Definition set_target_xy (self : Citizen) (tx ty : option Q) : Citizen :=
  mkCitizen (id self) (name self) (x self) (y self) (state self)
    (current_job self) tx ty (construction_skill self)
    (gathering_skill self) (hauling_skill self) (can_construct self)
    (can_gather self) (can_haul self) (carrying_resource self)
    (carrying_amount self) (move_speed self) (current_task self)
    (current_path self) (path_index self).

Definition set_carrying (self : Citizen) (r : option string) (a : Z) : Citizen :=
  mkCitizen (id self) (name self) (x self) (y self) (state self)
    (current_job self) (target_x self) (target_y self) (construction_skill self)
    (gathering_skill self) (hauling_skill self) (can_construct self)
    (can_gather self) (can_haul self) r a (move_speed self) (current_task self)
    (current_path self) (path_index self).

Definition set_job (self : Citizen) (t : option Task) (j : option JobType)
    : Citizen :=
  mkCitizen (id self) (name self) (x self) (y self) (state self) j
    (target_x self) (target_y self) (construction_skill self)
    (gathering_skill self) (hauling_skill self) (can_construct self)
    (can_gather self) (can_haul self) (carrying_resource self)
    (carrying_amount self) (move_speed self) t
    (current_path self) (path_index self).

Definition set_path (self : Citizen) (p : option (list (Z * Z))) (i : Z)
    : Citizen :=
  mkCitizen (id self) (name self) (x self) (y self) (state self)
    (current_job self) (target_x self) (target_y self) (construction_skill self)
    (gathering_skill self) (hauling_skill self) (can_construct self)
    (can_gather self) (can_haul self) (carrying_resource self)
    (carrying_amount self) (move_speed self) (current_task self) p i.

Definition assign_task (self : Citizen) (task : Task) (job_type : JobType)
    : Citizen :=
  set_state (set_job self (Some task) (Some job_type)) WALKING.

Definition clear_task (self : Citizen) : Citizen :=
  set_path (set_target_xy (set_state (set_job self None None) IDLE) None None)
    None 0.

Definition set_target (self : Citizen) (tx ty : Q)
    (path : option (list (Z * Z))) : Citizen :=
  set_path (set_state (set_target_xy self (Some tx) (Some ty)) WALKING) path 0.

Section Movement.

(** The floating-point square root [v ** 0.5]. *)
Variable fsqrt : Q -> Q.

Definition has_reached_target (self : Citizen) (threshold : Q) : bool :=
  match target_x self, target_y self with
  | Some tx, Some ty =>
      let distance := fsqrt ((x self - tx) ^ 2 + (y self - ty) ^ 2)%Q in
      Qltb distance threshold
  | _, _ => true
  end.

(** One step of [dist] tiles from the citizen towards [(px, py)]. *)
Definition step_towards (self : Citizen) (px py : Q) (delta_time : Q) : Citizen :=
  let dx := (px - x self)%Q in
  let dy := (py - y self)%Q in
  let distance := fsqrt (dx ^ 2 + dy ^ 2)%Q in
  let move_dist := (move_speed self * delta_time)%Q in
  if Qgeb move_dist distance then set_position self px py
  else set_position self (x self + (dx / distance) * move_dist)%Q
                         (y self + (dy / distance) * move_dist)%Q.

(** [update]: a raised [IndexError] cannot happen at
    [current_path[path_index]], the index being tested just before. *)
Definition update (self : Citizen) (delta_time : Q) : Citizen :=
  match target_x self with
  | Some tx =>
      if bool_decide (state self = WALKING) then
        let ty := default (y self) (target_y self) in
        let waypoint :=
          match current_path self with
          | Some path =>
              if (0 <=? path_index self)
                 && (path_index self <? Z.of_nat (length path))
              then path !! Z.to_nat (path_index self)
              else None
          | None => None
          end in
        match waypoint with
        | Some (wx, wy) =>
            let dx := (inject_Z wx - x self)%Q in
            let dy := (inject_Z wy - y self)%Q in
            let distance := fsqrt (dx ^ 2 + dy ^ 2)%Q in
            if Qltb distance 0.3 then
              let self1 := set_path self (current_path self) (path_index self + 1) in
              if path_index self1
                 >=? Z.of_nat (length (default [] (current_path self1)))
              then set_position self1 tx ty
              else self1
            else step_towards self (inject_Z wx) (inject_Z wy) delta_time
        | None =>
            let dx := (tx - x self)%Q in
            let dy := (ty - y self)%Q in
            let distance := fsqrt (dx ^ 2 + dy ^ 2)%Q in
            if Qgtb distance 0.1 then step_towards self tx ty delta_time
            else set_position self tx ty
        end
      else self
  | None => self
  end.

End Movement.

(** The dictionary written by [to_dict] and read back by [from_dict]:
    the task, the path and the path index are not part of it. *)
Record SavedCitizen := mkSaved {
  d_id : Z;
  d_name : string;
  d_x : Q;
  d_y : Q;
  d_state : CitizenState;
  d_current_job : option JobType;
  d_target_x : option Q;
  d_target_y : option Q;
  d_construction_skill : Z;
  d_gathering_skill : Z;
  d_hauling_skill : Z;
  d_can_construct : bool;
  d_can_gather : bool;
  d_can_haul : bool;
  d_carrying_resource : option string;
  d_carrying_amount : Z;
  d_move_speed : Q
}.

Definition to_dict (self : Citizen) : SavedCitizen :=
  mkSaved (id self) (name self) (x self) (y self) (state self)
    (current_job self) (target_x self) (target_y self)
    (construction_skill self) (gathering_skill self) (hauling_skill self)
    (can_construct self) (can_gather self) (can_haul self)
    (carrying_resource self) (carrying_amount self) (move_speed self).

(** [from_dict]: the constructor gives the task, the path and the path
    index their defaults, and every saved field is then assigned. *)
Definition from_dict (data : SavedCitizen) : Citizen :=
  mkCitizen (d_id data) (d_name data) (d_x data) (d_y data) (d_state data)
    (d_current_job data) (d_target_x data) (d_target_y data)
    (d_construction_skill data) (d_gathering_skill data) (d_hauling_skill data)
    (d_can_construct data) (d_can_gather data) (d_can_haul data)
    (d_carrying_resource data) (d_carrying_amount data) (d_move_speed data)
    None None 0.

End citizen.

(** * systems/job_manager.py *)

Module job_manager.

(** The objects shared by the job manager and the game state: the list
    of buildings, the stockpile dictionary, the list of resource nodes,
    and the job manager's own [citizen_gather_time]. A [citizen.Task]
    points into [buildings] or [resource_nodes]. *)
Record World := mkWorld {
  buildings : list building.Building;
  resources : gmap string Z;
  resource_nodes : list resource.Resource;
  citizen_gather_time : gmap Z Q
}.

Definition set_buildings (w : World) (bs : list building.Building) : World :=
  mkWorld bs (resources w) (resource_nodes w) (citizen_gather_time w).

Definition set_resources (w : World) (r : gmap string Z) : World :=
  mkWorld (buildings w) r (resource_nodes w) (citizen_gather_time w).

Definition set_resource_nodes (w : World) (ns : list resource.Resource) : World :=
  mkWorld (buildings w) (resources w) ns (citizen_gather_time w).

Definition set_citizen_gather_time (w : World) (t : gmap Z Q) : World :=
  mkWorld (buildings w) (resources w) (resource_nodes w) t.

(** [min(items, key=key)]: the first item of least key, with its index. *)
Fixpoint min_by {A : Type} (key : A -> Q) (best : nat * A)
    (items : list (nat * A)) : nat * A :=
  match items with
  | [] => best
  | item :: rest =>
      if Qltb (key (snd item)) (key (snd best))
      then min_by key item rest
      else min_by key best rest
  end.

Definition indexed {A : Type} (l : list A) : list (nat * A) :=
  zip (seq 0 (length l)) l.

Section JobManager.

Variable fsqrt : Q -> Q.
Variable heappush : list pathfinding.Node -> pathfinding.Node -> list pathfinding.Node.
Variable heappop :
  pathfinding.Node -> list pathfinding.Node -> pathfinding.Node * list pathfinding.Node.

(** The callable handed over as [storage_capacity_check]; it reads the
    buildings and the stockpile of the moment of the call. *)
Variable storage_capacity_check :
  option (list building.Building -> gmap string Z -> Z -> bool).

Definition has_reached_target (c : citizen.Citizen) : bool :=
  citizen.has_reached_target fsqrt c 0.5.

Definition _get_stockpile_location (buildings : list building.Building)
    : Q * Q :=
  match list_find
          (fun b => building.building_type b = building.WAGON) buildings with
  | Some (_, b) => building.get_center b
  | None => (5.0, 5.0)%Q
  end.

(** [current != target] where [current] may be [None]. *)
Definition differs (current : option Q) (target : Q) : bool :=
  match current with
  | Some v => negb (Qeq_bool v target)
  | None => true
  end.

Definition _move_citizen_to (c : citizen.Citizen) (target_x target_y : Q)
    (tiles : list (list terrain.Tile)) (buildings : list building.Building)
    : outcome citizen.Citizen :=
  if match citizen.current_path c with
     | None | Some [] => true
     | Some _ => false
     end
     || differs (citizen.target_x c) target_x
     || differs (citizen.target_y c) target_y
  then
    let start_x := py_int (citizen.x c) in
    let start_y := py_int (citizen.y c) in
    let goal_x := py_int target_x in
    let goal_y := py_int target_y in
    obind
      (pathfinding.find_path fsqrt heappush heappop
         start_x start_y goal_x goal_y tiles buildings 1000)
      (fun path => Returns (citizen.set_target c target_x target_y path))
  else Returns c.

(** The first needed kind that the stockpile holds. *)
Fixpoint first_in_stock (resources : gmap string Z)
    (needed : list (string * Z)) : option (string * Z) :=
  match needed with
  | [] => None
  | (resource_type, needed_amount) :: rest =>
      if dict_get resources resource_type >? 0
      then Some (resource_type, needed_amount)
      else first_in_stock resources rest
  end.

Definition _find_material_hauling_task (c : citizen.Citizen)
    (buildings : list building.Building) (resources : gmap string Z)
    : option nat :=
  if negb (citizen.can_haul c) then None
  else
    fst <$> list_find
      (fun b =>
         building.state b = building.PLANNED
         /\ is_Some (first_in_stock resources (building.get_required_materials b)))
      buildings.

Definition _find_construction_task (c : citizen.Citizen)
    (buildings : list building.Building) : option nat :=
  if negb (citizen.can_construct c) then None
  else
    let ready_buildings :=
      filter
        (fun ib =>
           building.can_start_construction (snd ib) = true
           \/ building.state (snd ib) = building.UNDER_CONSTRUCTION)
        (indexed buildings) in
    match ready_buildings with
    | [] => None
    | b0 :: rest =>
        let key (b : building.Building) :=
          ((citizen.x c - inject_Z (building.x b)) ^ 2
           + (citizen.y c - inject_Z (building.y b)) ^ 2)%Q in
        Some (fst (min_by key b0 rest))
    end.

(** Returns the chosen node and the list of nodes with that node
    claimed. *)
Definition _find_gathering_task (c : citizen.Citizen)
    (resource_nodes : list resource.Resource)
    : option nat * list resource.Resource :=
  if negb (citizen.can_gather c) then (None, resource_nodes)
  else
    let available_nodes :=
      filter
        (fun inode =>
           resource.designated (snd inode) = true
           /\ resource.is_depleted (snd inode) = false
           /\ resource.currently_being_gathered (snd inode) = false)
        (indexed resource_nodes) in
    match available_nodes with
    | [] => (None, resource_nodes)
    | n0 :: rest =>
        let distance (node : resource.Resource) :=
          ((citizen.x c - inject_Z (resource.x node)) ^ 2
           + (citizen.y c - inject_Z (resource.y node)) ^ 2)%Q in
        let '(i, nearest) := min_by distance n0 rest in
        (Some i,
         <[i := resource.assign_citizen nearest (citizen.id c)]> resource_nodes)
    end.

Definition _assign_work (c : citizen.Citizen) (w : World)
    : citizen.Citizen * World :=
  match _find_material_hauling_task c (buildings w) (resources w) with
  | Some i => (citizen.assign_task c (citizen.BuildingRef i) citizen.HAULING, w)
  | None =>
      match _find_construction_task c (buildings w) with
      | Some i =>
          (citizen.assign_task c (citizen.BuildingRef i) citizen.CONSTRUCTION, w)
      | None =>
          match _find_gathering_task c (resource_nodes w) with
          | (Some i, nodes) =>
              (citizen.assign_task c (citizen.ResourceRef i) citizen.GATHERING,
               set_resource_nodes w nodes)
          | (None, _) => (c, w)
          end
      end
  end.

(** A task that points at a building: the building it points at. A
    reference that resolves to nothing has no counterpart in the source
    (buildings are never removed); the model stops there. *)
Definition task_building (c : citizen.Citizen) (w : World)
    : option (outcome (nat * building.Building)) :=
  match citizen.current_task c with
  | Some (citizen.BuildingRef i) =>
      Some (match buildings w !! i with
            | Some b => Returns (i, b)
            | None => Raises
            end)
  | _ => None
  end.

Definition put_building (w : World) (i : nat) (b : building.Building) : World :=
  set_buildings w (<[i := b]> (buildings w)).

Definition _update_hauling (c : citizen.Citizen) (w : World) (delta_time : Q)
    (tiles : list (list terrain.Tile)) : outcome (citizen.Citizen * World) :=
  match task_building c w with
  | None => Returns (citizen.clear_task c, w)
  | Some r =>
      obind r (fun '(i, bld) =>
        match citizen.carrying_resource c with
        | None =>
            let '(stockpile_x, stockpile_y) :=
              _get_stockpile_location (buildings w) in
            if negb (has_reached_target c) then
              obind (_move_citizen_to c stockpile_x stockpile_y tiles (buildings w))
                (fun c' => Returns (c', w))
            else
              let needed := building.get_required_materials bld in
              match first_in_stock (resources w) needed with
              | Some (resource_type, needed_amount) =>
                  let have := dict_get (resources w) resource_type in
                  let amount_to_take := Z.min (Z.min 5 have) needed_amount in
                  let c1 := citizen.set_carrying c (Some resource_type) amount_to_take in
                  let w1 :=
                    set_resources w
                      (<[resource_type := have - amount_to_take]> (resources w)) in
                  Returns (citizen.set_state c1 citizen.CARRYING, w1)
              | None => Returns (c, w)
              end
        | Some carried =>
            let '(building_x, building_y) := building.get_center bld in
            if negb (has_reached_target c) then
              obind (_move_citizen_to c building_x building_y tiles (buildings w))
                (fun c' => Returns (c', w))
            else
              let bld1 :=
                building.deliver_material bld carried (citizen.carrying_amount c) in
              let c1 := citizen.set_carrying c None 0 in
              let w1 := put_building w i bld1 in
              if (length (building.get_required_materials bld1) =? 0)%nat
              then Returns (citizen.clear_task c1, w1)
              else Returns (c1, w1)
        end)
  end.

Definition _update_construction (c : citizen.Citizen) (w : World)
    (delta_time : Q) (tiles : list (list terrain.Tile))
    : outcome (citizen.Citizen * World) :=
  match task_building c w with
  | None => Returns (citizen.clear_task c, w)
  | Some r =>
      obind r (fun '(i, bld) =>
        let bld :=
          if bool_decide (building.state bld = building.PLANNED)
             && building.has_all_materials bld
          then building.set_state bld building.UNDER_CONSTRUCTION
          else bld in
        if bool_decide (building.state bld = building.UNDER_CONSTRUCTION) then
          let '(building_x, building_y) := building.get_center bld in
          if negb (has_reached_target c) then
            Returns (citizen.set_target c building_x building_y None,
                     put_building w i bld)
          else
            let c1 := citizen.set_state c citizen.WORKING in
            let skill_multiplier :=
              (1.0 + inject_Z (citizen.construction_skill c1) / 20.0)%Q in
            let work_done := (10.0 * skill_multiplier * delta_time)%Q in
            let bld1 := building.add_construction_progress bld work_done in
            let w1 := put_building w i bld1 in
            if bool_decide (building.state bld1 = building.COMPLETE)
            then Returns (citizen.clear_task c1, w1)
            else Returns (c1, w1)
        else if bool_decide (building.state bld = building.COMPLETE) then
          Returns (citizen.clear_task c, put_building w i bld)
        else Returns (c, put_building w i bld))
  end.

(** The deposit at the stockpile, once the carrying citizen has reached
    it: the cargo is added to the stockpile if the capacity check allows
    it and is dropped otherwise. *)
Definition deposit (c : citizen.Citizen) (w : World) (carried : string)
    : citizen.Citizen * World :=
  let can_deposit :=
    match storage_capacity_check with
    | Some check => check (buildings w) (resources w) (citizen.carrying_amount c)
    | None => true
    end in
  if can_deposit then
    let w1 :=
      set_resources w
        (<[carried := dict_get (resources w) carried + citizen.carrying_amount c]>
           (resources w)) in
    (citizen.clear_task (citizen.set_carrying c None 0), w1)
  else
    (citizen.clear_task (citizen.set_carrying c None 0), w).

Definition GATHER_TIME : Q := 5.0.

Definition _update_gathering (c : citizen.Citizen) (w : World)
    (delta_time : Q) (tiles : list (list terrain.Tile))
    : outcome (citizen.Citizen * World) :=
  match citizen.current_task c with
  | Some (citizen.ResourceRef i) =>
      match resource_nodes w !! i with
      | None => Raises
      | Some resource_node =>
          match citizen.carrying_resource c with
          | None =>
              obind
                (_move_citizen_to c (inject_Z (resource.x resource_node))
                   (inject_Z (resource.y resource_node)) tiles (buildings w))
                (fun c =>
                   if has_reached_target c then
                     let c := citizen.set_state c citizen.WORKING in
                     let timers := citizen_gather_time w in
                     let timers :=
                       match timers !! citizen.id c with
                       | Some _ => timers
                       | None => <[citizen.id c := 0.0%Q]> timers
                       end in
                     let elapsed :=
                       (default 0 (timers !! citizen.id c) + delta_time)%Q in
                     let timers := <[citizen.id c := elapsed]> timers in
                     if Qgeb elapsed GATHER_TIME then
                       let '((resource_type, amount), node1) :=
                         resource.gather resource_node in
                       let node2 := resource.unassign_citizen node1 in
                       let w1 :=
                         set_citizen_gather_time
                           (set_resource_nodes w (<[i := node2]> (resource_nodes w)))
                           (delete (citizen.id c) timers) in
                       match resource_type with
                       | Some rt =>
                           if negb (String.eqb rt EmptyString) && (amount >? 0) then
                             let c1 := citizen.set_carrying c (Some rt) amount in
                             let c2 := citizen.set_state c1 citizen.CARRYING in
                             Returns (citizen.set_target_xy c2 None None, w1)
                           else Returns (citizen.clear_task c, w1)
                       | None => Returns (citizen.clear_task c, w1)
                       end
                     else Returns (c, set_citizen_gather_time w timers)
                   else Returns (c, w))
          | Some carried =>
              let '(stockpile_x, stockpile_y) :=
                _get_stockpile_location (buildings w) in
              obind
                (_move_citizen_to c stockpile_x stockpile_y tiles (buildings w))
                (fun c =>
                   if has_reached_target c then Returns (deposit c w carried)
                   else Returns (c, w))
          end
      end
  | _ => Returns (citizen.clear_task c, w)
  end.

Definition _update_citizen_task (c : citizen.Citizen) (w : World)
    (delta_time : Q) (tiles : list (list terrain.Tile))
    : outcome (citizen.Citizen * World) :=
  match citizen.current_job c with
  | Some citizen.HAULING => _update_hauling c w delta_time tiles
  | Some citizen.CONSTRUCTION => _update_construction c w delta_time tiles
  | Some citizen.GATHERING => _update_gathering c w delta_time tiles
  | _ => Returns (c, w)
  end.

(** The body of the loop of [update] for one citizen. *)
Definition update_citizen (c : citizen.Citizen) (w : World) (delta_time : Q)
    (tiles : list (list terrain.Tile)) : outcome (citizen.Citizen * World) :=
  let c := citizen.update fsqrt c delta_time in
  if bool_decide (citizen.state c = citizen.IDLE)
     && bool_decide (citizen.current_task c = None)
  then Returns (_assign_work c w)
  else if negb (bool_decide (citizen.current_task c = None))
  then _update_citizen_task c w delta_time tiles
  else Returns (c, w).

(** [update]: the citizens are updated in list order on the shared
    world; [done] collects the citizens already updated. *)
Fixpoint update_loop (todo done : list citizen.Citizen) (w : World)
    (delta_time : Q) (tiles : list (list terrain.Tile))
    : outcome (list citizen.Citizen * World) :=
  match todo with
  | [] => Returns (done, w)
  | c :: rest =>
      obind (update_citizen c w delta_time tiles) (fun '(c', w') =>
        update_loop rest (done ++ [c']) w' delta_time tiles)
  end.

Definition update (citizens : list citizen.Citizen) (w : World)
    (delta_time : Q) (tiles : list (list terrain.Tile))
    : outcome (list citizen.Citizen * World) :=
  update_loop citizens [] w delta_time tiles.

End JobManager.

End job_manager.

(** * core/game_state.py (storage capacity) *)

Module game_state.

Definition max_storage_capacity : Z := 500.
Definition storage_capacity_per_warehouse : Z := 2000.

Definition get_total_storage_capacity (buildings : list building.Building) : Z :=
  let warehouse_count :=
    Z.of_nat
      (length
         (filter
            (fun b =>
               building.building_type b = building.WAREHOUSE
               /\ building.state b = building.COMPLETE)
            buildings)) in
  max_storage_capacity + warehouse_count * storage_capacity_per_warehouse.

Definition get_current_storage_used (resources : gmap string Z) : Z :=
  dict_sum resources.

Definition get_storage_remaining (buildings : list building.Building)
    (resources : gmap string Z) : Z :=
  get_total_storage_capacity buildings - get_current_storage_used resources.

Definition can_add_resources (buildings : list building.Building)
    (resources : gmap string Z) (amount : Z) : bool :=
  get_storage_remaining buildings resources >=? amount.

(** The part of the game state that the simulation tick works on. *)
Record GameState := mkGameState {
  citizens : list citizen.Citizen;
  world : job_manager.World;
  local_tiles : list (list terrain.Tile);
  game_time : Q;
  paused : bool;
  game_speed : Q
}.

Section Update.

Variable fsqrt : Q -> Q.
Variable heappush : list pathfinding.Node -> pathfinding.Node -> list pathfinding.Node.
Variable heappop :
  pathfinding.Node -> list pathfinding.Node -> pathfinding.Node * list pathfinding.Node.

(** [update]; the auto-save that follows the job-manager update writes a
    file and is not modelled. *)
Definition update (self : GameState) (delta_time : Q) : outcome GameState :=
  if paused self then Returns self
  else
    let delta_time := (delta_time * game_speed self)%Q in
    let game_time := (game_time self + delta_time)%Q in
    obind
      (job_manager.update fsqrt heappush heappop (Some can_add_resources)
         (citizens self) (world self) delta_time (local_tiles self))
      (fun '(cs, w) =>
         Returns (mkGameState cs w (local_tiles self) game_time
                    (paused self) (game_speed self))).

(** [n] successive frames of [delta_time] seconds. *)
Fixpoint frames (n : nat) (self : GameState) (delta_time : Q)
    : outcome GameState :=
  match n with
  | O => Returns self
  | S k => obind (update self delta_time) (fun s => frames k s delta_time)
  end.

End Update.


(** The terrain on which [_can_place_building] lets a building stand. *)
Definition placeable (t : terrain.TerrainType) : bool :=
  match t with
  | terrain.GRASS | terrain.DIRT | terrain.SAND => true
  | _ => false
  end.

(** The body of the two loops of [_can_place_building] at the tile
    [(x, y)]: [Some false] when the function returns [False] there,
    [None] when the loops go on. *)
Definition check_tile (local_tiles : list (list terrain.Tile))
    (buildings : list building.Building) (x y : Z) : outcome (option bool) :=
  obind (terrain.tile_at local_tiles y x) (fun tile =>
    if negb (placeable (terrain.terrain_type tile)) then Returns (Some false)
    else if existsb (fun b => building.occupies_tile b x y) buildings
    then Returns (Some false)
    else Returns None).

(** [_can_place_building]; the loop state is the value already
    returned, if any. *)
Definition _can_place_building (local_tiles : list (list terrain.Tile))
    (buildings : list building.Building) (building_type : building.BuildingType)
    (tile_x tile_y : Z) : outcome bool :=
  let definition := building.BUILDING_DEFINITIONS building_type in
  let height := Z.of_nat (length local_tiles) in
  let width :=
    if height >? 0 then Z.of_nat (length (default [] (head local_tiles))) else 0 in
  if (tile_x <? 0) || (tile_y <? 0)
     || (tile_x + building.width definition >? width)
     || (tile_y + building.height definition >? height)
  then Returns false
  else
    obind
      (for_each (range 0 (building.height definition))
         (fun dy returned =>
            for_each (range 0 (building.width definition))
              (fun dx returned =>
                 match returned with
                 | Some r => Returns (Some r)
                 | None =>
                     check_tile local_tiles buildings (tile_x + dx) (tile_y + dy)
                 end)
              returned)
         None)
      (fun returned => Returns (default true returned)).

(** [place_building] on the view, the tiles, the list of buildings and
    the next building id of the game state; it returns its result with
    the new list and the new next id. The auto-save that follows a
    placement writes a file and is not modelled. *)
Definition place_building (current_view : string)
    (local_tiles : list (list terrain.Tile))
    (buildings : list building.Building) (next_building_id : Z)
    (building_type : building.BuildingType) (tile_x tile_y : Z)
    : outcome (bool * (list building.Building * Z)) :=
  if negb (String.eqb current_view "local")
  then Returns (false, (buildings, next_building_id))
  else
    obind (_can_place_building local_tiles buildings building_type tile_x tile_y)
      (fun ok =>
         if negb ok then Returns (false, (buildings, next_building_id))
         else
           let building :=
             building.new next_building_id building_type tile_x tile_y in
           Returns (true, (buildings ++ [building], next_building_id + 1))).


(** [_collect_resource_nodes]: the resources of the tiles, row by row. *)
Definition _collect_resource_nodes (local_tiles : list (list terrain.Tile))
    : list resource.Resource :=
  mjoin ((fun row => omap terrain.resource row) <$> local_tiles).

End game_state.

(** * The module-level [random] generator *)

Module random.

(** The generator is an endless supply of raw integers and a cursor into
    it; the Mersenne Twister that produces them is not modelled. *)
Record State := mkState {
  supply : nat -> Z;
  cursor : nat
}.

Definition next (s : State) : Z * State :=
  (supply s (cursor s), mkState (supply s) (S (cursor s))).

(** [random.seed(v)], for a given map from seeds to supplies. *)
Definition seed (seeded : Z -> nat -> Z) (v : Z) (s : State) : State :=
  mkState (seeded v) 0.

(** [random.random()]: a multiple of 2^-53 in [0, 1). *)
Definition random (s : State) : Q * State :=
  let '(v, s') := next s in
  (Qmake (v mod 2 ^ 53) (2 ^ 53), s').

(** [random.randint(a, b)]: [ValueError] on an empty range. *)
Definition randint (a b : Z) (s : State) : outcome (Z * State) :=
  if b <? a then Raises
  else let '(v, s') := next s in Returns (a + v mod (b - a + 1), s').

(** A supply that starts with the given draws and goes on with [d]. *)
Definition supply_of (draws : list Z) (d : Z) : nat -> Z :=
  fun n => nth n draws d.

End random.

(** * world/world_generator_advanced.py *)

Module world_generator_advanced.

Module WorldTile.
Record t := mk {
  x : Z;
  y : Z;
  elevation : Q;
  temperature : Q;
  rainfall : Q;
  biome : biomes.BiomeType
}.
End WorldTile.

Module RegionTile.
Record t := mk {
  x : Z;
  y : Z;
  elevation : Q;
  moisture : Q;
  biome : biomes.BiomeType;
  terrain_type : terrain.TerrainType
}.
End RegionTile.

(** [max(a, b)] and [min(a, b)] of Python: the first argument wins a tie. *)
Definition py_max (a b : Q) : Q := if Qgtb b a then b else a.
Definition py_min (a b : Q) : Q := if Qltb b a then b else a.

(** [max(0, min(1, v))]. *)
Definition clamp01 (v : Q) : Q := py_max 0 (py_min 1 v).

(** [tiles[y][x] = f(tiles[y][x])]: the update in place of one tile. *)
Definition update_tile (tiles : list (list terrain.Tile)) (ty tx : Z)
    (f : terrain.Tile -> terrain.Tile) : outcome (list (list terrain.Tile)) :=
  match norm_index (length tiles) ty with
  | None => Raises
  | Some j =>
      match tiles !! j with
      | None => Raises
      | Some row =>
          match norm_index (length row) tx with
          | None => Raises
          | Some i =>
              match row !! i with
              | None => Raises
              | Some tile => Returns (<[j := <[i := f tile]> row]> tiles)
              end
          end
      end
  end.

(** [tiles[y][x].terrain_type]. *)
Definition terrain_at (tiles : list (list terrain.Tile)) (ty tx : Z)
    : outcome terrain.TerrainType :=
  obind (terrain.tile_at tiles ty tx) (fun t => Returns (terrain.terrain_type t)).

(** [tiles[y][x].terrain_type = t]. *)
Definition set_terrain (tiles : list (list terrain.Tile)) (ty tx : Z)
    (t : terrain.TerrainType) : outcome (list (list terrain.Tile)) :=
  update_tile tiles ty tx (fun tile => terrain.set_terrain_type tile t).

(** [len(tiles)] and [len(tiles[0]) if height > 0 else 0]. *)
Definition grid_height {A : Type} (tiles : list (list A)) : Z :=
  Z.of_nat (length tiles).
Definition grid_width {A : Type} (tiles : list (list A)) : Z :=
  Z.of_nat (length (default [] (head tiles))).

Definition is_buildable (t : terrain.TerrainType) : bool :=
  bool_decide (t = terrain.GRASS) || bool_decide (t = terrain.DIRT).

Record TieredWorldGenerator := mkGenerator {
  seed : Z;
  elevation_noise : Q -> Q -> Q;
  temperature_noise : Q -> Q -> Q;
  rainfall_noise : Q -> Q -> Q;
  detail_noise : Q -> Q -> Q
}.

Section Generator.

(** [OpenSimplex(seed=v).noise2], the supply that [random.seed(v)]
    installs, the order in which a [set] of biomes is iterated, and the
    floating-point square root. *)
Variable noise2 : Z -> Q -> Q -> Q.
Variable seeded : Z -> nat -> Z.
Variable set_iter : list biomes.BiomeType -> list biomes.BiomeType.
Variable fsqrt : Q -> Q.

Definition __init__ (seed : option Z) (s : random.State)
    : outcome (TieredWorldGenerator * random.State) :=
  obind
    (match seed with
     | Some v => Returns (v, s)
     | None => random.randint 0 999999 s
     end)
    (fun '(v, s) =>
       Returns (mkGenerator v (noise2 v) (noise2 (v + 1)) (noise2 (v + 2))
                  (noise2 (v + 3)),
                random.seed seeded v s)).

Definition _generate_elevation (self : TieredWorldGenerator)
    (x y width height : Z) : Q :=
  let x := inject_Z x in
  let y := inject_Z y in
  let elevation :=
    (elevation_noise self (x * 0.02) (y * 0.02) * 0.5
     + elevation_noise self (x * 0.04) (y * 0.04) * 0.25
     + elevation_noise self (x * 0.08) (y * 0.08) * 0.15
     + elevation_noise self (x * 0.16) (y * 0.16) * 0.1)%Q in
  let elevation := ((elevation + 1) / 2)%Q in
  clamp01 elevation.

Definition _generate_rainfall (self : TieredWorldGenerator)
    (x y : Z) (elevation : Q) : Q :=
  let x := inject_Z x in
  let y := inject_Z y in
  let rainfall :=
    (rainfall_noise self (x * 0.03) (y * 0.03) * 0.6
     + rainfall_noise self (x * 0.06) (y * 0.06) * 0.4)%Q in
  let rainfall := ((rainfall + 1) / 2)%Q in
  let rainfall := if Qgtb elevation 0.7 then (rainfall * 1.2)%Q else rainfall in
  clamp01 rainfall.

(** The body of the two loops of [generate_world_map] for the cell
    [(x, y)]. *)
Definition world_tile (self : TieredWorldGenerator) (width height x y : Z)
    : WorldTile.t :=
  let elevation := _generate_elevation self x y width height in
  let latitude_factor :=
    (Qabs (inject_Z y / inject_Z height - 0.5) * 2)%Q in
  let base_temp := (1.0 - latitude_factor)%Q in
  let temp_noise :=
    temperature_noise self (inject_Z x * 0.02)%Q (inject_Z y * 0.02)%Q in
  let temperature := ((base_temp * 0.7 + temp_noise * 0.3) * 2 - 1)%Q in
  let temperature := (temperature - elevation * 0.5)%Q in
  let rainfall := _generate_rainfall self x y elevation in
  let biome := biomes.get_biome_from_climate temperature rainfall in
  WorldTile.mk x y elevation temperature rainfall biome.

(** [generate_world_map]: the loops append to [row] and to
    [world_tiles]; the generator state is carried along although no draw
    is made. The logging of the statistics is not modelled. *)
Definition generate_world_map (self : TieredWorldGenerator) (width height : Z)
    (s : random.State) : outcome (list (list WorldTile.t) * random.State) :=
  for_each (range 0 height)
    (fun y '(world_tiles, s) =>
       obind
         (for_each (range 0 width)
            (fun x '(row, s) =>
               Returns (row ++ [world_tile self width height x y], s))
            ([], s))
         (fun '(row, s) => Returns (world_tiles ++ [row], s)))
    ([], s).

Definition _generate_local_elevation (self : TieredWorldGenerator)
    (x y offset_x offset_y : Z) (avg_elevation : Q) : Q :=
  let px := inject_Z (x + offset_x) in
  let py := inject_Z (y + offset_y) in
  let noise :=
    (detail_noise self (px * 0.15) (py * 0.15) * 0.5
     + detail_noise self (px * 0.3) (py * 0.3) * 0.3
     + detail_noise self (px * 0.6) (py * 0.6) * 0.2)%Q in
  let noise := ((noise + 1) / 2)%Q in
  let elevation := (avg_elevation * 0.5 + noise * 0.5)%Q in
  clamp01 elevation.

Definition _generate_local_moisture (self : TieredWorldGenerator)
    (x y offset_x offset_y : Z) (avg_moisture : Q) : Q :=
  let px := inject_Z (x + offset_x) in
  let py := inject_Z (y + offset_y) in
  let noise := rainfall_noise self (px * 0.2)%Q (py * 0.2)%Q in
  let noise := ((noise + 1) / 2)%Q in
  let moisture := (avg_moisture * 0.4 + noise * 0.6)%Q in
  clamp01 moisture.

Definition _get_terrain_from_biome (biome_props : biomes.BiomeProperties)
    (elevation moisture : Q) (s : random.State)
    : terrain.TerrainType * random.State :=
  if Qltb elevation 0.25 then (terrain.WATER, s)
  else if Qltb elevation 0.30 then (terrain.SAND, s)
  else if Qgtb elevation 0.75 then (terrain.STONE, s)
  else if Qgtb elevation 0.65 then (terrain.DIRT, s)
  else if Qgtb moisture 0.6 then
    let '(draw, s) := random.random s in
    if Qltb draw (biomes.tree_density biome_props)
    then (terrain.FOREST, s) else (terrain.GRASS, s)
  else (terrain.GRASS, s).

(** [if tiles[y][x].terrain_type == WATER: tiles[y][x].terrain_type = GRASS]. *)
Definition water_to_grass (tiles : list (list terrain.Tile)) (ty tx : Z)
    : outcome (list (list terrain.Tile)) :=
  obind (terrain_at tiles ty tx) (fun t =>
    if bool_decide (t = terrain.WATER)
    then set_terrain tiles ty tx terrain.GRASS
    else Returns tiles).

Definition _ensure_local_playability (local_tiles : list (list terrain.Tile))
    : outcome (list (list terrain.Tile)) :=
  let height := grid_height local_tiles in
  let width := grid_width local_tiles in
  obind
    (for_each (range 0 width)
       (fun x tiles =>
          obind (water_to_grass tiles 0 x) (fun tiles =>
            water_to_grass tiles (height - 1) x))
       local_tiles)
    (fun local_tiles =>
  obind
    (for_each (range 0 height)
       (fun y tiles =>
          obind (water_to_grass tiles y 0) (fun tiles =>
            water_to_grass tiles y (width - 1)))
       local_tiles)
    (fun local_tiles =>
  let center_x := width / 2 in
  let center_y := height / 2 in
  for_each (range (-5) 6)
    (fun dy tiles =>
       for_each (range (-5) 6)
         (fun dx tiles =>
            let x := center_x + dx in
            let y := center_y + dy in
            if (0 <=? x) && (x <? width) && (0 <=? y) && (y <? height) then
              obind (terrain_at tiles y x) (fun t =>
                if negb (is_buildable t)
                then set_terrain tiles y x terrain.GRASS
                else Returns tiles)
            else Returns tiles)
         tiles)
    local_tiles)).

(** The two inner loops of [_add_forests] around one forest centre. *)
Definition grow_forest (width height center_x center_y radius : Z)
    (st : list (list terrain.Tile) * random.State)
    : outcome (list (list terrain.Tile) * random.State) :=
  for_each (range (- radius) (radius + 1))
    (fun dy st =>
       for_each (range (- radius) (radius + 1))
         (fun dx '(tiles, s) =>
            let nx := center_x + dx in
            let ny := center_y + dy in
            if (0 <=? nx) && (nx <? width) && (0 <=? ny) && (ny <? height) then
              let distance := fsqrt (inject_Z (dx * dx + dy * dy)) in
              if Qleb distance (inject_Z radius) then
                let '(draw, s) := random.random s in
                if Qgtb draw 0.3 then
                  obind (terrain_at tiles ny nx) (fun t =>
                    if bool_decide (t = terrain.GRASS) then
                      obind (set_terrain tiles ny nx terrain.FOREST)
                        (fun tiles => Returns (tiles, s))
                    else Returns (tiles, s))
                else Returns (tiles, s)
              else Returns (tiles, s)
            else Returns (tiles, s))
         st)
    st.

Definition _add_forests (tiles : list (list terrain.Tile)) (tree_density : Q)
    (s : random.State) : outcome (list (list terrain.Tile) * random.State) :=
  if Qltb tree_density 0.05 then Returns (tiles, s)
  else
    let height := grid_height tiles in
    let width := grid_width tiles in
    let num_forests := py_int (20 * tree_density) in
    for_each (range 0 num_forests)
      (fun _ '(tiles, s) =>
         obind (random.randint 0 (width - 1) s) (fun '(center_x, s) =>
         obind (random.randint 0 (height - 1) s) (fun '(center_y, s) =>
         obind (terrain_at tiles center_y center_x) (fun t =>
           if bool_decide (t = terrain.GRASS) then
             obind
               (random.randint 3
                  (Z.max 3 (py_int (8 * tree_density))) s)
               (fun '(radius, s) =>
                  grow_forest width height center_x center_y radius (tiles, s))
           else Returns (tiles, s)))))
      (tiles, s).

Definition _smooth_terrain (tiles : list (list terrain.Tile))
    : outcome (list (list terrain.Tile)) :=
  let height := grid_height tiles in
  let width := grid_width tiles in
  let original := map (map terrain.terrain_type) tiles in
  let at_ (y x : Z) := obind (py_index original y) (fun row => py_index row x) in
  for_each (range 1 (height - 1))
    (fun y tiles =>
       for_each (range 1 (width - 1))
         (fun x tiles =>
            obind (at_ y x) (fun t =>
              if bool_decide (t = terrain.WATER) then
                obind (at_ (y - 1) x) (fun n1 =>
                obind (at_ (y + 1) x) (fun n2 =>
                obind (at_ y (x - 1)) (fun n3 =>
                obind (at_ y (x + 1)) (fun n4 =>
                  if forallb (fun n => negb (bool_decide (n = terrain.WATER)))
                       [n1; n2; n3; n4]
                  then set_terrain tiles y x terrain.GRASS
                  else Returns tiles))))
              else Returns tiles))
         tiles)
    tiles.

Definition _place_resource_nodes (tiles : list (list terrain.Tile))
    (s : random.State) : outcome (list (list terrain.Tile) * random.State) :=
  let height := grid_height tiles in
  let width := grid_width tiles in
  for_each (range 0 height)
    (fun y st =>
       for_each (range 0 width)
         (fun x '(tiles, s) =>
            obind (terrain_at tiles y x) (fun t =>
              if bool_decide (t = terrain.FOREST) then
                obind
                  (update_tile tiles y x
                     (fun tile =>
                        terrain.set_resource tile (resource.new resource.TREE x y)))
                  (fun tiles => Returns (tiles, s))
              else if is_buildable t then
                let '(random_value, s) := random.random s in
                if Qltb random_value 0.03 then
                  obind
                    (update_tile tiles y x
                       (fun tile =>
                          terrain.set_resource tile
                            (resource.new resource.STONE x y)))
                    (fun tiles => Returns (tiles, s))
                else if Qltb random_value 0.08 then
                  obind
                    (update_tile tiles y x
                       (fun tile =>
                          terrain.set_resource tile
                            (resource.new resource.BERRY_BUSH x y)))
                    (fun tiles => Returns (tiles, s))
                else Returns (tiles, s)
              else Returns (tiles, s)))
         st)
    (tiles, s).

Definition _generate_fallback_map (width height : Z) : list (list terrain.Tile) :=
  (fun y => (fun x => terrain.new x y terrain.GRASS) <$> range 0 width)
    <$> range 0 height.

(** [max(set(t.biome for t in chunk_tiles), key=count)]: the first biome,
    in the iteration order of the set, that no other outnumbers. *)
Definition count_biome (chunk_tiles : list RegionTile.t) (b : biomes.BiomeType)
    : nat :=
  length (filter (fun t => RegionTile.biome t = b) chunk_tiles).

Fixpoint most_frequent (chunk_tiles : list RegionTile.t)
    (best : biomes.BiomeType) (candidates : list biomes.BiomeType)
    : biomes.BiomeType :=
  match candidates with
  | [] => best
  | b :: rest =>
      if (count_biome chunk_tiles best <? count_biome chunk_tiles b)%nat
      then most_frequent chunk_tiles b rest
      else most_frequent chunk_tiles best rest
  end.

(** [sum(f(t) for t in l)]. *)
Definition sum_of {A : Type} (f : A -> Q) (l : list A) : Q :=
  fold_left (fun acc t => (acc + f t)%Q) l 0%Q.

(** The region tiles that the chunk refers to, clamped to the region. *)
Definition chunk_of (region_tiles : list (list RegionTile.t))
    (chunk_x chunk_y chunk_width chunk_height : Z)
    : outcome (list RegionTile.t) :=
  let region_height := grid_height region_tiles in
  let region_width := grid_width region_tiles in
  for_each (range 0 chunk_height)
    (fun cy chunk_tiles =>
       for_each (range 0 chunk_width)
         (fun cx chunk_tiles =>
            let rx := Z.min (chunk_x + cx) (region_width - 1) in
            let ry := Z.min (chunk_y + cy) (region_height - 1) in
            if (0 <=? ry) && (ry <? region_height)
               && (0 <=? rx) && (rx <? region_width)
            then
              obind (obind (py_index region_tiles ry) (fun row => py_index row rx))
                (fun t => Returns (chunk_tiles ++ [t]))
            else Returns chunk_tiles)
         chunk_tiles)
    [].

(** The noise-driven first draft of the local map. *)
Definition draft_local_map (self : TieredWorldGenerator)
    (biome_props : biomes.BiomeProperties) (avg_elevation avg_moisture : Q)
    (offset_x offset_y local_width local_height : Z) (s : random.State)
    : outcome (list (list terrain.Tile) * random.State) :=
  for_each (range 0 local_height)
    (fun y '(local_tiles, s) =>
       obind
         (for_each (range 0 local_width)
            (fun x '(row, s) =>
               let elevation :=
                 _generate_local_elevation self x y offset_x offset_y
                   avg_elevation in
               let moisture :=
                 _generate_local_moisture self x y offset_x offset_y
                   avg_moisture in
               let '(terrain_type, s) :=
                 _get_terrain_from_biome biome_props elevation moisture s in
               Returns (row ++ [terrain.new x y terrain_type], s))
            ([], s))
         (fun '(row, s) => Returns (local_tiles ++ [row], s)))
    ([], s).

(** The four passes applied to the draft, in the order of the source. *)
Definition finish_local_map (local_tiles : list (list terrain.Tile))
    (biome_props : biomes.BiomeProperties) (s : random.State)
    : outcome (list (list terrain.Tile) * random.State) :=
  obind (_ensure_local_playability local_tiles) (fun local_tiles =>
  obind (_add_forests local_tiles (biomes.tree_density biome_props) s)
    (fun '(local_tiles, s) =>
  obind (_smooth_terrain local_tiles) (fun local_tiles =>
  _place_resource_nodes local_tiles s))).

Definition generate_local_map (self : TieredWorldGenerator)
    (region_tiles : list (list RegionTile.t))
    (chunk_x chunk_y chunk_width chunk_height local_width local_height : Z)
    (s : random.State) : outcome (list (list terrain.Tile) * random.State) :=
  obind (chunk_of region_tiles chunk_x chunk_y chunk_width chunk_height)
    (fun chunk_tiles =>
       match chunk_tiles, set_iter (map RegionTile.biome chunk_tiles) with
       | [], _ => Returns (_generate_fallback_map local_width local_height, s)
       | _ :: _, [] => Raises
       | _ :: _, b0 :: others =>
           let n := inject_Z (Z.of_nat (length chunk_tiles)) in
           let avg_elevation := (sum_of RegionTile.elevation chunk_tiles / n)%Q in
           let avg_moisture := (sum_of RegionTile.moisture chunk_tiles / n)%Q in
           let primary_biome := most_frequent chunk_tiles b0 others in
           let biome_props := biomes.get_biome_properties primary_biome in
           let offset_x := chunk_x * 1000 in
           let offset_y := chunk_y * 1000 in
           obind
             (draft_local_map self biome_props avg_elevation avg_moisture
                offset_x offset_y local_width local_height s)
             (fun '(local_tiles, s) =>
                finish_local_map local_tiles biome_props s)
       end).

End Generator.

(** ** The region tier *)

(** [_generate_constrained_elevation]; the adjacent world tiles are
    passed along by the source and not read. *)
Definition _generate_constrained_elevation (self : TieredWorldGenerator)
    (x y offset_x offset_y : Z) (target_elevation : Q) : Q :=
  let px := inject_Z (x + offset_x) in
  let py := inject_Z (y + offset_y) in
  let noise := detail_noise self (px * 0.1)%Q (py * 0.1)%Q in
  let noise := ((noise + 1) / 2)%Q in
  let elevation := (target_elevation * 0.7 + noise * 0.3)%Q in
  let detail := (detail_noise self (px * 0.5) (py * 0.5) * 0.1)%Q in
  let elevation := (elevation + detail)%Q in
  clamp01 elevation.

Definition _generate_constrained_moisture (self : TieredWorldGenerator)
    (x y offset_x offset_y : Z) (target_moisture : Q) : Q :=
  let px := inject_Z (x + offset_x) in
  let py := inject_Z (y + offset_y) in
  let noise := rainfall_noise self (px * 0.12)%Q (py * 0.12)%Q in
  let noise := ((noise + 1) / 2)%Q in
  let moisture := (target_moisture * 0.6 + noise * 0.4)%Q in
  clamp01 moisture.

Definition set_region_terrain (tile : RegionTile.t) (t : terrain.TerrainType)
    : RegionTile.t :=
  RegionTile.mk (RegionTile.x tile) (RegionTile.y tile)
    (RegionTile.elevation tile) (RegionTile.moisture tile)
    (RegionTile.biome tile) t.

(** The body of the adjusting loops of [_ensure_region_playability] for
    one tile: a draw is made only when the terrain test before it holds. *)
Definition adjust_tile (tile : RegionTile.t) (s : random.State)
    : RegionTile.t * random.State :=
  if bool_decide (RegionTile.terrain_type tile = terrain.STONE) then
    let '(draw, s) := random.random s in
    if Qltb draw 0.5 then (set_region_terrain tile terrain.DIRT, s)
    else (tile, s)
  else if bool_decide (RegionTile.terrain_type tile = terrain.WATER)
          && Qgtb (RegionTile.elevation tile) 0.22 then
    let '(draw, s) := random.random s in
    if Qltb draw 0.3 then (set_region_terrain tile terrain.GRASS, s)
    else (tile, s)
  else (tile, s).

Fixpoint adjust_row (row : list RegionTile.t) (s : random.State)
    : list RegionTile.t * random.State :=
  match row with
  | [] => ([], s)
  | tile :: rest =>
      let '(tile, s) := adjust_tile tile s in
      let '(rest, s) := adjust_row rest s in
      (tile :: rest, s)
  end.

Fixpoint adjust_rows (rows : list (list RegionTile.t)) (s : random.State)
    : list (list RegionTile.t) * random.State :=
  match rows with
  | [] => ([], s)
  | row :: rest =>
      let '(row, s) := adjust_row row s in
      let '(rest, s) := adjust_rows rest s in
      (row :: rest, s)
  end.

Definition region_buildable (tile : RegionTile.t) : Prop :=
  RegionTile.terrain_type tile = terrain.GRASS
  \/ RegionTile.terrain_type tile = terrain.DIRT.

(** [_ensure_region_playability]: [region_tiles[0]] raises on a region
    without rows. *)
Definition _ensure_region_playability (region_tiles : list (list RegionTile.t))
    (s : random.State) : outcome (list (list RegionTile.t) * random.State) :=
  let buildable_count :=
    Z.of_nat (length (filter region_buildable (mjoin region_tiles))) in
  obind (py_index region_tiles 0) (fun row0 =>
    let total_tiles := Z.of_nat (length region_tiles) * Z.of_nat (length row0) in
    if Qltb (inject_Z buildable_count) (inject_Z total_tiles * 0.3)%Q
    then Returns (adjust_rows region_tiles s)
    else Returns (region_tiles, s)).

(** [generate_region_from_world_tile]. *)
Definition generate_region_from_world_tile (self : TieredWorldGenerator)
    (world_tile : WorldTile.t) (region_width region_height : Z)
    (s : random.State) : outcome (list (list RegionTile.t) * random.State) :=
  let biome_props := biomes.get_biome_properties (WorldTile.biome world_tile) in
  let offset_x := WorldTile.x world_tile * region_width in
  let offset_y := WorldTile.y world_tile * region_height in
  obind
    (for_each (range 0 region_height)
       (fun y '(region_tiles, s) =>
          obind
            (for_each (range 0 region_width)
               (fun x '(row, s) =>
                  let local_elevation :=
                    _generate_constrained_elevation self x y offset_x offset_y
                      (WorldTile.elevation world_tile) in
                  let local_moisture :=
                    _generate_constrained_moisture self x y offset_x offset_y
                      (WorldTile.rainfall world_tile) in
                  let '(terrain_type, s) :=
                    _get_terrain_from_biome biome_props local_elevation
                      local_moisture s in
                  let tile :=
                    RegionTile.mk x y local_elevation local_moisture
                      (WorldTile.biome world_tile) terrain_type in
                  Returns (row ++ [tile], s))
               ([], s))
            (fun '(row, s) => Returns (region_tiles ++ [row], s)))
       ([], s))
    (fun '(region_tiles, s) => _ensure_region_playability region_tiles s).

(** The four guarantees of the design document on a finished local map,
    as predicates on the grid. *)

(** No tile of the border ring is Water. *)
Definition border_dry (tiles : list (list terrain.Tile)) : Prop :=
  forall (j i : nat) (row : list terrain.Tile) (tile : terrain.Tile),
    tiles !! j = Some row -> row !! i = Some tile ->
    (j = 0%nat \/ S j = length tiles \/ i = 0%nat \/ S i = length row) ->
    terrain.terrain_type tile ≠ terrain.WATER.

(** Every tile of the 11 x 11 block around the centre satisfies [P]. *)
Definition center_block (P : terrain.TerrainType -> Prop)
    (tiles : list (list terrain.Tile)) : Prop :=
  forall (j i : nat) (row : list terrain.Tile) (tile : terrain.Tile),
    tiles !! j = Some row -> row !! i = Some tile ->
    grid_height tiles / 2 - 5 <= Z.of_nat j <= grid_height tiles / 2 + 5 ->
    grid_width tiles / 2 - 5 <= Z.of_nat i <= grid_width tiles / 2 + 5 ->
    P (terrain.terrain_type tile).

End world_generator_advanced.

(** ** Notions used to state the generator properties *)

Module gen_facts.

(** A pass may turn Water into land and Grass into Forest, never land
    into Water, and never leaves the Grass, Dirt and Forest family. *)
Definition settles (t t' : terrain.Tile) : Prop :=
  (terrain.terrain_type t ≠ terrain.WATER ->
   terrain.terrain_type t' ≠ terrain.WATER)
  /\ (terrain.terrain_type t ∈ [terrain.GRASS; terrain.DIRT; terrain.FOREST] ->
      terrain.terrain_type t' ∈ [terrain.GRASS; terrain.DIRT; terrain.FOREST]).

(** Two grids of the same shape whose tiles are related one by one. *)
Definition cellwise (tiles tiles' : list (list terrain.Tile)) : Prop :=
  Forall2 (Forall2 settles) tiles tiles'.

(** All rows have [w] tiles. *)
Definition rectangular (w : nat) (tiles : list (list terrain.Tile)) : Prop :=
  Forall (fun row => length row = w) tiles.

(** The tile at row [j] and column [i], if there is one, satisfies [P]. *)
Definition cell (P : terrain.TerrainType -> Prop)
    (tiles : list (list terrain.Tile)) (j i : nat) : Prop :=
  forall row tile, tiles !! j = Some row -> row !! i = Some tile ->
    P (terrain.terrain_type tile).

(** The same relation on the loop states that carry the generator
    along. *)
Definition cellwise_st (st st' : list (list terrain.Tile) * random.State) : Prop :=
  cellwise (fst st) (fst st').

Definition dry (t : terrain.TerrainType) : Prop := t ≠ terrain.WATER.

Definition green (t : terrain.TerrainType) : Prop :=
  t ∈ [terrain.GRASS; terrain.DIRT; terrain.FOREST].

(** Two grids of the same shape whose tiles are related one by one by a
    relation that knows the row [j] and the column [i] of the tile. *)
Definition gridwise (R : nat -> nat -> terrain.Tile -> terrain.Tile -> Prop)
    (tiles tiles' : list (list terrain.Tile)) : Prop :=
  length tiles' = length tiles
  /\ forall j row row',
       tiles !! j = Some row -> tiles' !! j = Some row' ->
       length row' = length row
       /\ forall i t t', row !! i = Some t -> row' !! i = Some t' -> R j i t t'.

(** The tile kept its coordinates and its resource. *)
Definition retyped (j i : nat) (t t' : terrain.Tile) : Prop :=
  terrain.x t' = terrain.x t /\ terrain.y t' = terrain.y t
  /\ terrain.resource t' = terrain.resource t.

(** The resource that [_place_resource_nodes] may put on a tile of
    terrain [t] at row [j] and column [i]. *)
Definition fits (j i : nat) (t : terrain.TerrainType) (r : resource.Resource)
    : Prop :=
  match t with
  | terrain.FOREST => r = resource.new resource.TREE (Z.of_nat i) (Z.of_nat j)
  | terrain.GRASS | terrain.DIRT =>
      r = resource.new resource.STONE (Z.of_nat i) (Z.of_nat j)
      \/ r = resource.new resource.BERRY_BUSH (Z.of_nat i) (Z.of_nat j)
  | _ => False
  end.

(** The tile is as it was, or was given a resource that fits it. *)
Definition stocked (j i : nat) (t t' : terrain.Tile) : Prop :=
  t' = t \/ exists r, t' = terrain.set_resource t r /\ fits j i (terrain.terrain_type t) r.

(** The tile of row [j] and column [i] of a finished local map: it
    carries its coordinates, a tree if it is Forest, and no resource that
    does not fit its terrain. *)
Definition finished (j i : nat) (t : terrain.Tile) : Prop :=
  terrain.x t = Z.of_nat i /\ terrain.y t = Z.of_nat j
  /\ (terrain.terrain_type t = terrain.FOREST ->
      terrain.resource t
      = Some (resource.new resource.TREE (Z.of_nat i) (Z.of_nat j)))
  /\ forall r, terrain.resource t = Some r -> fits j i (terrain.terrain_type t) r.

(** A tile as the first draft of the map and the fallback map make it. *)
Definition fresh (j i : nat) (t : terrain.Tile) : Prop :=
  terrain.x t = Z.of_nat i /\ terrain.y t = Z.of_nat j
  /\ terrain.resource t = None.

(** A grid of [h] rows of [w] tiles that all satisfy [P] at their
    position. *)
Definition grid_of (P : nat -> nat -> terrain.Tile -> Prop) (w h : nat)
    (tiles : list (list terrain.Tile)) : Prop :=
  length tiles = h
  /\ forall j row, tiles !! j = Some row ->
       length row = w /\ forall i t, row !! i = Some t -> P j i t.


(** [gridwise] on a loop state that carries the grid with the random
    generator. *)
Definition gridwise_st (R : nat -> nat -> terrain.Tile -> terrain.Tile -> Prop)
    (st st' : list (list terrain.Tile) * random.State) : Prop :=
  gridwise R (fst st) (fst st').

(** The tile of row [j] and column [i], if there is one, carries a tree
    when it is Forest. *)
Definition wooded (j i : nat) (tiles : list (list terrain.Tile)) : Prop :=
  forall row tile,
    tiles !! j = Some row -> row !! i = Some tile ->
    terrain.terrain_type tile = terrain.FOREST ->
    terrain.resource tile
    = Some (resource.new resource.TREE (Z.of_nat i) (Z.of_nat j)).


(** What [_ensure_region_playability] may do to a region tile: nothing,
    or Stone into Dirt, or Water above elevation 0.22 into Grass; the
    coordinates, the elevation, the moisture and the biome stay. *)
Definition adjusted (t t' : world_generator_advanced.RegionTile.t) : Prop :=
  world_generator_advanced.RegionTile.x t' = world_generator_advanced.RegionTile.x t
  /\ world_generator_advanced.RegionTile.y t' = world_generator_advanced.RegionTile.y t
  /\ world_generator_advanced.RegionTile.elevation t'
     = world_generator_advanced.RegionTile.elevation t
  /\ world_generator_advanced.RegionTile.moisture t'
     = world_generator_advanced.RegionTile.moisture t
  /\ world_generator_advanced.RegionTile.biome t'
     = world_generator_advanced.RegionTile.biome t
  /\ (world_generator_advanced.RegionTile.terrain_type t'
      = world_generator_advanced.RegionTile.terrain_type t
      \/ (world_generator_advanced.RegionTile.terrain_type t = terrain.STONE
          /\ world_generator_advanced.RegionTile.terrain_type t' = terrain.DIRT)
      \/ (world_generator_advanced.RegionTile.terrain_type t = terrain.WATER
          /\ world_generator_advanced.RegionTile.terrain_type t' = terrain.GRASS
          /\ (0.22 < world_generator_advanced.RegionTile.elevation t)%Q)).

(** The number of Grass and Dirt tiles of a region. *)
Definition buildable_count
    (region_tiles : list (list world_generator_advanced.RegionTile.t)) : nat :=
  length (filter world_generator_advanced.region_buildable (mjoin region_tiles)).


(** The terrain of the tile of row [j] and column [i], if there is one. *)
Definition terrain_in (tiles : list (list terrain.Tile)) (j i : nat)
    : option terrain.TerrainType :=
  match tiles !! j with
  | Some row => terrain.terrain_type <$> row !! i
  | None => None
  end.

(** A Water tile whose four neighbours exist and are not Water. *)
Definition puddle (tiles : list (list terrain.Tile)) (j i : nat) : Prop :=
  terrain_in tiles j i = Some terrain.WATER
  /\ (0 < j)%nat /\ (0 < i)%nat
  /\ Forall (fun n => exists t, n = Some t /\ t ≠ terrain.WATER)
       [terrain_in tiles (j - 1) i; terrain_in tiles (j + 1) i;
        terrain_in tiles j (i - 1); terrain_in tiles j (i + 1)].

(** The tile is as it was, or is a puddle of the grid [tiles] turned
    into Grass. *)
Definition smoothed (tiles : list (list terrain.Tile)) (j i : nat)
    (t t' : terrain.Tile) : Prop :=
  t' = t
  \/ (puddle tiles j i /\ t' = terrain.set_terrain_type t terrain.GRASS).

(** If the tile of row [j] and column [i] of [tiles] is a puddle, the
    tile at that place in [g] is Grass. *)
Definition drained (tiles g : list (list terrain.Tile)) (j i : nat) : Prop :=
  puddle tiles j i -> terrain_in g j i = Some terrain.GRASS.


End gen_facts.

(** * Concrete situations used to evaluate the code *)

Module scenario.

Definition grass_grid (w h : Z) : list (list terrain.Tile) :=
  map (fun py => map (fun px => terrain.new px py terrain.GRASS) (range 0 w))
    (range 0 h).

(** The wagon as [_spawn_starting_wagon] leaves it. *)
Definition wagon : building.Building :=
  building.set_is_active
    (building.set_state (building.new 1 building.WAGON 10 10) building.COMPLETE)
    true.

(** A house as [place_building] leaves it. *)
Definition house : building.Building := building.new 2 building.HOUSE 2 2.

Definition settler : citizen.Citizen :=
  citizen.new 1 "Aelric Ashwood" 15 15 5 5 5.

(** The stockpile of a new game. *)
Definition stockpile : gmap string Z :=
  {[ "wood" := 100; "stone" := 50; "food" := 100 ]}.

(** A new game with one settler, the wagon and one planned house. *)
Definition hauling_game : game_state.GameState :=
  game_state.mkGameState [settler]
    (job_manager.mkWorld [wagon; house] stockpile [] ∅)
    (grass_grid 20 20) 0 false 1.

Definition run (n : nat) (g : game_state.GameState) : outcome game_state.GameState :=
  game_state.frames pathfinding.approx_sqrt pathfinding.push_back
    pathfinding.pop_min n g (1 / 60).

(** A house whose materials have all been delivered, and a settler sent
    to build it. *)
Definition house_ready : building.Building :=
  building.deliver_material (building.deliver_material house "wood" 20) "stone" 10.

Definition builder : citizen.Citizen :=
  citizen.assign_task settler (citizen.BuildingRef 1) citizen.CONSTRUCTION.

Definition building_site : job_manager.World :=
  job_manager.mkWorld [wagon; house_ready] stockpile [] ∅.

(** A stockpile filled to the 500 units of the wagon, with a tree on
    the tile of the wagon's centre, and a gatherer sent to that tree who
    stands there with empty hands. *)
Definition full_world : job_manager.World :=
  job_manager.mkWorld [wagon] {[ "wood" := 400; "stone" := 100 ]}
    [resource.new resource.TREE 11 11] ∅.

Definition gatherer : citizen.Citizen :=
  citizen.assign_task (citizen.new 2 "Bran Blackthorn" 11 11 5 5 5)
    (citizen.ResourceRef 0) citizen.GATHERING.

(** A well in the middle of the top row of a 3 x 2 meadow. *)
Definition well : building.Building := building.new 3 building.WELL 1 0.

(** A strip of three tiles, the last of them Water. *)
Definition pond : list (list terrain.Tile) :=
  [[terrain.new 0 0 terrain.GRASS; terrain.new 1 0 terrain.GRASS;
    terrain.new 2 0 terrain.WATER]].

Definition astar (start_x start_y goal_x goal_y : Z)
    (tiles : list (list terrain.Tile)) (buildings : list building.Building)
    : outcome (option (list (Z * Z))) :=
  pathfinding.find_path pathfinding.approx_sqrt pathfinding.push_back
    pathfinding.pop_min start_x start_y goal_x goal_y tiles buildings 1000.

(** A region of a single temperate-forest tile of middling elevation and
    moisture, flat noise, and a generator whose first draws put a forest
    seed on the centre of a 13 x 13 local map. *)
Definition flat_noise (seed : Z) (x y : Q) : Q := 0.

Definition forest_region : list (list world_generator_advanced.RegionTile.t) :=
  [[world_generator_advanced.RegionTile.mk 0 0 0.5 0.5 biomes.TEMPERATE_FOREST
      terrain.GRASS]].

Definition forest_draws : random.State :=
  random.mkState (random.supply_of [6; 6; 0] (2 ^ 52)) 0.

Definition local_map
    : outcome (list (list terrain.Tile) * random.State) :=
  world_generator_advanced.generate_local_map remove_dups
    pathfinding.approx_sqrt
    (world_generator_advanced.mkGenerator 12345 (flat_noise 12345)
       (flat_noise 12346) (flat_noise 12347) (flat_noise 12348))
    forest_region 0 0 3 3 13 13 forest_draws.

(** Two designated trees. *)
Definition grove : list resource.Resource :=
  [resource.set_designated (resource.new resource.TREE 3 3) true;
   resource.set_designated (resource.new resource.TREE 4 4) true].


(** A settler sent to haul material to the planned house, and the world
    of a new game with that house. *)
Definition hauler : citizen.Citizen :=
  citizen.assign_task settler (citizen.BuildingRef 1) citizen.HAULING.

Definition depot : job_manager.World :=
  job_manager.mkWorld [wagon; house] stockpile [] ∅.

(** The game of [building_site] after a save and a load: the builder
    comes back without its task. *)
Definition loaded_game : game_state.GameState :=
  game_state.mkGameState
    (map (fun c => citizen.from_dict (citizen.to_dict c)) [builder])
    building_site (grass_grid 20 20) 0 false 1.


(** A meadow of 3 x 3 tiles with one Water tile in the middle. *)
Definition pool : list (list terrain.Tile) :=
  [[terrain.new 0 0 terrain.GRASS; terrain.new 1 0 terrain.GRASS;
    terrain.new 2 0 terrain.GRASS];
   [terrain.new 0 1 terrain.GRASS; terrain.new 1 1 terrain.WATER;
    terrain.new 2 1 terrain.GRASS];
   [terrain.new 0 2 terrain.GRASS; terrain.new 1 2 terrain.GRASS;
    terrain.new 2 2 terrain.GRASS]].


End scenario.

(** ** Notions used to state the pathfinding properties *)

Module path_facts.

(** A cell that the neighbour loop accepted: in bounds, not an obstacle,
    and not Water. *)
Definition accepted (tiles : list (list terrain.Tile))
    (obstacles : gset (Z * Z)) (width height : Z) (p : Z * Z) : Prop :=
  let '(px, py) := p in
  (0 <= px < width /\ 0 <= py < height)
  /\ ((px, py) ∉ obstacles)
  /\ exists tile, terrain.tile_at tiles py px = Returns tile
                  /\ terrain.terrain_type tile ≠ terrain.WATER.

(** A node whose chain of parents ends in the start node and consists of
    accepted cells otherwise. *)
Fixpoint from_start (tiles : list (list terrain.Tile))
    (obstacles : gset (Z * Z)) (width height start_x start_y : Z)
    (n : pathfinding.Node) : Prop :=
  match n with
  | pathfinding.mkNode _ _ _ px py p =>
      match p with
      | None => (px, py) = (start_x, start_y)
      | Some q =>
          accepted tiles obstacles width height (px, py)
          /\ from_start tiles obstacles width height start_x start_y q
      end
  end.

(** Two cells one step apart in one of the eight directions. *)
Definition adjacent (p q : Z * Z) : Prop :=
  (fst q - fst p, snd q - snd p) ∈ pathfinding.directions.

(** Every node of the chain of parents is one step from its parent. *)
Fixpoint linked (n : pathfinding.Node) : Prop :=
  match n with
  | pathfinding.mkNode _ _ _ px py p =>
      match p with
      | None => True
      | Some q => adjacent (pathfinding.x q, pathfinding.y q) (px, py) /\ linked q
      end
  end.

(** Every waypoint of a path is one step from the one before. *)
Fixpoint stepwise (path : list (Z * Z)) : Prop :=
  match path with
  | p :: rest =>
      match rest with
      | q :: _ => adjacent p q /\ stepwise rest
      | [] => True
      end
  | [] => True
  end.

End path_facts.

(** ** Notions used to state the job-manager properties *)

Module job_facts.

(** The work added by one construction step of citizen [c]. *)
Definition work_done (c : citizen.Citizen) (delta_time : Q) : Q :=
  (10.0 * (1.0 + inject_Z (citizen.construction_skill c) / 20.0) * delta_time)%Q.

(** Construction ordering between the state [b] of a building before a
    step and its state [b'] after it: the building leaves Planned only
    with all its materials, and becomes Complete only when the progress
    accumulated with this step's work reaches the required work. *)
Definition ordered_step (work : Q) (b b' : building.Building) : Prop :=
  (building.state b = building.PLANNED ->
   building.state b' ≠ building.PLANNED ->
   building.has_all_materials b = true)
  /\ (building.state b ≠ building.COMPLETE ->
      building.state b' = building.COMPLETE ->
      (building.construction_work (building.get_definition b)
         <= building.construction_progress b + work)%Q
      /\ building.construction_progress b'
         = building.construction_work (building.get_definition b)).

(** A sequence of [_update_gathering] steps (each of which sends a
    citizen on its way, lets it gather, or attempts a deposit) by the
    citizens of a band on the shared world, with the capacity check that
    the game state passes to the job manager. The step of the citizen at
    position [k] replaces that citizen, as the source updates the object
    in place. *)
Inductive deposit_run (fsqrt : Q -> Q)
    (heappush : list pathfinding.Node -> pathfinding.Node -> list pathfinding.Node)
    (heappop : pathfinding.Node -> list pathfinding.Node
               -> pathfinding.Node * list pathfinding.Node)
    : list citizen.Citizen * job_manager.World
      -> list citizen.Citizen * job_manager.World -> Prop :=
  | run_done st : deposit_run fsqrt heappush heappop st st
  | run_step cs w k c c1 w1 st delta_time tiles :
      cs !! k = Some c ->
      job_manager._update_gathering fsqrt heappush heappop
        (Some game_state.can_add_resources) c w delta_time tiles
        = Returns (c1, w1) ->
      deposit_run fsqrt heappush heappop (<[k := c1]> cs, w1) st ->
      deposit_run fsqrt heappush heappop (cs, w) st.

(** Empty hands, as [Citizen.__init__] leaves them. *)
Definition empty_handed (c : citizen.Citizen) : Prop :=
  citizen.carrying_resource c = None /\ citizen.carrying_amount c = 0.

(** The [_update_gathering] step of [c] in [w] attempts a deposit: [c] is
    on a gathering task, has something in its hands and, once
    [_move_citizen_to] has sent it to the stockpile, has reached it. *)
Definition deposit_attempt (fsqrt : Q -> Q)
    (heappush : list pathfinding.Node -> pathfinding.Node -> list pathfinding.Node)
    (heappop : pathfinding.Node -> list pathfinding.Node
               -> pathfinding.Node * list pathfinding.Node)
    (c : citizen.Citizen) (w : job_manager.World)
    (tiles : list (list terrain.Tile)) : Prop :=
  exists i node carried c0,
    citizen.current_task c = Some (citizen.ResourceRef i)
    /\ job_manager.resource_nodes w !! i = Some node
    /\ citizen.carrying_resource c = Some carried
    /\ job_manager._move_citizen_to fsqrt heappush heappop c
         (fst (job_manager._get_stockpile_location (job_manager.buildings w)))
         (snd (job_manager._get_stockpile_location (job_manager.buildings w)))
         tiles (job_manager.buildings w)
       = Returns c0
    /\ job_manager.has_reached_target fsqrt c0 = true.

Definition stockpile_total (w : job_manager.World) : Z :=
  game_state.get_current_storage_used (job_manager.resources w).

Definition capacity (w : job_manager.World) : Z :=
  game_state.get_total_storage_capacity (job_manager.buildings w).

(** A node that [_find_gathering_task] may hand out: designated, not
    depleted and not being gathered. *)
Definition available (node : resource.Resource) : Prop :=
  resource.designated node = true
  /\ resource.is_depleted node = false
  /\ resource.currently_being_gathered node = false.

(** Positions at which the squared distances of the task finders are
    computed without rounding: whole numbers of at most 25 bits (their
    differences have at most 26 bits, the squares at most 52 and the sum
    at most 53, which a float holds exactly). *)
Definition whole (v : Q) : Prop :=
  exists n : Z, v = inject_Z n /\ Z.abs n <= 2 ^ 25.

Definition on_tile (c : citizen.Citizen) : Prop :=
  whole (citizen.x c) /\ whole (citizen.y c).

Definition node_in_range (node : resource.Resource) : Prop :=
  Z.abs (resource.x node) <= 2 ^ 25 /\ Z.abs (resource.y node) <= 2 ^ 25.


(** The squared distance that the task finders minimise. *)
Definition node_distance (c : citizen.Citizen) (node : resource.Resource) : Q :=
  ((citizen.x c - inject_Z (resource.x node)) ^ 2
   + (citizen.y c - inject_Z (resource.y node)) ^ 2)%Q.




(** A building that [_find_material_hauling_task] may hand out: planned,
    and short of a material that the stockpile holds. *)
Definition haulable (resources : gmap string Z) (b : building.Building) : Prop :=
  building.state b = building.PLANNED
  /\ exists resource_type needed_amount,
       (resource_type, needed_amount) ∈ building.get_required_materials b
       /\ 0 < dict_get resources resource_type.


(** The units of [kind] that a citizen carries. *)
Definition cargo (c : citizen.Citizen) (kind : string) : Z :=
  match citizen.carrying_resource c with
  | Some carried =>
      if String.eqb carried kind then citizen.carrying_amount c else 0
  | None => 0
  end.

(** The units of [kind] delivered to the buildings of a list. *)
Definition delivered (bs : list building.Building) (kind : string) : Z :=
  foldr (fun b acc => dict_get (building.materials_delivered b) kind + acc) 0 bs.

(** The units of [kind] in the stockpile, in the hands of citizen [c]
    and in the buildings. *)
Definition material (c : citizen.Citizen) (w : job_manager.World)
    (kind : string) : Z :=
  dict_get (job_manager.resources w) kind + cargo c kind
  + delivered (job_manager.buildings w) kind.


(** The order of the construction states. *)
Definition state_rank (s : building.BuildingState) : Z :=
  match s with
  | building.PLANNED => 0
  | building.UNDER_CONSTRUCTION => 1
  | building.COMPLETE => 2
  end.

(** [b'] is the building [b] at a later moment: the same id, type and
    position, in the same or a later construction state. *)
Definition advances (b b' : building.Building) : Prop :=
  building.id b' = building.id b
  /\ building.building_type b' = building.building_type b
  /\ building.x b' = building.x b /\ building.y b' = building.y b
  /\ state_rank (building.state b) <= state_rank (building.state b').

(** [c'] is the citizen [c] at a later moment: the same id, name,
    skills, permissions and speed. *)
Definition same_person (c c' : citizen.Citizen) : Prop :=
  citizen.id c' = citizen.id c /\ citizen.name c' = citizen.name c
  /\ citizen.construction_skill c' = citizen.construction_skill c
  /\ citizen.gathering_skill c' = citizen.gathering_skill c
  /\ citizen.hauling_skill c' = citizen.hauling_skill c
  /\ citizen.can_construct c' = citizen.can_construct c
  /\ citizen.can_gather c' = citizen.can_gather c
  /\ citizen.can_haul c' = citizen.can_haul c
  /\ citizen.move_speed c' = citizen.move_speed c.

(** A citizen that is not idle and has no task. *)
Definition stalled (c : citizen.Citizen) : Prop :=
  citizen.state c ≠ citizen.IDLE /\ citizen.current_task c = None.


End job_facts.

(** ** Notions used to state the biome properties *)

Module biome_facts.
Import PrimFloat SpecFloat.

(** The float that the Python reader makes of a decimal constant: the
    binary64 value nearest to it, here the quotient, rounded once, of a
    numerator and a denominator that binary64 holds exactly. *)
Definition literal (q : Q) : float :=
  let n := of_uint63 (Uint63.of_Z (Z.abs (Qnum q))) in
  let d := of_uint63 (Uint63.of_Z (Z.pos (Qden q))) in
  if (Qnum q <? 0)%Z then (- (n / d))%float else (n / d)%float.

Definition rounded (p : biomes.BiomeProperties) : biomes64.BiomeProperties :=
  biomes64.mkBiome (biomes.name p)
    (literal (biomes.min_temperature p)) (literal (biomes.max_temperature p))
    (literal (biomes.min_rainfall p)) (literal (biomes.max_rainfall p))
    (literal (biomes.tree_density p)) (literal (biomes.rock_density p))
    (literal (biomes.fertility p)).




(** The place of a binary64 value on the number line: its class (minus
    infinity, the negative numbers, zero, the positive numbers, plus
    infinity), then its exponent, then its mantissa. NaN has none. *)
Definition key (f : spec_float) : option (Z * Z * Z) :=
  match f with
  | S754_nan => None
  | S754_zero _ => Some (0, 0, 0)
  | S754_infinity true => Some (-2, 0, 0)
  | S754_infinity false => Some (2, 0, 0)
  | S754_finite true m e => Some (-1, - e, - Z.pos m)
  | S754_finite false m e => Some (1, e, Z.pos m)
  end.

Definition fkey (x : float) : option (Z * Z * Z) := key (FloatOps.Prim2SF x).

Definition lex_lt (a b : Z * Z * Z) : Prop :=
  let '(a1, a2, a3) := a in
  let '(b1, b2, b3) := b in
  a1 < b1 \/ (a1 = b1 /\ (a2 < b2 \/ (a2 = b2 /\ a3 < b3))).

Definition lex_eq (a b : Z * Z * Z) : Prop :=
  let '(a1, a2, a3) := a in
  let '(b1, b2, b3) := b in
  a1 = b1 /\ a2 = b2 /\ a3 = b3.

(** [a] lies below [b], strictly or not; NaN lies below nothing and
    nothing lies below it. *)
Definition below (strict : bool) (a b : option (Z * Z * Z)) : Prop :=
  match a, b with
  | Some a, Some b => lex_lt a b \/ (strict = false /\ lex_eq a b)
  | _, _ => False
  end.

End biome_facts.

(** ** Notions used to state the placement properties *)

Module placement_facts.

(** The tile [(px, py)] lies on the footprint of a building of type
    [building_type] whose top-left corner is [(tile_x, tile_y)]. *)
Definition on_footprint (building_type : building.BuildingType)
    (tile_x tile_y px py : Z) : Prop :=
  let definition := building.BUILDING_DEFINITIONS building_type in
  tile_x <= px < tile_x + building.width definition
  /\ tile_y <= py < tile_y + building.height definition.

(** No tile is occupied by two buildings of the list, and every id is
    below the next id to be given out. *)
Definition well_placed (buildings : list building.Building)
    (next_building_id : Z) : Prop :=
  (forall i j b1 b2 px py,
     buildings !! i = Some b1 -> buildings !! j = Some b2 ->
     building.occupies_tile b1 px py = true ->
     building.occupies_tile b2 px py = true -> i = j)
  /\ Forall (fun b => building.id b < next_building_id) buildings.

End placement_facts.

(* ================================================================== *)
(** * Properties *)
(* ================================================================== *)

Section ResourceFacts.
Import resource.

Lemma gather_depleted (r : Resource) :
  is_depleted r = true -> gather r = ((None, 0), r).
Proof.
  intros H. unfold gather. rewrite H. simpl.
  destruct r; simpl in *; subst; reflexivity.
Qed.

Lemma gather_amount_le (r : Resource) :
  0 <= provides_amount r -> amount_remaining (snd (gather r)) <= amount_remaining r.
Proof.
  intros Hp. unfold gather.
  destruct (is_depleted r || (amount_remaining r <=? 0)) eqn:E; simpl; [lia|].
  apply orb_false_elim in E as [_ E]. apply Z.leb_gt in E.
  destruct (amount_remaining r - _ <=? 0); simpl; lia.
Qed.

Lemma gather_sets_depleted (r : Resource) :
  amount_remaining (snd (gather r)) <= 0 -> is_depleted (snd (gather r)) = true.
Proof.
  unfold gather.
  destruct (is_depleted r || (amount_remaining r <=? 0)) eqn:E; simpl; [done|].
  destruct (amount_remaining r - _ <=? 0) eqn:E2; simpl; [done|].
  apply Z.leb_gt in E2. lia.
Qed.

Lemma gather_keeps_provides (r : Resource) :
  provides_amount (snd (gather r)) = provides_amount r.
Proof.
  unfold gather. destruct (_ || _); simpl; [done|].
  by destruct (amount_remaining r - _ <=? 0).
Qed.

(** Invariant of every node state: the yield per harvest is positive, and
    an exhausted node carries the depletion flag. *)
Lemma node_state_inv (r : Resource) :
  node_state r ->
  0 < provides_amount r /\ (amount_remaining r <= 0 -> is_depleted r = true).
Proof.
  induction 1 as [ty px py | r _ [IHp IHd] | r c _ IH | r _ IH | r b _ IH
                 | r _ [IHp IHd]]; simpl; try exact IH.
  - destruct ty; simpl; split; lia.
  - rewrite gather_keeps_provides. split; [done|]. apply gather_sets_depleted.
  - split; [done|]. destruct r as [[] ? ? ? ? ? ? ? ? ? ? ?]; simpl in *; lia.
Qed.

Lemma gather_n_depleted (n : nat) (r : Resource) :
  is_depleted r = true -> gather_n n r = r.
Proof.
  induction n as [|n IH]; intros H; simpl; [done|].
  rewrite gather_depleted by done. simpl. by apply IH.
Qed.

Lemma gather_n_S (n : nat) (r : Resource) :
  gather_n (S n) r = snd (gather (gather_n n r)).
Proof.
  revert r. induction n as [|n IH]; intros r; [done|].
  change (gather_n (S (S n)) r) with (gather_n (S n) (snd (gather r))).
  by rewrite IH.
Qed.

Lemma gather_n_add (n m : nat) (r : Resource) :
  gather_n (n + m) r = gather_n m (gather_n n r).
Proof. revert r. induction n as [|n IH]; intros r; simpl; [done|]. apply IH. Qed.

Lemma node_state_gather_n (n : nat) (r : Resource) :
  node_state r -> node_state (gather_n n r).
Proof.
  revert r. induction n as [|n IH]; intros r H; simpl; [done|].
  apply IH. by constructor.
Qed.

(** C5. Resource monotonicity: on every node, each further [gather()] call
    leaves [amount_remaining] no larger than before; and once a call has
    brought [amount_remaining] to a value [<= 0], the node is depleted
    after every later call and each later [gather()] returns [(None, 0)]. *)
Theorem C5_gather_monotone (r : Resource) (n : nat) :
  node_state r ->
  amount_remaining (gather_n (S n) r) <= amount_remaining (gather_n n r)
  /\ (amount_remaining (gather_n n r) <= 0 ->
      forall m, (n <= m)%nat ->
        is_depleted (gather_n m r) = true
        /\ fst (gather (gather_n m r)) = (None, 0)
        /\ amount_remaining (gather_n m r) = amount_remaining (gather_n n r)).
Proof.
  intros Hr.
  pose proof (node_state_gather_n n r Hr) as Hn.
  destruct (node_state_inv _ Hn) as [Hp Hd].
  split.
  - rewrite gather_n_S. apply gather_amount_le. lia.
  - intros Hle m Hm. specialize (Hd Hle).
    replace m with (n + (m - n))%nat by lia.
    rewrite gather_n_add, gather_n_depleted by done.
    rewrite gather_depleted by done. done.
Qed.

Lemma C5_gather_monotone_witness :
  node_state (new TREE 2 3)
  /\ amount_remaining (gather_n 1 (new TREE 2 3)) <= 0
  /\ is_depleted (gather_n 5 (new TREE 2 3)) = true
  /\ fst (gather (gather_n 5 (new TREE 2 3))) = (None, 0).
Proof.
  assert (Hs : node_state (new TREE 2 3)) by constructor.
  split; [exact Hs|]. split; [vm_compute; discriminate|].
  destruct (C5_gather_monotone (new TREE 2 3) 1 Hs) as [_ H].
  destruct (H ltac:(vm_compute; discriminate) 5%nat ltac:(lia)) as (H1 & H2 & _).
  split; [exact H1 | exact H2].
Defined.

(** C9. A freshly built Tree node holds 4 units and yields 4 per harvest;
    one [gather()] returns [("wood", 4)] and leaves the node depleted with
    nothing remaining. *)
Theorem C9_tree_single_harvest (px py : Z) :
  amount_remaining (new TREE px py) = 4
  /\ provides_amount (new TREE px py) = 4
  /\ fst (gather (new TREE px py)) = (Some "wood", 4)
  /\ is_depleted (snd (gather (new TREE px py))) = true
  /\ amount_remaining (snd (gather (new TREE px py))) = 0.
Proof. repeat split. Qed.

End ResourceFacts.

Section BuildingFacts.
Import building.

Lemma dict_get_insert_eq (d : gmap string Z) (k : string) (v : Z) :
  dict_get (<[k := v]> d) k = v.
Proof. unfold dict_get. by rewrite lookup_insert_eq. Qed.

Lemma dict_get_insert_ne (d : gmap string Z) (k k' : string) (v : Z) :
  k ≠ k' -> dict_get (<[k := v]> d) k' = dict_get d k'.
Proof. intros H. unfold dict_get. by rewrite lookup_insert_ne. Qed.

(** [get_required_materials] reads [materials_delivered] only at the
    required kinds. *)
Lemma needed_of_ext (m1 m2 : gmap string Z) (req : list (string * Z)) :
  (forall k a, (k, a) ∈ req -> dict_get m1 k = dict_get m2 k) ->
  needed_of m1 req = needed_of m2 req.
Proof.
  induction req as [|[k a] req IH]; intros H; simpl; [done|].
  rewrite (H k a) by left.
  rewrite IH; [done|]. intros k' a' Hin. apply (H k' a'). by right.
Qed.

(** Raising a delivered amount that already meets its requirement changes
    nothing in the report. *)
Lemma needed_of_excess (m : gmap string Z) (req : list (string * Z))
    (k : string) (v : Z) :
  (forall a, (k, a) ∈ req -> a <= dict_get m k) -> dict_get m k <= v ->
  needed_of (<[k := v]> m) req = needed_of m req.
Proof.
  induction req as [|[k' a'] req IH]; intros H Hv; simpl; [done|].
  rewrite IH by (try done; intros a Hin; apply H; by right).
  destruct (decide (k = k')) as [->|Hne].
  - rewrite dict_get_insert_eq.
    pose proof (H a' ltac:(left)) as Ha.
    destruct (Z.ltb_spec v a'), (Z.ltb_spec (dict_get m k') a'); try lia; done.
  - by rewrite dict_get_insert_ne.
Qed.

(** C10. [deliver_material] adds the amount to the delivered count of the
    given kind whatever the requirement is (other kinds are untouched), so
    that a delivered count can be pushed above the required amount and a
    kind that the building does not require can be recorded;
    [get_required_materials] and [has_all_materials] do not see a delivery
    of a kind that is not required, nor a delivery on top of a requirement
    that is already met. *)
Theorem C10_deliver_material_unbounded (b : Building) (k : string) (a : Z) :
  let req := required_resources (get_definition b) in
  dict_get (materials_delivered (deliver_material b k a)) k
    = dict_get (materials_delivered b) k + a
  /\ (forall k', k' ≠ k ->
        materials_delivered (deliver_material b k a) !! k'
          = materials_delivered b !! k')
  /\ (forall r, (k, r) ∈ req ->
        exists a', r < dict_get (materials_delivered (deliver_material b k a')) k)
  /\ (k ∉ req.*1 ->
        is_Some (materials_delivered (deliver_material b k a) !! k)
        /\ get_required_materials (deliver_material b k a)
             = get_required_materials b
        /\ has_all_materials (deliver_material b k a) = has_all_materials b)
  /\ ((forall r, (k, r) ∈ req -> r <= dict_get (materials_delivered b) k) ->
      0 <= a ->
        get_required_materials (deliver_material b k a)
          = get_required_materials b
        /\ has_all_materials (deliver_material b k a) = has_all_materials b).
Proof.
  intros req. unfold deliver_material. simpl.
  split; [apply dict_get_insert_eq|].
  split; [intros k' Hne; by rewrite lookup_insert_ne|].
  split.
  { intros r _. exists (r + 1 - dict_get (materials_delivered b) k).
    simpl. rewrite dict_get_insert_eq. lia. }
  split.
  - intros Hk. split; [rewrite lookup_insert_eq; eauto|].
    assert (E : get_required_materials
                  (set_materials_delivered b
                     (<[k := dict_get (materials_delivered b) k + a]>
                        (materials_delivered b)))
                = get_required_materials b).
    { unfold get_required_materials, get_definition. simpl.
      apply needed_of_ext. intros k' a' Hin.
      apply dict_get_insert_ne. intros ->. apply Hk.
      apply list_elem_of_fmap. by exists (k', a'). }
    split; [exact E|]. unfold has_all_materials. by rewrite E.
  - intros Hmet Ha.
    assert (E : get_required_materials
                  (set_materials_delivered b
                     (<[k := dict_get (materials_delivered b) k + a]>
                        (materials_delivered b)))
                = get_required_materials b).
    { unfold get_required_materials, get_definition. simpl.
      apply needed_of_excess; [exact Hmet | lia]. }
    split; [exact E|]. unfold has_all_materials. by rewrite E.
Qed.

Lemma C10_deliver_material_unbounded_witness :
  let b := deliver_material (new 1 HOUSE 0 0) "wood" 20 in
  dict_get (materials_delivered (deliver_material b "wood" 5)) "wood" = 25
  /\ get_required_materials (deliver_material b "wood" 5) = [("stone", 10)]
  /\ get_required_materials (deliver_material b "iron" 3) = [("stone", 10)]
  /\ is_Some (materials_delivered (deliver_material b "iron" 3) !! "iron").
Proof.
  intros b.
  destruct (C10_deliver_material_unbounded b "wood" 5) as (H1 & _ & _ & _ & H5).
  destruct (C10_deliver_material_unbounded b "iron" 3) as (_ & _ & _ & H4 & _).
  split; [rewrite H1; vm_compute; reflexivity|].
  split.
  - destruct H5 as [E _]; [|lia|rewrite E; vm_compute; reflexivity].
    intros r Hr. vm_compute in Hr |- *.
    apply list_elem_of_In in Hr. simpl in Hr.
    destruct Hr as [Hr|[Hr|[]]]; inversion Hr; subst; discriminate.
  - destruct H4 as (Hs & E & _).
    + intros Hin. apply list_elem_of_In in Hin. vm_compute in Hin.
      destruct Hin as [Hin|[Hin|[]]]; discriminate.
    + split; [rewrite E; vm_compute; reflexivity | exact Hs].
Defined.

End BuildingFacts.

Section BiomeFacts.
Import biomes.

Lemma Qltb_lt (a b : Q) : Qltb a b = true <-> (a < b)%Q.
Proof.
  unfold Qltb. rewrite negb_true_iff, <- not_true_iff_false, Qle_bool_iff.
  split; [apply Qnot_le_lt | apply Qlt_not_le].
Qed.

Lemma Qltb_ge (a b : Q) : Qltb a b = false <-> (b <= a)%Q.
Proof. unfold Qltb. rewrite negb_false_iff. apply Qle_bool_iff. Qed.

End BiomeFacts.

Section ClassificationFacts.
Import PrimFloat SpecFloat biomes64 biome_facts.
#[local] Open Scope float_scope.

(** The table on binary64 is the table on rationals, every constant
    rounded to the nearest float. *)
Lemma table_rounded :
  BIOME_DEFINITIONS = (fun bp => (fst bp, rounded (snd bp))) <$> biomes.BIOME_DEFINITIONS.
Proof. vm_compute. reflexivity. Qed.

(** The comparison of two floats is the comparison of their places. *)
Lemma SFcompare_key (x y : spec_float) :
  match SFcompare x y with
  | Some Lt => below true (key x) (key y)
  | Some Eq => exists a b, key x = Some a /\ key y = Some b /\ lex_eq a b
  | Some Gt => below true (key y) (key x)
  | None => key x = None \/ key y = None
  end.
Proof.
  destruct x as [s1|s1| |s1 m1 e1], y as [s2|s2| |s2 m2 e2];
    try destruct s1; try destruct s2; simpl; try lia; try (by left); try (by right);
    try (by eexists _, _; split; [done|split; [done|]]; simpl; lia).
  - change (PosDef.Pos.compare_cont Eq m1 m2) with (Pos.compare m1 m2).
    destruct (Z.compare_spec e1 e2), (Pos.compare_spec m1 m2); simpl; try lia.
    eexists _, _; split; [done|split; [done|]]; simpl; lia.
  - change (PosDef.Pos.compare_cont Eq m1 m2) with (Pos.compare m1 m2).
    destruct (Z.compare_spec e1 e2), (Pos.compare_spec m1 m2); simpl; try lia.
    eexists _, _; split; [done|split; [done|]]; simpl; lia.
Qed.

Lemma ltb_below (x y : float) : (x <? y) = true <-> below true (fkey x) (fkey y).
Proof.
  rewrite FloatAxioms.ltb_spec. unfold SFltb, fkey.
  pose proof (SFcompare_key (FloatOps.Prim2SF x) (FloatOps.Prim2SF y)) as H.
  destruct (key (FloatOps.Prim2SF x)) as [[[a1 a2] a3]|],
           (key (FloatOps.Prim2SF y)) as [[[b1 b2] b3]|];
    destruct (SFcompare _ _) as [[]|]; simpl in H |- *.
  all: try (destruct H as (a & b & [= <-] & [= <-] & H); simpl in H).
  all: try (destruct H as (a & b & H1 & H2 & H)).
  all: try (destruct H as [H|H]).
  all: try discriminate.
  all: try (split; [done|]; lia).
  all: try (split; [|done]; intros _; lia).
  all: try (exfalso; lia).
  all: try tauto.
Qed.



(** The order facts used by the scoring loop. *)
Lemma ltb_irrefl (x : float) : (x <? x) = false.
Proof.
  apply not_true_iff_false. rewrite ltb_below.
  destruct (fkey x) as [[[a1 a2] a3]|]; simpl; lia.
Qed.










End ClassificationFacts.

Section PathfindingFacts.
Import pathfinding.

Lemma elem_of_range (z a b : Z) : z ∈ range a b <-> a <= z < b.
Proof. unfold range. rewrite elem_of_seqZ. lia. Qed.

Lemma elem_of_footprint_cells (w h : Z) (b : building.Building) (px py : Z) :
  (px, py) ∈ footprint_cells w h b
  <-> (0 <= px < w /\ 0 <= py < h) /\ building.occupies_tile b px py = true.
Proof.
  unfold footprint_cells, building.occupies_tile.
  rewrite list_elem_of_bind. setoid_rewrite list_elem_of_bind.
  setoid_rewrite elem_of_range.
  split.
  - intros (by_ & (bx & Hin & Hx) & Hy).
    destruct ((0 <=? bx) && (bx <? w) && (0 <=? by_) && (by_ <? h)) eqn:E;
      [|by apply elem_of_nil in Hin].
    apply list_elem_of_singleton in Hin. inversion Hin; subst. lia.
  - intros [Hb Ho]. exists py. split; [|lia]. exists px. split; [|lia].
    replace ((0 <=? px) && (px <? w) && (0 <=? py) && (py <? h)) with true by lia.
    by apply list_elem_of_singleton.
Qed.

Lemma elem_of_obstacle_fold (w h : Z) (bs : list building.Building)
    (acc : gset (Z * Z)) (p : Z * Z) :
  p ∈ fold_left (fun acc b => acc ∪ list_to_set (footprint_cells w h b)) bs acc
  <-> p ∈ acc \/ exists b, b ∈ bs /\ p ∈ footprint_cells w h b.
Proof.
  revert acc. induction bs as [|b bs IH]; intros acc; simpl.
  - split; [by left|]. intros [H|(b & Hb & _)]; [done|by apply elem_of_nil in Hb].
  - rewrite IH, elem_of_union, elem_of_list_to_set. split.
    + intros [[H|H]|(b' & Hb' & H)]; [by left| |].
      * right. exists b. split; [left|done].
      * right. exists b'. split; [by right|done].
    + intros [H|(b' & Hb' & H)]; [by left; left|].
      apply elem_of_cons in Hb' as [->|Hb']; [by left; right|].
      right. by exists b'.
Qed.

Lemma elem_of_building_obstacle_map (w h : Z) (bs : list building.Building)
    (px py : Z) :
  (px, py) ∈ building_obstacle_map w h bs
  <-> (0 <= px < w /\ 0 <= py < h)
      /\ exists b, b ∈ bs /\ building.occupies_tile b px py = true.
Proof.
  unfold building_obstacle_map. rewrite elem_of_obstacle_fold.
  setoid_rewrite elem_of_footprint_cells. split.
  - intros [H|(b & Hb & Hin & Ho)]; [by apply not_elem_of_empty in H|].
    split; [done|]. by exists b.
  - intros [Hin (b & Hb & Ho)]. right. by exists b.
Qed.

Section Search.

Variable fsqrt : Q -> Q.
Variable heappush : list Node -> Node -> list Node.
Variable heappop : Node -> list Node -> Node * list Node.

(** Whatever order the heap yields them in, [heappush] adds the node to
    the open list and [heappop] takes one node out of it. *)
Hypothesis heappush_perm : forall l n, heappush l n ≡ₚ n :: l.
Hypothesis heappop_perm :
  forall n0 rest n l, heappop n0 rest = (n, l) -> n0 :: rest ≡ₚ n :: l.

Variable tiles : list (list terrain.Tile).
Variable obstacles : gset (Z * Z).
Variables width height start_x start_y goal_x goal_y : Z.

Local Abbreviation accepted := (path_facts.accepted tiles obstacles width height).
Local Abbreviation from_start :=
  (path_facts.from_start tiles obstacles width height start_x start_y).

Lemma from_start_chain (n : Node) :
  from_start n ->
  exists rest, rev (chain n) = (start_x, start_y) :: rest /\ Forall accepted rest.
Proof.
  revert n. fix IH 1. intros [f g h px py [q|]]; simpl.
  - intros [Ha Hq]. destruct (IH q Hq) as (rest & E & Hrest).
    exists (rest ++ [(px, py)]). rewrite E. split; [done|].
    apply Forall_app. split; [done|]. by constructor.
  - intros ->. by exists [].
Qed.

Lemma visit_neighbor_from_start closed current d open_list open_list' :
  from_start current -> Forall from_start open_list ->
  visit_neighbor fsqrt heappush tiles obstacles closed width height
    goal_x goal_y current d open_list = Returns open_list' ->
  Forall from_start open_list'.
Proof.
  intros Hc Ho. unfold visit_neighbor. destruct d as [dx dy].
  destruct (negb _) eqn:Hb; [by intros [= <-]|].
  apply negb_false_iff in Hb.
  destruct (bool_decide _); [by intros [= <-]|].
  unfold _is_walkable.
  destruct (bool_decide ((x current + dx, y current + dy) ∈ obstacles)) eqn:Hobs;
    simpl; [by intros [= <-]|].
  apply bool_decide_eq_false in Hobs.
  destruct (terrain.tile_at tiles (y current + dy) (x current + dx)) as [tile|] eqn:Ht;
    simpl; [|done].
  destruct (bool_decide (terrain.terrain_type tile = terrain.WATER)) eqn:Hw;
    simpl; [by intros [= <-]|].
  apply bool_decide_eq_false in Hw.
  intros [= <-]. rewrite heappush_perm. constructor; [|done].
  simpl. split; [|done]. split; [lia|]. split; [done|]. by exists tile.
Qed.

Lemma for_each_from_start closed current ds open_list open_list' :
  from_start current -> Forall from_start open_list ->
  for_each ds
    (visit_neighbor fsqrt heappush tiles obstacles closed width height
       goal_x goal_y current) open_list = Returns open_list' ->
  Forall from_start open_list'.
Proof.
  intros Hc. revert open_list. induction ds as [|d ds IH]; intros ol Ho; simpl.
  - by intros [= <-].
  - destruct (visit_neighbor _ _ _ _ _ _ _ _ _ _ d ol) as [ol1|] eqn:E; simpl; [|done].
    apply IH. by eapply visit_neighbor_from_start.
Qed.

Lemma search_from_start fuel open_list closed path :
  Forall from_start open_list ->
  search fsqrt heappush heappop fuel tiles obstacles width height goal_x goal_y
    open_list closed = Returns (Some path) ->
  exists rest, path = (start_x, start_y) :: rest /\ Forall accepted rest.
Proof.
  revert open_list closed.
  induction fuel as [|fuel IH]; intros ol closed Ho; cbn [search]; [done|].
  destruct ol as [|n0 rest0]; [done|].
  destruct (heappop n0 rest0) as [current ol1] eqn:Hpop.
  apply heappop_perm in Hpop. rewrite Hpop in Ho.
  apply Forall_cons in Ho as [Hc Ho1].
  destruct ((x current =? goal_x) && (y current =? goal_y)).
  - intros [= <-]. by apply from_start_chain.
  - match goal with
    | |- context [for_each ?ds ?body ol1] =>
        destruct (for_each ds body ol1) as [ol2|] eqn:E; simpl; [|done]
    end.
    apply IH. by eapply for_each_from_start.
Qed.

End Search.

(** C3 (amended). Whatever discipline the priority queue follows, a path
    returned by [find_path] begins with the start tile, which is in bounds
    but is not tested for terrain or buildings; every later waypoint is in
    bounds, is not Water, and lies on no building footprint unless it is
    the goal tile. *)
Theorem C3_path_valid_after_start
    (fsqrt : Q -> Q) (heappush : list Node -> Node -> list Node)
    (heappop : Node -> list Node -> Node * list Node)
    (start_x start_y goal_x goal_y : Z) (tiles : list (list terrain.Tile))
    (buildings : list building.Building) (max_iterations : Z)
    (path : list (Z * Z)) :
  (forall l n, heappush l n ≡ₚ n :: l) ->
  (forall n0 rest n l, heappop n0 rest = (n, l) -> n0 :: rest ≡ₚ n :: l) ->
  find_path fsqrt heappush heappop start_x start_y goal_x goal_y tiles buildings
    max_iterations = Returns (Some path) ->
  exists rest,
    path = (start_x, start_y) :: rest
    /\ 0 <= start_y < Z.of_nat (length tiles)
    /\ 0 <= start_x < Z.of_nat (length (default [] (head tiles)))
    /\ Forall (valid_waypoint tiles buildings goal_x goal_y) rest.
Proof.
  intros Hpush Hpop. unfold find_path.
  destruct tiles as [|row0 rows] eqn:Etiles; [done|]. rewrite <- Etiles.
  destruct (length row0 =? 0)%nat; [done|].
  destruct (negb _) eqn:Hs; [done|]. apply negb_false_iff in Hs.
  destruct (negb _) eqn:Hg; [done|]. apply negb_false_iff in Hg.
  assert (Hhd : default [] (head tiles) = row0) by (by rewrite Etiles).
  assert (Hlen : Z.of_nat (length (row0 :: rows)) = Z.of_nat (length tiles))
    by (by rewrite Etiles).
  destruct ((start_x =? goal_x) && (start_y =? goal_y)).
  { intros [= <-]. exists []. rewrite Hhd. repeat split; try lia. constructor. }
  intros Hsearch.
  eapply (search_from_start fsqrt heappush heappop Hpush Hpop) in Hsearch.
  - destruct Hsearch as (rest & -> & Hrest). exists rest. rewrite Hhd.
    repeat split; try lia.
    eapply Forall_impl; [exact Hrest|].
    intros [px py] ((Hx & Hy) & Hobs & Htile). simpl in *.
    unfold valid_waypoint. rewrite Hhd. repeat split; try lia; [done|].
    intros b Hb Hocc.
    destruct (decide ((px, py) = (goal_x, goal_y))) as [|Hne]; [done|].
    exfalso. apply Hobs. apply elem_of_difference. split.
    + apply elem_of_building_obstacle_map. split; [lia|]. by exists b.
    + by apply not_elem_of_singleton.
  - rewrite Hpush. by repeat constructor.
Qed.

End PathfindingFacts.

Section JobFacts.
Import job_manager job_facts.

Lemma dict_sum_insert (m : gmap string Z) (k : string) (v : Z) :
  dict_sum (<[k := v]> m) = dict_sum m - dict_get m k + v.
Proof.
  unfold dict_sum, dict_get.
  assert (Hcomm : forall z1 z2 y : Z, z1 + (z2 + y) = z2 + (z1 + y))
    by (intros; lia).
  destruct (m !! k) as [old|] eqn:E; simpl.
  - rewrite <- (insert_delete_eq m k v).
    rewrite map_fold_insert_L;
      [|intros; apply Hcomm | apply lookup_delete_eq].
    rewrite (map_fold_delete_L _ _ k old m); [lia | intros; apply Hcomm | done].
  - rewrite map_fold_insert_L; [lia | intros; apply Hcomm | done].
Qed.

Variable fsqrt : Q -> Q.
Variable heappush : list pathfinding.Node -> pathfinding.Node -> list pathfinding.Node.
Variable heappop :
  pathfinding.Node -> list pathfinding.Node -> pathfinding.Node * list pathfinding.Node.

(** The deposit never brings the stockpile above the capacity. *)
Lemma deposit_within_capacity c w carried c' w' :
  deposit (Some game_state.can_add_resources) c w carried = (c', w') ->
  buildings w' = buildings w
  /\ citizen.carrying_resource c' = None /\ citizen.carrying_amount c' = 0
  /\ (stockpile_total w <= capacity w -> stockpile_total w' <= capacity w')
  /\ (stockpile_total w = capacity w -> 0 <= citizen.carrying_amount c ->
      stockpile_total w' = stockpile_total w).
Proof.
  unfold deposit, stockpile_total, capacity, game_state.can_add_resources,
    game_state.get_storage_remaining, game_state.get_current_storage_used.
  destruct (_ >=? _) eqn:E; intros [= <- <-]; simpl.
  - rewrite dict_sum_insert. repeat split; lia.
  - repeat split; lia.
Qed.

Lemma _update_gathering_within_capacity c w dt tiles c' w' :
  _update_gathering fsqrt heappush heappop (Some game_state.can_add_resources)
    c w dt tiles = Returns (c', w') ->
  buildings w' = buildings w
  /\ (stockpile_total w <= capacity w -> stockpile_total w' <= capacity w').
Proof.
  unfold _update_gathering.
  destruct (citizen.current_task c) as [[i|i]|]; try by intros [= <- <-].
  destruct (resource_nodes w !! i) as [node|]; [|done].
  destruct (citizen.carrying_resource c) as [carried|].
  - destruct (_get_stockpile_location (buildings w)) as [sx sy].
    destruct (_move_citizen_to _ _ _ c sx sy tiles (buildings w)) as [c1|];
      simpl; [|done].
    destruct (has_reached_target fsqrt c1); [|by intros [= <- <-]].
    intros [= H].
    destruct (deposit_within_capacity _ _ _ _ _ H) as (Hb & _ & _ & Hle & _).
    by split.
  - destruct (_move_citizen_to _ _ _ c _ _ tiles (buildings w)) as [c1|];
      simpl; [|done].
    destruct (has_reached_target fsqrt c1); [|by intros [= <- <-]].
    destruct (Qgeb _ _); [|by intros [= <- <-]].
    destruct (resource.gather node) as [[rt amount] node1].
    destruct rt as [rt|]; [|by intros [= <- <-]].
    destruct (_ && _); by intros [= <- <-].
Qed.

Lemma _update_gathering_within_capacity' check c w dt tiles c' w' :
  _update_gathering fsqrt heappush heappop check c w dt tiles = Returns (c', w') ->
  buildings w' = buildings w.
Proof.
  unfold _update_gathering.
  destruct (citizen.current_task c) as [[i|i]|]; try by intros [= <- <-].
  destruct (resource_nodes w !! i) as [node|]; [|done].
  destruct (citizen.carrying_resource c) as [carried|].
  - destruct (_get_stockpile_location (buildings w)) as [sx sy].
    destruct (_move_citizen_to _ _ _ c sx sy tiles (buildings w)) as [c1|];
      simpl; [|done].
    destruct (has_reached_target fsqrt c1); [|by intros [= <- <-]].
    unfold deposit. destruct (match check with Some _ => _ | None => _ end);
      by intros [= <- <-].
  - destruct (_move_citizen_to _ _ _ c _ _ tiles (buildings w)) as [c1|];
      simpl; [|done].
    destruct (has_reached_target fsqrt c1); [|by intros [= <- <-]].
    destruct (Qgeb _ _); [|by intros [= <- <-]].
    destruct (resource.gather node) as [[rt amount] node1].
    destruct rt as [rt|]; [|by intros [= <- <-]].
    destruct (_ && _); by intros [= <- <-].
Qed.

(** [_move_citizen_to] leaves the hands of the citizen alone. *)
Lemma _move_citizen_to_hands c tx ty tiles bs c' :
  _move_citizen_to fsqrt heappush heappop c tx ty tiles bs = Returns c' ->
  citizen.carrying_resource c' = citizen.carrying_resource c
  /\ citizen.carrying_amount c' = citizen.carrying_amount c.
Proof.
  unfold _move_citizen_to. destruct (_ || _); [|by intros [= <-]].
  destruct (pathfinding.find_path _ _ _ _ _ _ _ _ _ _) as [path|]; [|done].
  by intros [= <-].
Qed.

(** No gathering step puts a negative amount into a citizen's hands:
    what is picked up at a node is more than nothing. *)
Lemma _update_gathering_hands check c w dt tiles c' w' :
  _update_gathering fsqrt heappush heappop check c w dt tiles = Returns (c', w') ->
  0 <= citizen.carrying_amount c -> 0 <= citizen.carrying_amount c'.
Proof.
  unfold _update_gathering.
  destruct (citizen.current_task c) as [[i|i]|]; try by intros [= <- <-].
  destruct (resource_nodes w !! i) as [node|]; [|done].
  destruct (citizen.carrying_resource c) as [carried|].
  - destruct (_get_stockpile_location (buildings w)) as [sx sy].
    destruct (_move_citizen_to _ _ _ c sx sy tiles (buildings w)) as [c1|] eqn:Hm;
      simpl; [|done].
    apply _move_citizen_to_hands in Hm as [_ Hm].
    destruct (has_reached_target fsqrt c1); [|intros [= <- <-]; lia].
    unfold deposit. destruct (match check with Some _ => _ | None => _ end);
      by intros [= <- <-].
  - destruct (_move_citizen_to _ _ _ c _ _ tiles (buildings w)) as [c1|] eqn:Hm;
      simpl; [|done].
    apply _move_citizen_to_hands in Hm as [_ Hm].
    destruct (has_reached_target fsqrt c1); [|intros [= <- <-]; lia].
    destruct (Qgeb _ _); [|intros [= <- <-]; simpl; lia].
    destruct (resource.gather node) as [[rt amount] node1].
    destruct rt as [rt|]; [|intros [= <- <-]; simpl; lia].
    destruct (negb _); simpl; [|intros [= <- <-]; simpl; lia].
    destruct (Z.gtb_spec amount 0); intros [= <- <-]; simpl; lia.
Qed.

(** A run keeps the stockpile within the capacity and the hands of the
    band free of negative amounts. *)
Lemma deposit_run_invariant st st' :
  deposit_run fsqrt heappush heappop st st' ->
  (stockpile_total (snd st) <= capacity (snd st) ->
   stockpile_total (snd st') <= capacity (snd st'))
  /\ (Forall (fun c => 0 <= citizen.carrying_amount c) (fst st) ->
      Forall (fun c => 0 <= citizen.carrying_amount c) (fst st')).
Proof.
  induction 1 as [st|cs w k c c1 w1 st dt tiles Hk Hstep _ [IHw IHc]]; [done|].
  simpl in *. split.
  - intros Hle. apply IHw.
    by apply (_update_gathering_within_capacity _ _ _ _ _ _ Hstep).
  - intros Hall. apply IHc. apply Forall_insert; [done|].
    apply (_update_gathering_hands _ _ _ _ _ _ _ Hstep).
    rewrite Forall_lookup in Hall. by apply (Hall k).
Qed.

(** C7. With the capacity check of the game state, a stockpile that is
    within the total storage capacity stays within it after any sequence
    of gathering steps and their deposit attempts. And when, after such a
    sequence run by citizens who started with empty hands, the stockpile
    is exactly at capacity, the [_update_gathering] step of a citizen who
    attempts a deposit returns, leaves the stockpile total unchanged and
    empties the citizen's hands. *)
Theorem C7_storage_cap (cs cs' : list citizen.Citizen) (w w' : World) :
  deposit_run fsqrt heappush heappop (cs, w) (cs', w') ->
  stockpile_total w <= capacity w ->
  stockpile_total w' <= capacity w'
  /\ (Forall empty_handed cs ->
      forall k c delta_time tiles,
        cs' !! k = Some c ->
        deposit_attempt fsqrt heappush heappop c w' tiles ->
        stockpile_total w' = capacity w' ->
        exists c1 w1,
          _update_gathering fsqrt heappush heappop
            (Some game_state.can_add_resources) c w' delta_time tiles
            = Returns (c1, w1)
          /\ stockpile_total w1 = stockpile_total w'
          /\ citizen.carrying_resource c1 = None
          /\ citizen.carrying_amount c1 = 0).
Proof.
  intros Hrun Hle. destruct (deposit_run_invariant _ _ Hrun) as [Hw Hc].
  simpl in *. split; [by apply Hw|].
  intros Hempty k c dt tiles Hk (i & node & carried & c0 & Ht & Hn & Hcar & Hm & Hat)
    Hfull.
  assert (Hpos : 0 <= citizen.carrying_amount c0).
  { apply _move_citizen_to_hands in Hm as [_ ->].
    assert (Hall : Forall (fun c => 0 <= citizen.carrying_amount c) cs').
    { apply Hc. eapply Forall_impl; [exact Hempty|]. intros c2 [_ ->]. done. }
    rewrite Forall_lookup in Hall. by apply (Hall k). }
  unfold _update_gathering. rewrite Ht, Hn, Hcar.
  destruct (_get_stockpile_location (buildings w')) as [sx sy]. simpl in Hm.
  rewrite Hm. simpl. rewrite Hat.
  destruct (deposit (Some game_state.can_add_resources) c0 w' carried)
    as [c1 w1] eqn:Hdep.
  exists c1, w1. split; [done|].
  destruct (deposit_within_capacity _ _ _ _ _ Hdep) as (_ & Hr & Ha & _ & Heq).
  split; [by apply Heq | done].
Qed.

(** A carrying hauler that has no movement target delivers on the spot:
    the test made before the delivery looks at the citizen's own target,
    not at the building handed to the step. *)
Lemma hauling_delivers_on_the_spot c w i bld carried dt tiles :
  citizen.current_task c = Some (citizen.BuildingRef i) ->
  buildings w !! i = Some bld ->
  citizen.carrying_resource c = Some carried ->
  citizen.target_x c = None ->
  exists c',
    _update_hauling fsqrt heappush heappop c w dt tiles
      = Returns (c', put_building w i
                       (building.deliver_material bld carried
                          (citizen.carrying_amount c)))
    /\ citizen.x c' = citizen.x c /\ citizen.y c' = citizen.y c.
Proof.
  intros Ht Hb Hc Hx. unfold _update_hauling, task_building.
  rewrite Ht, Hb. simpl. rewrite Hc.
  destruct (building.get_center bld) as [bx by_].
  unfold has_reached_target, citizen.has_reached_target. rewrite Hx. simpl.
  destruct (_ =? _)%nat; eexists; (split; [reflexivity|done]).
Qed.

Lemma add_construction_progress_state b amount :
  building.state (building.add_construction_progress b amount) = building.state b
  \/ (building.state b = building.UNDER_CONSTRUCTION
      /\ building.state (building.add_construction_progress b amount)
         = building.COMPLETE
      /\ (building.construction_work (building.get_definition b)
           <= building.construction_progress b + amount)%Q
      /\ building.construction_progress (building.add_construction_progress b amount)
         = building.construction_work (building.get_definition b)).
Proof.
  unfold building.add_construction_progress.
  destruct (bool_decide _) eqn:Hs; [|by left].
  apply bool_decide_eq_true in Hs.
  destruct (Qgeb _ _) eqn:Hq; [|by left].
  right. split; [done|]. split; [done|]. split; [|done].
  apply Qle_bool_iff in Hq. exact Hq.
Qed.

Lemma ordered_step_refl work b : ordered_step work b b.
Proof. split; intros; congruence. Qed.

Lemma ordered_step_same_state work b b' :
  building.state b' = building.state b -> ordered_step work b b'.
Proof. intros E. split; rewrite E; intros; congruence. Qed.

Lemma lookup_put_building w i bld j b' :
  buildings (put_building w i bld) !! j = Some b' ->
  (j = i /\ b' = bld) \/ buildings w !! j = Some b'.
Proof.
  unfold put_building. simpl. intros H.
  apply list_lookup_insert_Some in H as [(-> & -> & _)|[_ H]]; [by left|by right].
Qed.

Lemma _update_hauling_ordered c w dt tiles c' w' j b b' work :
  _update_hauling fsqrt heappush heappop c w dt tiles = Returns (c', w') ->
  buildings w !! j = Some b -> buildings w' !! j = Some b' ->
  ordered_step work b b'.
Proof.
  intros H Hb Hb'. revert H.
  assert (Hkeep : forall c0, Returns (c0, w) = Returns (c', w') ->
                             ordered_step work b b').
  { intros c0 [= _ <-]. rewrite Hb in Hb'. injection Hb' as <-.
    apply ordered_step_refl. }
  unfold _update_hauling, task_building.
  destruct (citizen.current_task c) as [[i|i]|]; try apply Hkeep.
  destruct (buildings w !! i) as [bld|] eqn:Hi; cbn [obind]; [|done].
  destruct (citizen.carrying_resource c) as [carried|].
  - destruct (building.get_center bld) as [bx by_] eqn:Hcenter.
    destruct (negb (has_reached_target fsqrt c)).
    + destruct (_move_citizen_to fsqrt heappush heappop c bx by_ tiles (buildings w));
        cbn [obind]; [apply Hkeep|done].
    + intros H.
      assert (Hw' : w' = put_building w i
                (building.deliver_material bld carried (citizen.carrying_amount c)))
        by (destruct (_ =? _)%nat; by injection H as <- <-).
      subst w'. apply lookup_put_building in Hb' as [[-> ->]|Hb'].
      * rewrite Hi in Hb. injection Hb as <-. by apply ordered_step_same_state.
      * rewrite Hb in Hb'. injection Hb' as <-. apply ordered_step_refl.
  - destruct (_get_stockpile_location (buildings w)) as [sx sy].
    destruct (negb (has_reached_target fsqrt c)).
    + destruct (_move_citizen_to fsqrt heappush heappop c sx sy tiles (buildings w));
        cbn [obind]; [apply Hkeep|done].
    + destruct (first_in_stock _ _) as [[rt na]|]; [|apply Hkeep].
      intros [= _ <-]. simpl in Hb'. rewrite Hb in Hb'. injection Hb' as <-.
      apply ordered_step_refl.
Qed.

Lemma _update_construction_ordered c w dt tiles c' w' j b b' :
  _update_construction fsqrt c w dt tiles = Returns (c', w') ->
  buildings w !! j = Some b -> buildings w' !! j = Some b' ->
  ordered_step (work_done c dt) b b'.
Proof.
  intros H Hb Hb'. revert H.
  assert (Hkeep : forall c0, Returns (c0, w) = Returns (c', w') ->
                             ordered_step (work_done c dt) b b').
  { intros c0 [= _ <-]. rewrite Hb in Hb'. injection Hb' as <-.
    apply ordered_step_refl. }
  assert (Hput : forall i bld bld1 c0,
            buildings w !! i = Some bld ->
            ordered_step (work_done c dt) bld bld1 ->
            Returns (c0, put_building w i bld1) = Returns (c', w') ->
            ordered_step (work_done c dt) b b').
  { intros i bld bld1 c0 Hi Hord [= _ <-].
    apply lookup_put_building in Hb' as [[-> ->]|Hb'].
    - rewrite Hi in Hb. by injection Hb as <-.
    - rewrite Hb in Hb'. injection Hb' as <-. apply ordered_step_refl. }
  unfold _update_construction, task_building.
  destruct (citizen.current_task c) as [[i|i]|]; try apply Hkeep.
  destruct (buildings w !! i) as [bld|] eqn:Hi; cbn [obind]; [|done].
  set (bld0 := if bool_decide (building.state bld = building.PLANNED)
                  && building.has_all_materials bld
               then building.set_state bld building.UNDER_CONSTRUCTION
               else bld).
  assert (Hstart : ordered_step (work_done c dt) bld bld0
                   /\ (building.state bld0 = building.state bld
                       \/ (building.state bld = building.PLANNED
                           /\ building.has_all_materials bld = true
                           /\ building.state bld0 = building.UNDER_CONSTRUCTION))
                   /\ building.construction_progress bld0
                      = building.construction_progress bld
                   /\ building.get_definition bld0 = building.get_definition bld).
  { subst bld0. destruct (bool_decide _) eqn:Hp; simpl.
    - apply bool_decide_eq_true in Hp.
      destruct (building.has_all_materials bld) eqn:Hm; simpl.
      + split; [|split; [right|]; done].
        split; simpl; intros; [done | congruence].
      + split; [apply ordered_step_refl|]. split; [by left|done].
    - split; [apply ordered_step_refl|]. split; [by left|done]. }
  destruct Hstart as (Hord0 & Hst0 & Hprog0 & Hdef0).
  clearbody bld0.
  destruct (bool_decide (building.state bld0 = building.UNDER_CONSTRUCTION)) eqn:Huc.
  - destruct (building.get_center bld0) as [bx by_].
    destruct (negb (has_reached_target fsqrt c)); [by apply (Hput i bld)|].
    assert (Hord1 : ordered_step (work_done c dt) bld
              (building.add_construction_progress bld0
                 (10.0 * (1.0 + inject_Z (citizen.construction_skill
                                            (citizen.set_state c citizen.WORKING))
                                / 20.0) * dt)%Q)).
    { destruct (add_construction_progress_state bld0
                  (10.0 * (1.0 + inject_Z (citizen.construction_skill
                                             (citizen.set_state c citizen.WORKING))
                                 / 20.0) * dt)%Q)
        as [Hsame|(_ & Hcomp & Hle & Heq)].
      - destruct Hord0 as [Ho1 _]. split; [by rewrite Hsame|].
        intros _ Hc. rewrite Hsame in Hc.
        apply bool_decide_eq_true in Huc. congruence.
      - rewrite Hprog0, Hdef0 in Hle. rewrite Hdef0 in Heq.
        split.
        + intros Hpl _. destruct Hst0 as [E|(_ & Hm & _)]; [|done].
          apply bool_decide_eq_true in Huc. congruence.
        + intros _ _. split; [exact Hle|exact Heq]. }
    destruct (bool_decide
                (building.state (building.add_construction_progress bld0 _)
                 = building.COMPLETE)); by apply (Hput i bld).
  - destruct (bool_decide (building.state bld0 = building.COMPLETE));
      by apply (Hput i bld).
Qed.

(** The movement of a tick leaves the citizen's skills as they are. *)
Lemma update_construction_skill c dt :
  citizen.construction_skill (citizen.update fsqrt c dt)
  = citizen.construction_skill c.
Proof.
  unfold citizen.update, citizen.step_towards.
  repeat (case_match; simpl; try done).
Qed.

(** C6. In one job-manager step of a citizen (movement, then work
    assignment or the hauling, construction or gathering step), every
    building either keeps its state or moves forward in order: it leaves
    Planned only if [has_all_materials()] holds, and it becomes Complete
    only when its progress plus the work of this step has reached the
    [construction_work] of its definition, the progress then being set to
    exactly that amount. *)
Theorem C6_construction_ordering (check : option
      (list building.Building -> gmap string Z -> Z -> bool))
    (c : citizen.Citizen) (w : World) (delta_time : Q)
    (tiles : list (list terrain.Tile)) (c' : citizen.Citizen) (w' : World)
    (j : nat) (b b' : building.Building) :
  update_citizen fsqrt heappush heappop check c w delta_time tiles
    = Returns (c', w') ->
  buildings w !! j = Some b ->
  buildings w' !! j = Some b' ->
  ordered_step (work_done c delta_time) b b'.
Proof.
  unfold update_citizen. intros H Hb Hb'. revert H.
  assert (Hw : work_done c delta_time
               = work_done (citizen.update fsqrt c delta_time) delta_time)
    by (unfold work_done; by rewrite update_construction_skill).
  rewrite Hw. clear Hw.
  generalize (citizen.update fsqrt c delta_time). clear c. intros c.
  assert (Hkeep : forall c0 w0, buildings w0 = buildings w ->
            Returns (c0, w0) = Returns (c', w') ->
            ordered_step (work_done c delta_time) b b').
  { intros c0 w0 E [= _ <-]. rewrite E, Hb in Hb'. injection Hb' as <-.
    apply ordered_step_refl. }
  destruct (_ && _).
  - unfold _assign_work.
    destruct (_find_material_hauling_task _ _ _); [by apply Hkeep|].
    destruct (_find_construction_task _ _); [by apply Hkeep|].
    destruct (_find_gathering_task _ _) as [[i|] nodes]; by apply Hkeep.
  - destruct (negb _); [|by apply Hkeep].
    unfold _update_citizen_task.
    destruct (citizen.current_job c) as [[]|]; try by apply Hkeep.
    + intros H. by eapply _update_construction_ordered.
    + intros H.
      pose proof (_update_gathering_within_capacity' _ _ _ _ _ _ _ H) as E.
      rewrite E, Hb in Hb'. injection Hb' as <-. apply ordered_step_refl.
    + intros H. by eapply _update_hauling_ordered.
Qed.

End JobFacts.


Section ScenarioFacts.
Import pathfinding job_manager job_facts.

Lemma push_back_perm (l : list Node) (n : Node) : push_back l n ≡ₚ n :: l.
Proof. unfold push_back. by rewrite Permutation_app_comm. Qed.

Lemma pop_min_perm (n0 : Node) (rest : list Node) (n : Node) (l : list Node) :
  pop_min n0 rest = (n, l) -> n0 :: rest ≡ₚ n :: l.
Proof.
  revert n0 n l. induction rest as [|n1 rest IH]; intros n0 n l; simpl.
  - by intros [= <- <-].
  - destruct (pop_min n1 rest) as [m others] eqn:E.
    destruct (Qleb _ _); intros [= <- <-]; [done|].
    rewrite (IH _ _ _ E). apply perm_swap.
Qed.

Lemma C3_path_valid_after_start_witness :
  scenario.astar 0 0 2 0 (scenario.grass_grid 3 2) [scenario.well]
    = Returns (Some [(0, 0); (1, 1); (2, 0)])
  /\ exists rest,
       [(0, 0); (1, 1); (2, 0)] = (0, 0) :: rest
       /\ 0 <= 0 < Z.of_nat (length (scenario.grass_grid 3 2))
       /\ 0 <= 0 < Z.of_nat (length (default [] (head (scenario.grass_grid 3 2))))
       /\ Forall (valid_waypoint (scenario.grass_grid 3 2) [scenario.well] 2 0) rest.
Proof.
  assert (E : scenario.astar 0 0 2 0 (scenario.grass_grid 3 2) [scenario.well]
              = Returns (Some [(0, 0); (1, 1); (2, 0)]))
    by (vm_compute; reflexivity).
  split; [exact E|].
  exact (C3_path_valid_after_start approx_sqrt push_back pop_min 0 0 2 0
           (scenario.grass_grid 3 2) [scenario.well] 1000
           [(0, 0); (1, 1); (2, 0)] push_back_perm pop_min_perm E).
Defined.

(** C3, as the document states it, fails: a citizen standing on a
    building (here the well at (1,0), as after a delivery) gets a path
    whose first waypoint is its own tile, which lies on the footprint of
    the well and is not the goal. *)
Lemma C3_counterexample :
  scenario.astar 1 0 2 0 (scenario.grass_grid 3 2) [scenario.well]
    = Returns (Some [(1, 0); (2, 0)])
  /\ ~ Forall (valid_waypoint (scenario.grass_grid 3 2) [scenario.well] 2 0)
         [(1, 0); (2, 0)].
Proof.
  split; [vm_compute; reflexivity|].
  intros H. apply Forall_cons in H as [(_ & _ & _ & Hb) _].
  specialize (Hb scenario.well ltac:(left) eq_refl). discriminate.
Qed.

Lemma C6_construction_ordering_witness :
  exists c' w' b',
    update_citizen approx_sqrt push_back pop_min
      (Some game_state.can_add_resources) scenario.builder
      scenario.building_site (1 / 60) (scenario.grass_grid 20 20)
      = Returns (c', w')
    /\ buildings w' !! 1%nat = Some b'
    /\ building.state scenario.house_ready = building.PLANNED
    /\ building.state b' = building.UNDER_CONSTRUCTION
    /\ ordered_step (work_done scenario.builder (1 / 60)) scenario.house_ready b'.
Proof.
  eexists _, _, _.
  split; [vm_compute; reflexivity|].
  split; [vm_compute; reflexivity|].
  split; [reflexivity|]. split; [reflexivity|].
  eapply (C6_construction_ordering approx_sqrt push_back pop_min
            (Some game_state.can_add_resources) scenario.builder
            scenario.building_site (1 / 60) (scenario.grass_grid 20 20) _ _ 1%nat);
    vm_compute; reflexivity.
Defined.

Lemma C7_storage_cap_witness :
  exists c w c1 w1,
    deposit_run approx_sqrt push_back pop_min
      ([scenario.gatherer], scenario.full_world) ([c], w)
    /\ citizen.carrying_resource c = Some "wood"
    /\ citizen.carrying_amount c = 4
    /\ stockpile_total w = 500 /\ capacity w = 500
    /\ _update_gathering approx_sqrt push_back pop_min
         (Some game_state.can_add_resources) c w (1 / 60)
         (scenario.grass_grid 20 20)
       = Returns (c1, w1)
    /\ stockpile_total w1 = 500
    /\ citizen.carrying_resource c1 = None
    /\ citizen.carrying_amount c1 = 0.
Proof.
  destruct (_update_gathering approx_sqrt push_back pop_min
              (Some game_state.can_add_resources) scenario.gatherer
              scenario.full_world 5 (scenario.grass_grid 20 20))
    as [[c w]|] eqn:Hstep; [|vm_compute in Hstep; discriminate].
  assert (Hrun : deposit_run approx_sqrt push_back pop_min
                   ([scenario.gatherer], scenario.full_world) ([c], w)).
  { eapply (run_step _ _ _ _ _ 0%nat scenario.gatherer c w _ 5
              (scenario.grass_grid 20 20)); [reflexivity|exact Hstep|].
    apply run_done. }
  pose proof Hstep as Hval. vm_compute in Hval. injection Hval as Hc Hw.
  destruct (C7_storage_cap approx_sqrt push_back pop_min _ _ _ _ Hrun
              ltac:(vm_compute; discriminate)) as [_ Hfull].
  destruct (Hfull ltac:(by repeat constructor) 0%nat c (1 / 60)%Q
              (scenario.grass_grid 20 20) eq_refl) as (c1 & w1 & H1 & H2 & H3 & H4).
  - subst c w. eexists 0%nat, _, "wood", _.
    split; [reflexivity|]. split; [reflexivity|]. split; [reflexivity|].
    split; vm_compute; reflexivity.
  - subst w. vm_compute. reflexivity.
  - exists c, w, c1, w1. split; [exact Hrun|].
    split; [by subst c|]. split; [by subst c|].
    split; [by subst w; vm_compute|]. split; [by subst w; vm_compute|].
    split; [exact H1|]. split; [|done].
    rewrite H2. subst w. by vm_compute.
Defined.

(** C2 (evaluation of the code). In a new game with one settler at
    (15, 15), the wagon and a planned house whose centre is (3.5, 3.5),
    three frames are enough for 5 units of wood to be delivered to the
    house: the settler is given the hauling task, picks the wood up and
    delivers it without having moved, more than half a tile away from
    the centre of the house. *)
Theorem C2_hauling_delivers_away_from_building :
  exists g c b,
    scenario.run 3 scenario.hauling_game = Returns g
    /\ game_state.citizens g = [c]
    /\ buildings (game_state.world g) !! 1%nat = Some b
    /\ building.materials_delivered scenario.house !! "wood" = None
    /\ building.materials_delivered b !! "wood" = Some 5
    /\ citizen.current_job c = Some citizen.HAULING
    /\ (citizen.x c, citizen.y c) = (15%Q, 15%Q)
    /\ building.get_center b = ((7 # 2)%Q, (7 # 2)%Q)
    /\ ~ ((citizen.x c - (7 # 2)) ^ 2 + (citizen.y c - (7 # 2)) ^ 2 < 0.5 ^ 2)%Q.
Proof.
  eexists _, _, _.
  split; [vm_compute; reflexivity|].
  split; [reflexivity|].
  split; [reflexivity|].
  split; [reflexivity|].
  split; [vm_compute; reflexivity|].
  split; [reflexivity|].
  split; [reflexivity|].
  split; [vm_compute; reflexivity|].
  vm_compute. discriminate.
Qed.

End ScenarioFacts.


Section GeneratorFacts.
Import world_generator_advanced gen_facts.

(** *** Loops *)

Lemma for_each_inv {A S : Type} (R : S -> S -> Prop) (Q : A -> S -> Prop)
    (l : list A) (body : A -> S -> outcome S) (s s' : S) :
  (forall s0, R s0 s0) ->
  (forall s1 s2 s3, R s1 s2 -> R s2 s3 -> R s1 s3) ->
  (forall a s1 s2, a ∈ l -> R s s1 -> body a s1 = Returns s2 -> R s1 s2 /\ Q a s2) ->
  (forall a s1 s2, Q a s1 -> R s1 s2 -> Q a s2) ->
  for_each l body s = Returns s' ->
  R s s' /\ forall a, a ∈ l -> Q a s'.
Proof.
  intros Hrefl Htrans Hbody Hkeep. revert s Hbody.
  induction l as [|a l IH]; intros s Hbody; simpl.
  - intros [= <-]. split; [done|]. intros a Ha. by apply elem_of_nil in Ha.
  - destruct (body a s) as [s1|] eqn:E; simpl; [|done]. intros Hrest.
    destruct (Hbody a s s1 ltac:(left) (Hrefl s) E) as [HR HQ].
    destruct (IH s1) as [HR' HQ']; [|done|].
    { intros a' s2 s3 Ha' HR2 E'. apply Hbody; [by right| |done].
      by apply (Htrans _ s1). }
    split; [by apply (Htrans _ s1)|].
    intros a' Ha'. apply elem_of_cons in Ha' as [->|Ha']; [|by apply HQ'].
    by apply (Hkeep _ s1).
Qed.

Lemma for_each_rel {A S : Type} (R : S -> S -> Prop)
    (l : list A) (body : A -> S -> outcome S) (s s' : S) :
  (forall s0, R s0 s0) ->
  (forall s1 s2 s3, R s1 s2 -> R s2 s3 -> R s1 s3) ->
  (forall a s1 s2, a ∈ l -> body a s1 = Returns s2 -> R s1 s2) ->
  for_each l body s = Returns s' ->
  R s s'.
Proof.
  intros Hrefl Htrans Hbody H.
  apply (for_each_inv R (fun _ _ => True) l body s s'); try done.
  intros a s1 s2 Ha _ E. split; [by apply (Hbody a)|done].
Qed.

(** *** Cell-wise relation *)

Lemma settles_refl t : settles t t.
Proof. by split. Qed.

Lemma settles_trans t1 t2 t3 : settles t1 t2 -> settles t2 t3 -> settles t1 t3.
Proof. intros [H1 H2] [H3 H4]. split; auto. Qed.

Lemma cellwise_refl g : cellwise g g.
Proof.
  apply Forall2_same_length_lookup. split; [done|].
  intros j row row' H1 H2. rewrite H1 in H2. injection H2 as <-.
  apply Forall2_same_length_lookup. split; [done|].
  intros i t t' H3 H4. rewrite H3 in H4. injection H4 as <-. apply settles_refl.
Qed.

Lemma cellwise_trans g1 g2 g3 : cellwise g1 g2 -> cellwise g2 g3 -> cellwise g1 g3.
Proof.
  unfold cellwise. intros H12 H23.
  eapply Forall2_trans; [|exact H12|exact H23].
  intros r1 r2 r3 Ha Hb. eapply Forall2_trans; [|exact Ha|exact Hb].
  intros. by eapply settles_trans.
Qed.

Lemma cellwise_cell (P : terrain.TerrainType -> Prop) g g' j i :
  (forall t t', settles t t' -> P (terrain.terrain_type t) ->
                P (terrain.terrain_type t')) ->
  cellwise g g' -> cell P g j i -> cell P g' j i.
Proof.
  intros HP Hcw Hc row' tile' Hrow' Htile'.
  destruct (Forall2_lookup_r _ _ _ _ _ Hcw Hrow') as (row & Hrow & Hrows).
  destruct (Forall2_lookup_r _ _ _ _ _ Hrows Htile') as (tile & Htile & Hs).
  apply (HP tile tile' Hs). by apply (Hc row).
Qed.

Lemma cellwise_dry g g' j i : cellwise g g' -> cell dry g j i -> cell dry g' j i.
Proof. apply cellwise_cell. intros t t' [H _]. exact H. Qed.

Lemma cellwise_green g g' j i :
  cellwise g g' -> cell green g j i -> cell green g' j i.
Proof. apply cellwise_cell. intros t t' [_ H]. exact H. Qed.

Lemma cellwise_length g g' : cellwise g g' -> length g' = length g.
Proof. intros H. symmetry. by eapply Forall2_length. Qed.

Lemma cellwise_width g g' : cellwise g g' -> grid_width g' = grid_width g.
Proof.
  unfold grid_width. intros H. destruct H as [|r r' g g' Hr _]; simpl; [done|].
  f_equal. symmetry. by eapply Forall2_length.
Qed.

Lemma cellwise_height g g' : cellwise g g' -> grid_height g' = grid_height g.
Proof. intros H. unfold grid_height. by rewrite (cellwise_length g g'). Qed.

Lemma cellwise_rectangular w g g' :
  cellwise g g' -> rectangular w g -> rectangular w g'.
Proof.
  unfold rectangular. rewrite !Forall_lookup. intros Hcw Hr j row' Hrow'.
  destruct (Forall2_lookup_r _ _ _ _ _ Hcw Hrow') as (row & Hrow & Hrows).
  rewrite <- (Hr j row Hrow). symmetry. by eapply Forall2_length.
Qed.

(** *** The update of one tile *)

Lemma norm_index_nonneg len i j :
  0 <= i -> norm_index len i = Some j -> j = Z.to_nat i /\ (j < len)%nat.
Proof.
  unfold norm_index. intros Hi.
  destruct (Z.ltb_spec i 0); [lia|].
  destruct (_ && _) eqn:E; [|done]. intros [= <-]. lia.
Qed.

Lemma update_tile_spec g ty tx f g' :
  update_tile g ty tx f = Returns g' ->
  exists j i row tile,
    norm_index (length g) ty = Some j /\ g !! j = Some row
    /\ norm_index (length row) tx = Some i /\ row !! i = Some tile
    /\ g' = <[j := <[i := f tile]> row]> g.
Proof.
  unfold update_tile.
  destruct (norm_index (length g) ty) as [j|] eqn:Hj; [|done].
  destruct (g !! j) as [row|] eqn:Hrow; [|done].
  destruct (norm_index (length row) tx) as [i|] eqn:Hi; [|done].
  destruct (row !! i) as [tile|] eqn:Htile; [|done].
  intros [= <-]. by exists j, i, row, tile.
Qed.

Lemma update_tile_cellwise g ty tx f g' :
  (forall t, settles t (f t)) ->
  update_tile g ty tx f = Returns g' -> cellwise g g'.
Proof.
  intros Hf H. apply update_tile_spec in H
    as (j & i & row & tile & _ & Hrow & _ & Htile & ->).
  unfold cellwise. rewrite <- (list_insert_id g j row Hrow) at 1.
  apply Forall2_insert; [apply cellwise_refl|].
  rewrite <- (list_insert_id row i tile Htile) at 1.
  apply Forall2_insert; [|done].
  apply Forall2_same_length_lookup. split; [done|].
  intros k t t' H1 H2. rewrite H1 in H2. injection H2 as <-. apply settles_refl.
Qed.

Lemma tile_at_spec g ty tx tile :
  terrain.tile_at g ty tx = Returns tile ->
  exists j i row,
    norm_index (length g) ty = Some j /\ g !! j = Some row
    /\ norm_index (length row) tx = Some i /\ row !! i = Some tile.
Proof.
  unfold terrain.tile_at, py_index.
  destruct (norm_index (length g) ty) as [j|] eqn:Hj; [|done].
  destruct (g !! j) as [row|] eqn:Hrow; [|done]. simpl.
  destruct (norm_index (length row) tx) as [i|] eqn:Hi; [|done].
  destruct (row !! i) as [t|] eqn:Htile; [|done].
  intros [= <-]. by exists j, i, row.
Qed.

(** Writing the terrain [t] at a cell makes the cell satisfy any [P]
    that [t] satisfies. *)
Lemma set_terrain_cell (P : terrain.TerrainType -> Prop) g ty tx t g' :
  0 <= ty -> 0 <= tx -> P t ->
  set_terrain g ty tx t = Returns g' ->
  cell P g' (Z.to_nat ty) (Z.to_nat tx).
Proof.
  intros Hy Hx HP H. apply update_tile_spec in H
    as (j & i & row & tile & Hj & Hrow & Hi & Htile & ->).
  apply norm_index_nonneg in Hj as [-> Hj]; [|done].
  apply norm_index_nonneg in Hi as [-> Hi]; [|done].
  intros row' tile' Hrow' Htile'.
  rewrite list_lookup_insert_eq in Hrow' by done. injection Hrow' as <-.
  rewrite list_lookup_insert_eq in Htile' by done. by injection Htile' as <-.
Qed.

Lemma terrain_at_cell (P : terrain.TerrainType -> Prop) g ty tx t :
  0 <= ty -> 0 <= tx -> P t ->
  terrain_at g ty tx = Returns t ->
  cell P g (Z.to_nat ty) (Z.to_nat tx).
Proof.
  intros Hy Hx HP. unfold terrain_at.
  destruct (terrain.tile_at g ty tx) as [tile|] eqn:E; simpl; [|done].
  intros [= <-]. apply tile_at_spec in E as (j & i & row & Hj & Hrow & Hi & Htile).
  apply norm_index_nonneg in Hj as [-> Hj]; [|done].
  apply norm_index_nonneg in Hi as [-> Hi]; [|done].
  intros row' tile' Hrow' Htile'. rewrite Hrow in Hrow'. injection Hrow' as <-.
  rewrite Htile in Htile'. by injection Htile' as <-.
Qed.

Lemma set_terrain_cellwise g ty tx t g' :
  t ∈ [terrain.GRASS; terrain.DIRT; terrain.FOREST] ->
  set_terrain g ty tx t = Returns g' -> cellwise g g'.
Proof.
  intros Ht. apply update_tile_cellwise. intros tile. split; simpl; [|done].
  intros _ ->. apply list_elem_of_In in Ht. simpl in Ht.
  destruct Ht as [?|[?|[?|[]]]]; discriminate.
Qed.

(** *** The passes *)

Lemma water_to_grass_cellwise g ty tx g' :
  water_to_grass g ty tx = Returns g' -> cellwise g g'.
Proof.
  unfold water_to_grass.
  destruct (terrain_at g ty tx) as [t|]; simpl; [|done].
  destruct (bool_decide _).
  - apply set_terrain_cellwise. set_solver.
  - intros [= <-]. apply cellwise_refl.
Qed.

Lemma water_to_grass_dry g ty tx g' :
  0 <= ty -> 0 <= tx ->
  water_to_grass g ty tx = Returns g' -> cell dry g' (Z.to_nat ty) (Z.to_nat tx).
Proof.
  intros Hy Hx. unfold water_to_grass.
  destruct (terrain_at g ty tx) as [t|] eqn:E; simpl; [|done].
  destruct (bool_decide (t = terrain.WATER)) eqn:Hw.
  - by apply set_terrain_cell.
  - intros [= <-]. apply bool_decide_eq_false in Hw.
    by apply (terrain_at_cell dry g ty tx t).
Qed.

(** One border step: the two tiles named by the step are dry afterwards,
    the second one provided its index is not negative. *)
Lemma border_step g y1 x1 y2 x2 g' :
  0 <= y1 -> 0 <= x1 ->
  obind (water_to_grass g y1 x1) (fun tiles => water_to_grass tiles y2 x2)
    = Returns g' ->
  cellwise g g'
  /\ cell dry g' (Z.to_nat y1) (Z.to_nat x1)
  /\ (0 <= y2 -> 0 <= x2 -> cell dry g' (Z.to_nat y2) (Z.to_nat x2)).
Proof.
  intros Hy Hx.
  destruct (water_to_grass g y1 x1) as [g1|] eqn:E1; simpl; [|done].
  intros E2.
  pose proof (water_to_grass_cellwise _ _ _ _ E1) as C1.
  pose proof (water_to_grass_cellwise _ _ _ _ E2) as C2.
  split; [by eapply cellwise_trans|]. split.
  - eapply cellwise_dry; [exact C2|]. by eapply water_to_grass_dry.
  - intros ? ?. by eapply water_to_grass_dry.
Qed.

Lemma center_step g y x g' :
  0 <= y -> 0 <= x ->
  obind (terrain_at g y x) (fun t =>
    if negb (is_buildable t) then set_terrain g y x terrain.GRASS
    else Returns g) = Returns g' ->
  cellwise g g' /\ cell green g' (Z.to_nat y) (Z.to_nat x).
Proof.
  intros Hy Hx.
  destruct (terrain_at g y x) as [t|] eqn:E; simpl; [|done].
  destruct (is_buildable t) eqn:Hb; simpl.
  - intros [= <-]. split; [apply cellwise_refl|].
    apply (terrain_at_cell green g y x t); try done.
    unfold is_buildable in Hb. apply orb_true_iff in Hb as [Hb|Hb];
      apply bool_decide_eq_true in Hb; subst; unfold green; set_solver.
  - intros H. split.
    + eapply set_terrain_cellwise; [|exact H]. set_solver.
    + eapply set_terrain_cell; [done|done| |exact H]. unfold green. set_solver.
Qed.

Lemma _ensure_local_playability_spec g g' :
  _ensure_local_playability g = Returns g' ->
  cellwise g g'
  /\ (forall x, 0 <= x < grid_width g ->
        cell dry g' 0 (Z.to_nat x)
        /\ cell dry g' (Z.to_nat (grid_height g - 1)) (Z.to_nat x))
  /\ (forall y, 0 <= y < grid_height g ->
        cell dry g' (Z.to_nat y) 0
        /\ cell dry g' (Z.to_nat y) (Z.to_nat (grid_width g - 1)))
  /\ (forall y x, 0 <= x < grid_width g -> 0 <= y < grid_height g ->
        grid_height g / 2 - 5 <= y <= grid_height g / 2 + 5 ->
        grid_width g / 2 - 5 <= x <= grid_width g / 2 + 5 ->
        cell green g' (Z.to_nat y) (Z.to_nat x)).
Proof.
  unfold _ensure_local_playability.
  set (height := grid_height g). set (width := grid_width g).
  destruct (for_each (range 0 width) _ g) as [g1|] eqn:E1; cbn [obind]; [|done].
  destruct (for_each (range 0 height) _ g1) as [g2|] eqn:E2; cbn [obind]; [|done].
  intros E3.
  apply (for_each_inv cellwise
           (fun x t => cell dry t 0 (Z.to_nat x)
                       /\ cell dry t (Z.to_nat (height - 1)) (Z.to_nat x)))
    in E1 as [C1 Q1]; first last.
  { intros x s1 s2 [? ?] C. split; by eapply cellwise_dry. }
  { intros x s1 s2 Hx C H. apply elem_of_range in Hx.
    apply border_step in H as (C' & D1 & D2); [|lia|lia].
    split; [done|]. split; [done|]. apply D2; [|lia].
    assert (0 < width) by lia. unfold width, grid_width in *. unfold height, grid_height.
    destruct g; simpl in *; lia. }
  { apply cellwise_trans. } { apply cellwise_refl. }
  apply (for_each_inv cellwise
           (fun y t => cell dry t (Z.to_nat y) 0
                       /\ (0 <= width - 1 ->
                           cell dry t (Z.to_nat y) (Z.to_nat (width - 1)))))
    in E2 as [C2 Q2]; first last.
  { intros y s1 s2 [? ?] C. split; [by eapply cellwise_dry|].
    intros. eapply cellwise_dry; eauto. }
  { intros y s1 s2 Hy C H. apply elem_of_range in Hy.
    apply border_step in H as (C' & D1 & D2); [|lia|lia].
    split; [done|]. split; [done|]. intros. apply D2; lia. }
  { apply cellwise_trans. } { apply cellwise_refl. }
  apply (for_each_inv cellwise
           (fun dy t => forall dx, -5 <= dx < 6 ->
              0 <= width / 2 + dx < width -> 0 <= height / 2 + dy < height ->
              cell green t (Z.to_nat (height / 2 + dy)) (Z.to_nat (width / 2 + dx))))
    in E3 as [C3 Q3]; first last.
  { intros dy s1 s2 H C dx ? ? ?. eapply cellwise_green; eauto. }
  { intros dy s1 s2 Hdy C H.
    apply (for_each_inv cellwise
             (fun dx t =>
                0 <= width / 2 + dx < width -> 0 <= height / 2 + dy < height ->
                cell green t (Z.to_nat (height / 2 + dy))
                  (Z.to_nat (width / 2 + dx))))
      in H as [C' Q']; first last.
    { intros dx s3 s4 H' C4 ? ?. eapply cellwise_green; eauto. }
    { intros dx s3 s4 Hdx C4 H'.
      destruct ((0 <=? width / 2 + dx) && (width / 2 + dx <? width)
                && (0 <=? height / 2 + dy) && (height / 2 + dy <? height)) eqn:Hb.
      - apply center_step in H' as [? ?]; [|lia|lia]. by split.
      - injection H' as <-. split; [apply cellwise_refl|]. intros. lia. }
    { apply cellwise_trans. } { apply cellwise_refl. }
    split; [done|]. intros dx Hdx. apply Q'. apply elem_of_range. lia. }
  { apply cellwise_trans. } { apply cellwise_refl. }
  split; [eauto using cellwise_trans|].
  split.
  { intros x Hx. destruct (Q1 x) as [D1 D2]; [apply elem_of_range; lia|].
    split; eapply cellwise_dry; try exact D1; try exact D2;
      eauto using cellwise_trans. }
  split.
  { intros y Hy. destruct (Q2 y) as [D1 D2]; [apply elem_of_range; lia|].
    split; eapply cellwise_dry; try exact C3; [exact D1|].
    destruct (Z.le_gt_cases 0 (width - 1)) as [Hw|Hw]; [by apply D2|].
    replace (Z.to_nat (width - 1)) with 0%nat by lia. exact D1. }
  intros y x Hx Hy Hcy Hcx.
  replace y with (height / 2 + (y - height / 2)) by lia.
  replace x with (width / 2 + (x - width / 2)) by lia.
  apply (Q3 (y - height / 2)); [apply elem_of_range|..]; lia.
Qed.

Variable fsqrt : Q -> Q.

Lemma cellwise_st_refl st : cellwise_st st st.
Proof. apply cellwise_refl. Qed.

Lemma cellwise_st_trans st1 st2 st3 :
  cellwise_st st1 st2 -> cellwise_st st2 st3 -> cellwise_st st1 st3.
Proof. apply cellwise_trans. Qed.

Ltac same_grid :=
  intros [= <-]; unfold cellwise_st; simpl; apply cellwise_refl.

Lemma grow_forest_cellwise width height cx cy radius st st' :
  grow_forest fsqrt width height cx cy radius st = Returns st' ->
  cellwise_st st st'.
Proof.
  unfold grow_forest.
  apply for_each_rel; [apply cellwise_st_refl | apply cellwise_st_trans|].
  intros dy st1 st2 _.
  apply for_each_rel; [apply cellwise_st_refl | apply cellwise_st_trans|].
  intros dx [g s] st4 _.
  destruct (_ && _); [|same_grid].
  destruct (Qleb _ _); [|same_grid].
  destruct (random.random s) as [draw s1].
  destruct (Qgtb draw 0.3); [|same_grid].
  destruct (terrain_at g (cy + dy) (cx + dx)) as [t|]; cbn [obind]; [|done].
  destruct (bool_decide _); [|same_grid].
  destruct (set_terrain g (cy + dy) (cx + dx) terrain.FOREST) as [g1|] eqn:E;
    cbn [obind]; [|done].
  intros [= <-]. unfold cellwise_st. simpl.
  eapply set_terrain_cellwise; [|exact E]. set_solver.
Qed.

Lemma _add_forests_cellwise g tree_density s g' s' :
  _add_forests fsqrt g tree_density s = Returns (g', s') -> cellwise g g'.
Proof.
  unfold _add_forests.
  destruct (Qltb tree_density 0.05); [intros [= <- <-]; apply cellwise_refl|].
  intros H. change (cellwise_st (g, s) (g', s')). revert H.
  apply for_each_rel; [apply cellwise_st_refl | apply cellwise_st_trans|].
  intros k [g1 s1] st2 _.
  destruct (random.randint 0 (grid_width g - 1) s1) as [[cx s2]|]; cbn [obind];
    [|done].
  destruct (random.randint 0 (grid_height g - 1) s2) as [[cy s3]|]; cbn [obind];
    [|done].
  destruct (terrain_at g1 cy cx) as [t|]; cbn [obind]; [|done].
  destruct (bool_decide _); [|same_grid].
  destruct (random.randint 3 _ s3) as [[radius s4]|]; cbn [obind]; [|done].
  apply grow_forest_cellwise.
Qed.

Lemma _smooth_terrain_cellwise g g' :
  _smooth_terrain g = Returns g' -> cellwise g g'.
Proof.
  unfold _smooth_terrain.
  apply for_each_rel; [apply cellwise_refl | apply cellwise_trans|].
  intros y g1 g2 _.
  apply for_each_rel; [apply cellwise_refl | apply cellwise_trans|].
  intros x g3 g4 _.
  repeat (match goal with
          | |- obind ?m _ = _ -> _ => destruct m; cbn [obind]; [|done]
          | |- (if ?b then _ else _) = _ -> _ => destruct b
          | |- Returns _ = Returns _ -> _ => intros [= <-]; apply cellwise_refl
          end).
  apply set_terrain_cellwise. set_solver.
Qed.

Lemma set_resource_cellwise g y x r g' :
  update_tile g y x (fun tile => terrain.set_resource tile r) = Returns g' ->
  cellwise g g'.
Proof. apply update_tile_cellwise. intros t. by split. Qed.

Lemma _place_resource_nodes_cellwise g s g' s' :
  _place_resource_nodes g s = Returns (g', s') -> cellwise g g'.
Proof.
  unfold _place_resource_nodes.
  intros H. change (cellwise_st (g, s) (g', s')). revert H.
  apply for_each_rel; [apply cellwise_st_refl | apply cellwise_st_trans|].
  intros y st1 st2 _.
  apply for_each_rel; [apply cellwise_st_refl | apply cellwise_st_trans|].
  intros x [g1 s1] st4 _.
  destruct (terrain_at g1 y x) as [t|]; cbn [obind]; [|done].
  destruct (bool_decide _).
  { destruct (update_tile _ _ _ _) as [g2|] eqn:E; cbn [obind]; [|done].
    intros [= <-]. by apply set_resource_cellwise in E. }
  destruct (is_buildable t); [|same_grid].
  destruct (random.random s1) as [v s2].
  destruct (Qltb v 0.03).
  { destruct (update_tile _ _ _ _) as [g2|] eqn:E; cbn [obind]; [|done].
    intros [= <-]. by apply set_resource_cellwise in E. }
  destruct (Qltb v 0.08); [|same_grid].
  destruct (update_tile _ _ _ _) as [g2|] eqn:E; cbn [obind]; [|done].
  intros [= <-]. by apply set_resource_cellwise in E.
Qed.

Lemma rectangular_width w g :
  rectangular w g -> g ≠ [] -> grid_width g = Z.of_nat w.
Proof.
  unfold grid_width. intros Hr Hne. destruct g as [|row g]; [done|].
  simpl. f_equal. by apply Forall_cons in Hr as [? _].
Qed.

(** What the four passes guarantee on a rectangular draft. *)
Lemma finish_local_map_spec w g biome_props s g' s' :
  rectangular w g ->
  finish_local_map fsqrt g biome_props s = Returns (g', s') ->
  border_dry g' /\ center_block green g'.
Proof.
  intros Hrect. unfold finish_local_map.
  destruct (_ensure_local_playability g) as [g1|] eqn:E1; cbn [obind]; [|done].
  destruct (_add_forests fsqrt g1 _ s) as [[g2 s2]|] eqn:E2; cbn [obind]; [|done].
  destruct (_smooth_terrain g2) as [g3|] eqn:E3; cbn [obind]; [|done].
  intros E4.
  apply _ensure_local_playability_spec in E1 as (C1 & Htop & Hleft & Hcenter).
  apply _add_forests_cellwise in E2. apply _smooth_terrain_cellwise in E3.
  apply _place_resource_nodes_cellwise in E4.
  assert (C : cellwise g1 g') by eauto using cellwise_trans.
  assert (C' : cellwise g g') by eauto using cellwise_trans.
  pose proof (cellwise_rectangular w g g' C' Hrect) as Hrect'.
  pose proof (cellwise_length g g' C') as Hlen.
  split.
  - intros j i row tile Hrow Htile Hb.
    assert (Hj : (j < length g)%nat)
      by (rewrite <- Hlen; by eapply lookup_lt_Some).
    assert (Hw : length row = w)
      by (unfold rectangular in Hrect'; rewrite Forall_lookup in Hrect'; eauto).
    assert (Hi : (i < w)%nat) by (rewrite <- Hw; by eapply lookup_lt_Some).
    assert (Hgw : grid_width g = Z.of_nat w)
      by (apply rectangular_width; [done|]; intros ->; simpl in Hj; lia).
    assert (Hgh : grid_height g = Z.of_nat (length g)) by done.
    destruct (Htop (Z.of_nat i) ltac:(lia)) as [T1 T2].
    destruct (Hleft (Z.of_nat j) ltac:(lia)) as [L1 L2].
    rewrite Nat2Z.id in T1, T2, L1, L2.
    destruct Hb as [->|[Hb|[->|Hb]]].
    + by apply (cellwise_dry _ _ _ _ C T1 row).
    + replace (Z.to_nat (grid_height g - 1)) with j in T2 by lia.
      by apply (cellwise_dry _ _ _ _ C T2 row).
    + by apply (cellwise_dry _ _ _ _ C L1 row).
    + replace (Z.to_nat (grid_width g - 1)) with i in L2 by lia.
      by apply (cellwise_dry _ _ _ _ C L2 row).
  - intros j i row tile Hrow Htile Hy Hx.
    rewrite (cellwise_height g g' C') in Hy. rewrite (cellwise_width g g' C') in Hx.
    assert (Hj : (j < length g)%nat)
      by (rewrite <- Hlen; by eapply lookup_lt_Some).
    assert (Hw : length row = w)
      by (unfold rectangular in Hrect'; rewrite Forall_lookup in Hrect'; eauto).
    assert (Hi : (i < w)%nat) by (rewrite <- Hw; by eapply lookup_lt_Some).
    assert (Hgw : grid_width g = Z.of_nat w)
      by (apply rectangular_width; [done|]; intros ->; simpl in Hj; lia).
    assert (Hgh : grid_height g = Z.of_nat (length g)) by done.
    pose proof (Hcenter (Z.of_nat j) (Z.of_nat i) ltac:(lia) ltac:(lia) Hy Hx) as G.
    rewrite !Nat2Z.id in G.
    by apply (cellwise_green _ _ _ _ C G row).
Qed.

Lemma length_range a b : length (range a b) = Z.to_nat (b - a).
Proof. unfold range. apply length_seqZ. Qed.

(** A loop that appends one item per iteration. *)
Lemma for_each_append_length {A B S : Type} (l : list A)
    (body : A -> list B * S -> outcome (list B * S)) (st st' : list B * S) :
  (forall a st1 st2, body a st1 = Returns st2 ->
                     length (fst st2) = Datatypes.S (length (fst st1))) ->
  for_each l body st = Returns st' ->
  length (fst st') = (length (fst st) + length l)%nat.
Proof.
  intros Hbody. revert st. induction l as [|a l IH]; intros st; simpl.
  - intros [= <-]. lia.
  - destruct (body a st) as [st1|] eqn:E; simpl; [|done].
    intros H. rewrite (IH _ H), (Hbody _ _ _ E). lia.
Qed.

Variable set_iter : list biomes.BiomeType -> list biomes.BiomeType.

Lemma draft_local_map_rectangular self biome_props avg_e avg_m ox oy lw lh s g s' :
  draft_local_map self biome_props avg_e avg_m ox oy lw lh s = Returns (g, s') ->
  rectangular (Z.to_nat lw) g.
Proof.
  unfold draft_local_map. intros H.
  assert (HR : rectangular (Z.to_nat lw) (fst (@nil (list terrain.Tile), s)) ->
               rectangular (Z.to_nat lw) (fst (g, s'))).
  { revert H.
    apply (for_each_rel
             (fun st st' : list (list terrain.Tile) * random.State =>
                rectangular (Z.to_nat lw) (fst st) ->
                rectangular (Z.to_nat lw) (fst st'))); [done|auto|].
    intros y [g1 s1] st2 _.
    destruct (for_each (range 0 lw) _ ([], s1)) as [[row s2]|] eqn:E;
      cbn [obind]; [|done].
    intros [= <-] Hr. simpl in *.
    apply Forall_app. split; [done|]. constructor; [|done].
    apply for_each_append_length in E.
    - simpl in E. rewrite E, length_range. f_equal. lia.
    - intros x [r1 s3] st4.
      destruct (_get_terrain_from_biome _ _ _ s3) as [t s4].
      intros [= <-]. simpl. rewrite length_app. simpl. lia. }
  apply HR. constructor.
Qed.

Lemma fallback_all_grass width height j i row tile :
  _generate_fallback_map width height !! j = Some row ->
  row !! i = Some tile ->
  terrain.terrain_type tile = terrain.GRASS.
Proof.
  unfold _generate_fallback_map. rewrite list_lookup_fmap.
  destruct (range 0 height !! j) as [y|]; [|done]. simpl. intros [= <-].
  rewrite list_lookup_fmap.
  destruct (range 0 width !! i) as [x|]; [|done]. simpl. by intros [= <-].
Qed.

(** What [generate_local_map] guarantees, whatever the noise, the region
    and the draws are: no Water on the border ring, and nothing but Grass,
    Dirt and Forest in the central 11 x 11 block. *)
Lemma local_map_playable self region_tiles chunk_x chunk_y chunk_width
    chunk_height local_width local_height s tiles s' :
  generate_local_map set_iter fsqrt self region_tiles chunk_x chunk_y
    chunk_width chunk_height local_width local_height s = Returns (tiles, s') ->
  border_dry tiles /\ center_block green tiles.
Proof.
  unfold generate_local_map.
  destruct (chunk_of _ _ _ _ _) as [chunk_tiles|]; cbn [obind]; [|done].
  destruct chunk_tiles as [|t0 chunk_tiles].
  - intros [= <- <-]. split.
    + intros j i row tile Hrow Htile _.
      by rewrite (fallback_all_grass _ _ _ _ _ _ Hrow Htile).
    + intros j i row tile Hrow Htile _ _.
      rewrite (fallback_all_grass _ _ _ _ _ _ Hrow Htile). unfold green. set_solver.
  - destruct (set_iter _) as [|b0 others]; [done|].
    destruct (draft_local_map _ _ _ _ _ _ _ _ _) as [[g s1]|] eqn:E;
      cbn [obind]; [|done].
    apply draft_local_map_rectangular in E.
    by apply finish_local_map_spec with (w := Z.to_nat local_width).
Qed.

End GeneratorFacts.

Section WorldMapFacts.
Import world_generator_advanced.

Lemma for_each_append_pure {A B S : Type} (l : list A) (f : A -> B)
    (acc : list B) (s : S) :
  for_each l (fun a '(row, s) => Returns (row ++ [f a], s)) (acc, s)
  = Returns (acc ++ (f <$> l), s).
Proof.
  revert acc. induction l as [|a l IH]; intros acc; simpl.
  - by rewrite app_nil_r.
  - rewrite IH. by rewrite <- app_assoc.
Qed.

Lemma world_rows_loop self width height (ys : list Z)
    (acc : list (list WorldTile.t)) (s : random.State) :
  for_each ys
    (fun y '(world_tiles, s) =>
       obind
         (for_each (range 0 width)
            (fun x '(row, s) =>
               Returns (row ++ [world_tile self width height x y], s))
            ([], s))
         (fun '(row, s) => Returns (world_tiles ++ [row], s)))
    (acc, s)
  = Returns (acc ++ ((fun y => (fun x => world_tile self width height x y)
                                 <$> range 0 width) <$> ys), s).
Proof.
  revert acc. induction ys as [|y ys IH]; intros acc; simpl.
  - by rewrite app_nil_r.
  - rewrite (for_each_append_pure (range 0 width)
               (fun x => world_tile self width height x y) [] s).
    simpl. rewrite IH. by rewrite <- app_assoc.
Qed.

(** [generate_world_map] returns the grid of the cell function
    [world_tile] and leaves the random generator where it found it. *)
Lemma generate_world_map_cells self width height s :
  generate_world_map self width height s
  = Returns ((fun y => (fun x => world_tile self width height x y)
                         <$> range 0 width) <$> range 0 height, s).
Proof. unfold generate_world_map. by rewrite world_rows_loop. Qed.

(** C4. For a fixed seed, two generators built with that seed, at
    whatever points of the program's random stream they are built and
    called, return the same world grid for the same width and height (so
    elevation, temperature, rainfall and biome agree cell by cell); the
    call makes no draw. *)
Theorem C4_world_map_deterministic
    (noise2 : Z -> Q -> Q -> Q) (seeded : Z -> nat -> Z)
    (seed width height : Z) (s1 s2 r1 r2 : random.State) :
  exists g1 g2 s1' s2' tiles,
    __init__ noise2 seeded (Some seed) s1 = Returns (g1, s1')
    /\ __init__ noise2 seeded (Some seed) s2 = Returns (g2, s2')
    /\ generate_world_map g1 width height r1 = Returns (tiles, r1)
    /\ generate_world_map g2 width height r2 = Returns (tiles, r2).
Proof.
  eexists _, _, _, _, _. split; [reflexivity|]. split; [reflexivity|].
  split; apply generate_world_map_cells.
Qed.

End WorldMapFacts.

Section GeneratorEvaluation.
Import world_generator_advanced gen_facts.

(** C1 (evaluation of the code). On a 13 x 13 local map drafted as plain
    Grass, with the first forest seed drawn on the centre tile (6, 6),
    the finished map has Forest on that tile: the central 11 x 11 block
    is not made of Grass and Dirt only. The forest pass runs after the
    pass that clears the centre. *)
Theorem C1_forest_in_center_block :
  exists tiles s row tile,
    scenario.local_map = Returns (tiles, s)
    /\ grid_height tiles = 13 /\ grid_width tiles = 13
    /\ tiles !! 6%nat = Some row /\ row !! 6%nat = Some tile
    /\ terrain.terrain_type tile = terrain.FOREST
    /\ ~ center_block (fun t => t = terrain.GRASS \/ t = terrain.DIRT) tiles.
Proof.
  eexists _, _, _, _.
  split; [vm_compute; reflexivity|].
  split; [reflexivity|]. split; [reflexivity|].
  split; [reflexivity|]. split; [reflexivity|]. split; [reflexivity|].
  intros H.
  match type of H with
  | center_block _ ?g =>
      destruct (H 6%nat 6%nat _ _ (eq_refl : g !! 6%nat = Some _) eq_refl)
        as [E|E];
        [vm_compute; split; discriminate | vm_compute; split; discriminate
        | discriminate | discriminate]
  end.
Qed.

End GeneratorEvaluation.

(* ================================================================== *)
(** * Further properties of the code *)
(* ================================================================== *)

Section ResourceMore.
Import resource.

(** Per call: what [gather] hands out is taken from the node. *)
Lemma gather_conserves (r : Resource) :
  snd (fst (gather r)) + amount_remaining (snd (gather r)) = amount_remaining r.
Proof.
  unfold gather. destruct (_ || _); simpl; [lia|].
  destruct (amount_remaining r - _ <=? 0); simpl; lia.
Qed.

Lemma total_yield_conserves (n : nat) (r : Resource) :
  total_yield n r + amount_remaining (gather_n n r) = amount_remaining r.
Proof.
  revert r. induction n as [|n IH]; intros r; simpl; [lia|].
  pose proof (gather_conserves r). specialize (IH (snd (gather r))). lia.
Qed.

(** The constants that [__post_init__] gives to a node of each kind. *)
Lemma node_state_kind (r : Resource) :
  node_state r ->
  provides_resource r = provides_resource (new (resource_type r) 0 0)
  /\ provides_amount r = provides_amount (new (resource_type r) 0 0)
  /\ gather_time r = gather_time (new (resource_type r) 0 0)
  /\ max_amount r = max_amount (new (resource_type r) 0 0).
Proof.
  induction 1 as [ty px py | r _ IH | r c _ IH | r _ IH | r b _ IH | r _ IH];
    try exact IH.
  - by destruct ty.
  - unfold gather. destruct (_ || _); simpl; [exact IH|].
    destruct (amount_remaining r - _ <=? 0); exact IH.
  - destruct IH as (I1 & I2 & I3 & I4).
    destruct r as [[] ? ? ? ? ? ? ? ? ? ? ?]; simpl in *; done.
Qed.

Lemma node_state_amount (r : Resource) :
  node_state r -> 0 <= amount_remaining r <= max_amount r.
Proof.
  induction 1 as [ty px py | r Hr IH | r c _ IH | r _ IH | r b _ IH | r _ IH];
    try exact IH.
  - destruct ty; simpl; lia.
  - destruct (node_state_inv r Hr) as [Hp _].
    unfold gather. destruct (_ || _) eqn:E; simpl; [exact IH|].
    apply orb_false_elim in E as [_ E]. apply Z.leb_gt in E.
    destruct (amount_remaining r - _ <=? 0); simpl; lia.
  - destruct r as [[] ? ? ? ? ? ? ? ? ? ? ?]; simpl; lia.
Qed.

Lemma gather_yield_bounds (r : Resource) :
  node_state r ->
  0 <= snd (fst (gather r)) <= provides_amount r
  /\ (is_depleted r = false -> 0 < snd (fst (gather r))).
Proof.
  intros Hr. destruct (node_state_inv r Hr) as [Hp Hd].
  pose proof (node_state_amount r Hr) as Ha.
  unfold gather. destruct (is_depleted r) eqn:E; simpl; [split; [lia|done]|].
  destruct (amount_remaining r <=? 0) eqn:E2; simpl.
  - apply Z.leb_le in E2. specialize (Hd E2). congruence.
  - apply Z.leb_gt in E2. split; [|intros _]; lia.
Qed.

Lemma total_yield_nonneg (n : nat) (r : Resource) :
  node_state r -> 0 <= total_yield n r.
Proof.
  revert r. induction n as [|n IH]; intros r Hr; simpl; [lia|].
  pose proof (gather_yield_bounds r Hr) as [? _].
  specialize (IH (snd (gather r)) (ns_gather r Hr)). lia.
Qed.

Lemma gather_n_exhausts (n : nat) (r : Resource) :
  node_state r -> is_depleted r = false -> amount_remaining r <= Z.of_nat n ->
  amount_remaining (gather_n n r) = 0 /\ is_depleted (gather_n n r) = true.
Proof.
  revert r. induction n as [|n IH]; intros r Hr Hd Hn.
  - destruct (node_state_inv r Hr) as [_ Hi]. rewrite Hi in Hd by lia. done.
  - simpl. pose proof (ns_gather r Hr) as Hr1.
    pose proof (gather_conserves r) as Hc.
    destruct (gather_yield_bounds r Hr) as [_ Hy]. specialize (Hy Hd).
    pose proof (node_state_amount _ Hr1) as Ha1.
    destruct (is_depleted (snd (gather r))) eqn:Hd1.
    + rewrite gather_n_depleted by done. split; [|done].
      assert (amount_remaining (snd (gather r)) <= 0); [|lia].
      revert Hd1. unfold gather. rewrite Hd. simpl.
      destruct (amount_remaining r <=? 0) eqn:E; simpl; [lia|].
      destruct (amount_remaining r - _ <=? 0) eqn:E2; simpl;
        [intros _; by apply Z.leb_le in E2 | congruence].
    + apply IH; [done|done|lia].
Qed.

(** X1. Over the life of a node nothing is lost and nothing is made up:
    the amounts handed out by any number of [gather()] calls plus what
    remains is what the node held; each call hands out between 0 and
    [provides_amount]; and a node that is not depleted is emptied and
    flagged depleted by as many calls as it holds units, having handed
    out exactly what it held. *)
Theorem X1_gather_lifetime_yield (r : Resource) (n : nat) :
  node_state r ->
  total_yield n r + amount_remaining (gather_n n r) = amount_remaining r
  /\ 0 <= snd (fst (gather r)) <= provides_amount r
  /\ 0 <= total_yield n r <= amount_remaining r
  /\ (is_depleted r = false -> amount_remaining r <= Z.of_nat n ->
      amount_remaining (gather_n n r) = 0
      /\ is_depleted (gather_n n r) = true
      /\ total_yield n r = amount_remaining r).
Proof.
  intros Hr. pose proof (total_yield_conserves n r) as Hc.
  pose proof (total_yield_nonneg n r Hr) as Hy.
  pose proof (node_state_amount _ (node_state_gather_n n r Hr)) as Ha.
  split; [exact Hc|]. split; [by apply gather_yield_bounds|].
  split; [lia|]. intros Hd Hn.
  destruct (gather_n_exhausts n r Hr Hd Hn) as [H0 H1]. repeat split; [done|done|lia].
Qed.

Lemma X1_gather_lifetime_yield_witness :
  node_state (new STONE 4 7)
  /\ total_yield 3 (new STONE 4 7) = 24
  /\ amount_remaining (gather_n 24 (new STONE 4 7)) = 0
  /\ is_depleted (gather_n 24 (new STONE 4 7)) = true.
Proof.
  assert (Hs : node_state (new STONE 4 7)) by constructor.
  destruct (X1_gather_lifetime_yield (new STONE 4 7) 24 Hs) as (_ & _ & _ & H).
  destruct (H eq_refl ltac:(vm_compute; discriminate)) as (H0 & H1 & _).
  split; [exact Hs|]. split; [reflexivity|]. split; [exact H0 | exact H1].
Defined.

(** X2. A save/load round trip of a node keeps its kind, its position,
    what it provides and its depletion flag, but refills
    [amount_remaining] to [max_amount] and forgets both the claim of a
    citizen and the designation. *)
Theorem X2_resource_round_trip_refills (r : Resource) :
  node_state r ->
  from_dict (to_dict r)
  = set_designated
      (unassign_citizen (set_amount_remaining r (max_amount r))) false.
Proof.
  intros Hr. destruct (node_state_kind r Hr) as (I1 & I2 & I3 & I4).
  destruct r as [[] ? ? ? ? ? ? ? ? ? ? ?]; simpl in *; subst;
    reflexivity.
Qed.

Lemma X2_resource_round_trip_refills_witness :
  let r := snd (gather (set_designated (new STONE 4 7) true)) in
  node_state r
  /\ amount_remaining r = 16
  /\ amount_remaining (from_dict (to_dict r)) = 24
  /\ designated (from_dict (to_dict r)) = false.
Proof.
  intros r.
  assert (Hs : node_state r) by (repeat constructor).
  split; [exact Hs|]. split; [reflexivity|].
  rewrite (X2_resource_round_trip_refills r Hs). split; reflexivity.
Defined.

End ResourceMore.

Section BuildingMore.
Import building.

(** X3. A save/load round trip of a building gives the building back,
    field by field. *)
Theorem X3_building_round_trip (b : Building) : from_dict (to_dict b) = b.
Proof. by destruct b. Qed.

Lemma elem_of_needed_of (m : gmap string Z) (req : list (string * Z))
    (k : string) (n : Z) :
  (k, n) ∈ needed_of m req
  <-> exists a, (k, a) ∈ req /\ dict_get m k < a /\ n = a - dict_get m k.
Proof.
  induction req as [|[k' a'] req IH]; simpl.
  - split; [intros H; by apply elem_of_nil in H|].
    intros (a & H & _). by apply elem_of_nil in H.
  - destruct (Z.ltb_spec (dict_get m k') a') as [Hlt|Hge].
    + rewrite elem_of_cons, IH. split.
      * intros [[= -> ->]|(a & Hin & ? & ?)].
        -- exists a'. split; [left|done].
        -- exists a. split; [by right|done].
      * intros (a & Hin & Hl & ->).
        apply elem_of_cons in Hin as [[= <- <-]|Hin]; [by left|].
        right. by exists a.
    + rewrite IH. split.
      * intros (a & Hin & ? & ?). exists a. split; [by right|done].
      * intros (a & Hin & Hl & ->).
        apply elem_of_cons in Hin as [[= <- <-]|Hin]; [lia|]. by exists a.
Qed.

(** X4. [get_required_materials] lists exactly the shortfalls: a kind
    appears with amount [n] when the definition requires more of it than
    was delivered, [n] being the difference, so every listed amount is
    positive; and [has_all_materials] holds exactly when every required
    amount is covered by the deliveries. *)
Theorem X4_required_materials_are_shortfalls (b : Building) :
  (forall k n,
     (k, n) ∈ get_required_materials b
     <-> exists a, (k, a) ∈ required_resources (get_definition b)
                   /\ dict_get (materials_delivered b) k < a
                   /\ n = a - dict_get (materials_delivered b) k)
  /\ (forall k n, (k, n) ∈ get_required_materials b -> 0 < n)
  /\ (has_all_materials b = true
      <-> forall k a, (k, a) ∈ required_resources (get_definition b) ->
                      a <= dict_get (materials_delivered b) k).
Proof.
  split; [intros k n; apply elem_of_needed_of|].
  split.
  { intros k n H. apply elem_of_needed_of in H as (a & _ & ? & ->). lia. }
  unfold has_all_materials. rewrite Nat.eqb_eq. split.
  - intros Hlen k a Hin.
    destruct (Z.le_gt_cases a (dict_get (materials_delivered b) k)) as [|Hlt];
      [done|].
    assert (Hn : (k, a - dict_get (materials_delivered b) k)
                 ∈ get_required_materials b)
      by (apply elem_of_needed_of; exists a; split; [done|split; [lia|done]]).
    destruct (get_required_materials b); [by apply elem_of_nil in Hn|done].
  - intros Hall. destruct (get_required_materials b) as [|[k n] l] eqn:E; [done|].
    assert (Hn : (k, n) ∈ get_required_materials b) by (rewrite E; left).
    apply elem_of_needed_of in Hn as (a & Hin & Hlt & _).
    specialize (Hall k a Hin). lia.
Qed.

Lemma deliver_all_other (loads : list (string * Z)) (b : Building) (k : string) :
  k ∉ loads.*1 ->
  dict_get (materials_delivered (deliver_all b loads)) k
  = dict_get (materials_delivered b) k.
Proof.
  revert b. induction loads as [|[k' n] loads IH]; intros b Hk; [done|].
  unfold deliver_all in *. simpl in *.
  apply not_elem_of_cons in Hk as [Hne Hk].
  rewrite IH by done. unfold deliver_material. simpl.
  by apply dict_get_insert_ne.
Qed.

Lemma deliver_all_definition (loads : list (string * Z)) (b : Building) :
  get_definition (deliver_all b loads) = get_definition b.
Proof.
  revert b. induction loads as [|[k n] loads IH]; intros b; [done|].
  unfold deliver_all in *. simpl. by rewrite IH.
Qed.

Lemma needed_of_keys (m : gmap string Z) (req : list (string * Z)) (k : string) :
  k ∈ (needed_of m req).*1 -> k ∈ req.*1.
Proof.
  intros H. apply list_elem_of_fmap in H as ([k' n] & -> & H).
  apply elem_of_needed_of in H as (a & Hin & _).
  apply list_elem_of_fmap. by exists (k', a).
Qed.

Lemma deliver_needed_covers (req : list (string * Z)) (b : Building) :
  NoDup req.*1 ->
  needed_of (materials_delivered
               (deliver_all b (needed_of (materials_delivered b) req))) req = [].
Proof.
  revert b. induction req as [|[k a] req IH]; intros b Hnd; [done|].
  apply NoDup_cons in Hnd as [Hk Hnd]. simpl.
  destruct (Z.ltb_spec (dict_get (materials_delivered b) k) a) as [Hlt|Hge].
  - unfold deliver_all. simpl. fold (deliver_all (deliver_material b k
        (a - dict_get (materials_delivered b) k))
        (needed_of (materials_delivered b) req)).
    set (b1 := deliver_material b k (a - dict_get (materials_delivered b) k)).
    assert (E : needed_of (materials_delivered b) req
                = needed_of (materials_delivered b1) req).
    { apply needed_of_ext. intros k' a' Hin. symmetry.
      apply dict_get_insert_ne. intros ->. apply Hk.
      apply list_elem_of_fmap. by exists (k', a'). }
    rewrite E.
    rewrite deliver_all_other
      by (intros H; apply needed_of_keys in H; by apply Hk).
    replace (dict_get (materials_delivered b1) k) with a
      by (unfold b1, deliver_material; simpl; rewrite dict_get_insert_eq; lia).
    rewrite Z.ltb_irrefl. by apply IH.
  - rewrite deliver_all_other
      by (intros H; apply needed_of_keys in H; by apply Hk).
    destruct (Z.ltb_spec (dict_get (materials_delivered b) k) a); [lia|].
    by apply IH.
Qed.

(** X5. Delivering to a building exactly what [get_required_materials]
    reports leaves nothing required: [has_all_materials] holds
    afterwards, for every building type of the catalogue. *)
Theorem X5_delivering_the_shortfalls_completes (b : Building) :
  has_all_materials (deliver_all b (get_required_materials b)) = true
  /\ get_required_materials (deliver_all b (get_required_materials b)) = [].
Proof.
  assert (E : get_required_materials (deliver_all b (get_required_materials b))
              = []).
  { unfold get_required_materials. rewrite deliver_all_definition.
    apply deliver_needed_covers.
    unfold get_definition.
    destruct (building_type b); apply (bool_decide_unpack _); by vm_compute. }
  split; [|exact E]. unfold has_all_materials. by rewrite E.
Qed.

Lemma remove_first_not_in (v : Z) (l : list Z) :
  NoDup l -> v ∉ remove_first v l.
Proof.
  induction l as [|a l IH]; intros Hnd; simpl; [apply not_elem_of_nil|].
  apply NoDup_cons in Hnd as [Ha Hnd].
  destruct (bool_decide (a = v)) eqn:E.
  - apply bool_decide_eq_true in E. by subst.
  - apply bool_decide_eq_false in E. apply not_elem_of_cons. split; [done|auto].
Qed.

Lemma remove_first_subseteq (v : Z) (l : list Z) (u : Z) :
  u ∈ remove_first v l -> u ∈ l.
Proof.
  induction l as [|a l IH]; simpl; [done|].
  destruct (bool_decide (a = v)); [by right|].
  intros H. apply elem_of_cons in H as [->|H]; [left|right; auto].
Qed.

Lemma remove_first_NoDup (v : Z) (l : list Z) : NoDup l -> NoDup (remove_first v l).
Proof.
  induction l as [|a l IH]; intros Hnd; simpl; [done|].
  apply NoDup_cons in Hnd as [Ha Hnd].
  destruct (bool_decide (a = v)); [done|].
  apply NoDup_cons. split; [|auto].
  intros H. by apply remove_first_subseteq in H.
Qed.

Lemma remove_first_app_new (v : Z) (l : list Z) :
  v ∉ l -> remove_first v (l ++ [v]) = l.
Proof.
  induction l as [|a l IH]; intros Hv; simpl.
  - by rewrite bool_decide_eq_true_2.
  - apply not_elem_of_cons in Hv as [Hne Hv].
    rewrite bool_decide_eq_false_2 by done. by rewrite IH.
Qed.

(** X6. The worker list of a building never holds a citizen twice:
    [assign_worker] adds a citizen that is not on the list (whatever
    [max_workers] says) and leaves the list alone otherwise,
    [remove_worker] takes the citizen off the list, and removing a
    citizen just assigned gives the building back. *)
Theorem X6_worker_list (b : Building) (c : Z) :
  NoDup (assigned_workers b) ->
  NoDup (assigned_workers (assign_worker b c))
  /\ c ∈ assigned_workers (assign_worker b c)
  /\ assign_worker (assign_worker b c) c = assign_worker b c
  /\ (c ∉ assigned_workers b ->
      length (assigned_workers (assign_worker b c))
      = S (length (assigned_workers b))
      /\ assigned_workers (remove_worker (assign_worker b c) c)
         = assigned_workers b)
  /\ NoDup (assigned_workers (remove_worker b c))
  /\ c ∉ assigned_workers (remove_worker b c).
Proof.
  intros Hnd. unfold assign_worker, remove_worker.
  destruct (bool_decide (c ∈ assigned_workers b)) eqn:E.
  - apply bool_decide_eq_true in E. rewrite bool_decide_eq_true_2 by done.
    simpl. repeat split; try done.
    + by apply remove_first_NoDup.
    + by apply remove_first_not_in.
  - apply bool_decide_eq_false in E. simpl.
    assert (Hin : c ∈ assigned_workers b ++ [c]) by set_solver.
    rewrite bool_decide_eq_true_2 by done. simpl.
    repeat split; try done.
    + apply NoDup_app. repeat split; [done| |apply NoDup_singleton].
      intros x Hx Hx'. apply list_elem_of_singleton in Hx'. by subst.
    + rewrite length_app. simpl. lia.
    + by apply remove_first_app_new.
Qed.

Lemma X6_worker_list_witness :
  let b := assign_worker (assign_worker (new 7 WORKSHOP 3 3) 11) 12 in
  assigned_workers (assign_worker b 11) = [11; 12]
  /\ assigned_workers (remove_worker (assign_worker b 13) 13) = [11; 12]
  /\ 11 ∉ assigned_workers (remove_worker b 11).
Proof.
  intros b.
  assert (Hnd : NoDup (assigned_workers b))
    by (apply (bool_decide_unpack _); by vm_compute).
  destruct (X6_worker_list b 11 Hnd) as (_ & _ & _ & _ & _ & H6).
  destruct (X6_worker_list b 13 Hnd) as (_ & _ & _ & H4 & _).
  split; [reflexivity|]. split; [|exact H6].
  apply H4. apply (bool_decide_unpack _). by vm_compute.
Defined.

End BuildingMore.

Section PathfindingMore.
Import pathfinding path_facts gen_facts.

(** X7. The obstacle set that [find_path] builds holds exactly the tiles
    inside the grid that some building occupies according to
    [occupies_tile]. *)
Theorem X7_obstacles_are_occupied_tiles (width height : Z)
    (buildings : list building.Building) (px py : Z) :
  (px, py) ∈ building_obstacle_map width height buildings
  <-> (0 <= px < width /\ 0 <= py < height)
      /\ exists b, b ∈ buildings /\ building.occupies_tile b px py = true.
Proof. apply elem_of_building_obstacle_map. Qed.

Lemma stepwise_snoc (l : list (Z * Z)) (q p : Z * Z) :
  stepwise l -> last l = Some q -> adjacent q p -> stepwise (l ++ [p]).
Proof.
  induction l as [|a l IH]; [done|].
  destruct l as [|b l]; simpl.
  - intros _ [= ->] Hadj. done.
  - intros [Hab Hs] Hlast Hadj. split; [done|]. by apply IH.
Qed.

Lemma last_rev_chain (n : Node) : last (rev (chain n)) = Some (x n, y n).
Proof. destruct n as [f g h px py p]. simpl. by rewrite last_snoc. Qed.

Lemma linked_stepwise (n : Node) : linked n -> stepwise (rev (chain n)).
Proof.
  revert n. fix IH 1. intros [f g h px py [q|]]; simpl; [|done].
  intros [Hadj Hq]. eapply stepwise_snoc; [by apply IH|apply last_rev_chain|done].
Qed.

Section SearchMore.

Variable fsqrt : Q -> Q.
Variable heappush : list Node -> Node -> list Node.
Variable heappop : Node -> list Node -> Node * list Node.
Hypothesis heappush_perm : forall l n, heappush l n ≡ₚ n :: l.
Hypothesis heappop_perm :
  forall n0 rest n l, heappop n0 rest = (n, l) -> n0 :: rest ≡ₚ n :: l.

Lemma visit_neighbor_linked tiles obstacles closed width height goal_x goal_y
    current d open_list open_list' :
  d ∈ directions -> linked current -> Forall linked open_list ->
  visit_neighbor fsqrt heappush tiles obstacles closed width height
    goal_x goal_y current d open_list = Returns open_list' ->
  Forall linked open_list'.
Proof.
  intros Hd Hc Ho. unfold visit_neighbor. destruct d as [dx dy].
  destruct (negb _); [by intros [= <-]|].
  destruct (bool_decide _); [by intros [= <-]|].
  destruct (_is_walkable _ _ _ _) as [[]|]; simpl; [|by intros [= <-]|done].
  intros [= <-]. rewrite heappush_perm. constructor; [|done].
  simpl. split; [|done]. unfold adjacent. simpl.
  by replace (x current + dx - x current) with dx by lia;
     replace (y current + dy - y current) with dy by lia.
Qed.

Lemma search_linked fuel tiles obstacles width height goal_x goal_y
    open_list closed path :
  Forall linked open_list ->
  search fsqrt heappush heappop fuel tiles obstacles width height goal_x goal_y
    open_list closed = Returns (Some path) ->
  stepwise path /\ last path = Some (goal_x, goal_y).
Proof.
  revert open_list closed.
  induction fuel as [|fuel IH]; intros ol closed Ho; cbn [search]; [done|].
  destruct ol as [|n0 rest0]; [done|].
  destruct (heappop n0 rest0) as [current ol1] eqn:Hpop.
  apply heappop_perm in Hpop. rewrite Hpop in Ho.
  apply Forall_cons in Ho as [Hc Ho1].
  destruct ((x current =? goal_x) && (y current =? goal_y)) eqn:Hg.
  - intros [= <-]. split; [by apply linked_stepwise|].
    unfold _reconstruct_path. rewrite last_rev_chain. f_equal. f_equal; lia.
  - match goal with
    | |- context [for_each ?ds ?body ol1] =>
        destruct (for_each ds body ol1) as [ol2|] eqn:E; simpl; [|done]
    end.
    apply IH.
    assert (HR : Forall linked ol1 -> Forall linked ol2); [|by apply HR].
    revert E.
    apply (for_each_rel (fun o o' => Forall linked o -> Forall linked o'));
      [done|auto|].
    intros d o1 o2 Hd E Ho'. by eapply visit_neighbor_linked.
Qed.

End SearchMore.

(** X8. Whatever discipline the priority queue follows, a path returned
    by [find_path] starts on the start tile, ends on the goal tile, and
    goes from each waypoint to the next by one step in one of the eight
    directions. *)
Theorem X8_path_connects_start_to_goal
    (fsqrt : Q -> Q) (heappush : list Node -> Node -> list Node)
    (heappop : Node -> list Node -> Node * list Node)
    (start_x start_y goal_x goal_y : Z) (tiles : list (list terrain.Tile))
    (buildings : list building.Building) (max_iterations : Z)
    (path : list (Z * Z)) :
  (forall l n, heappush l n ≡ₚ n :: l) ->
  (forall n0 rest n l, heappop n0 rest = (n, l) -> n0 :: rest ≡ₚ n :: l) ->
  find_path fsqrt heappush heappop start_x start_y goal_x goal_y tiles buildings
    max_iterations = Returns (Some path) ->
  head path = Some (start_x, start_y)
  /\ last path = Some (goal_x, goal_y)
  /\ stepwise path.
Proof.
  intros Hpush Hpop Hfind.
  assert (Hhead : head path = Some (start_x, start_y)).
  { revert Hfind. unfold find_path.
    destruct tiles as [|row0 rows]; [done|].
    destruct (length row0 =? 0)%nat; [done|].
    destruct (negb _); [done|]. destruct (negb _); [done|].
    destruct (_ && _); [by intros [= <-]|].
    intros Hs.
    eapply (search_from_start fsqrt heappush heappop Hpush Hpop) in Hs
      as (rest & -> & _); [done|].
    rewrite Hpush. by repeat constructor. }
  split; [exact Hhead|].
  revert Hfind. unfold find_path.
  destruct tiles as [|row0 rows]; [done|].
  destruct (length row0 =? 0)%nat; [done|].
  destruct (negb _); [done|]. destruct (negb _); [done|].
  destruct ((start_x =? goal_x) && (start_y =? goal_y)) eqn:E.
  { intros [= <-]. simpl. split; [|done]. f_equal. f_equal; lia. }
  intros Hs.
  eapply (search_linked fsqrt heappush heappop Hpush Hpop) in Hs as [? ?]; [done|].
  rewrite Hpush. by repeat constructor.
Qed.

Lemma X8_path_connects_start_to_goal_witness :
  head [(0, 0); (1, 1); (2, 0)] = Some (0, 0)
  /\ last [(0, 0); (1, 1); (2, 0)] = Some (2, 0)
  /\ stepwise [(0, 0); (1, 1); (2, 0)].
Proof.
  apply (X8_path_connects_start_to_goal approx_sqrt push_back pop_min 0 0 2 0
           (scenario.grass_grid 3 2) [scenario.well] 1000
           [(0, 0); (1, 1); (2, 0)] push_back_perm pop_min_perm).
  vm_compute. reflexivity.
Defined.

Lemma for_each_returns {A S : Type} (l : list A) (body : A -> S -> outcome S)
    (s : S) :
  (forall a s0, a ∈ l -> exists s1, body a s0 = Returns s1) ->
  exists s', for_each l body s = Returns s'.
Proof.
  revert s. induction l as [|a l IH]; intros s Hbody; simpl; [by eexists|].
  destruct (Hbody a s ltac:(left)) as [s1 ->]. simpl.
  apply IH. intros a' s0 Ha'. apply Hbody. by right.
Qed.

Lemma norm_index_in_range (len : nat) (i : Z) :
  0 <= i < Z.of_nat len -> norm_index len i = Some (Z.to_nat i).
Proof.
  intros Hi. unfold norm_index.
  destruct (Z.ltb_spec i 0); [lia|].
  by replace ((0 <=? i) && (i <? Z.of_nat len)) with true by lia.
Qed.

Lemma tile_at_rectangular (w : nat) (tiles : list (list terrain.Tile)) (ty tx : Z) :
  rectangular w tiles ->
  0 <= ty < Z.of_nat (length tiles) -> 0 <= tx < Z.of_nat w ->
  exists row tile,
    tiles !! Z.to_nat ty = Some row /\ row !! Z.to_nat tx = Some tile
    /\ terrain.tile_at tiles ty tx = Returns tile.
Proof.
  intros Hrect Hy Hx. unfold terrain.tile_at, py_index.
  rewrite norm_index_in_range by done.
  destruct (lookup_lt_is_Some_2 tiles (Z.to_nat ty) ltac:(lia)) as [row Hrow].
  assert (Hlen : length row = w)
    by (unfold rectangular in Hrect; rewrite Forall_lookup in Hrect; eauto).
  rewrite Hrow. simpl. rewrite norm_index_in_range by lia.
  destruct (lookup_lt_is_Some_2 row (Z.to_nat tx) ltac:(lia)) as [tile Htile].
  rewrite Htile. by exists row, tile.
Qed.

Lemma search_returns fsqrt heappush heappop (w : nat) fuel tiles obstacles
    goal_x goal_y open_list closed :
  rectangular w tiles ->
  exists r,
    search fsqrt heappush heappop fuel tiles obstacles (Z.of_nat w)
      (Z.of_nat (length tiles)) goal_x goal_y open_list closed = Returns r.
Proof.
  intros Hrect. revert open_list closed.
  induction fuel as [|fuel IH]; intros ol closed; cbn [search]; [by eexists|].
  destruct ol as [|n0 rest0]; [by eexists|].
  destruct (heappop n0 rest0) as [current ol1].
  destruct (_ && _); [by eexists|].
  match goal with
  | |- context [for_each ?ds ?body ol1] =>
      destruct (for_each_returns ds body ol1) as [ol2 ->]
  end.
  - intros [dx dy] o _. unfold visit_neighbor.
    destruct (negb _) eqn:Hb; [by eexists|]. apply negb_false_iff in Hb.
    destruct (bool_decide _); [by eexists|].
    unfold _is_walkable. destruct (bool_decide _); simpl; [by eexists|].
    destruct (tile_at_rectangular w tiles (y current + dy) (x current + dx) Hrect)
      as (row & tile & _ & _ & ->); [lia|lia|]. simpl.
    destruct (bool_decide _); simpl; by eexists.
  - simpl. apply IH.
Qed.

(** X9. On a rectangular grid [find_path] always returns, with a path or
    with [None]: no tile lookup goes out of range, whatever the buildings,
    the endpoints and the behaviour of the priority queue are. *)
Theorem X9_find_path_never_raises
    (fsqrt : Q -> Q) (heappush : list Node -> Node -> list Node)
    (heappop : Node -> list Node -> Node * list Node)
    (w : nat) (start_x start_y goal_x goal_y : Z)
    (tiles : list (list terrain.Tile)) (buildings : list building.Building)
    (max_iterations : Z) :
  rectangular w tiles ->
  find_path fsqrt heappush heappop start_x start_y goal_x goal_y tiles buildings
    max_iterations ≠ Raises.
Proof.
  intros Hrect. unfold find_path.
  destruct tiles as [|row0 rows]; [done|].
  assert (Hw : length row0 = w)
    by (pose proof Hrect as Hr; by apply Forall_cons in Hr as [? _]).
  destruct (length row0 =? 0)%nat; [done|].
  destruct (negb _); [done|]. destruct (negb _); [done|].
  destruct (_ && _); [done|].
  rewrite Hw.
  match goal with
  | |- search ?f ?pu ?po ?fuel _ ?obs _ _ _ _ ?ol ?cl ≠ _ =>
      destruct (search_returns f pu po w fuel (row0 :: rows) obs goal_x goal_y
                  ol cl Hrect) as [r ->]
  end.
  done.
Qed.

Lemma X9_find_path_never_raises_witness :
  rectangular 3 (scenario.grass_grid 3 2)
  /\ scenario.astar (-4) 9 2 0 (scenario.grass_grid 3 2) [scenario.well] ≠ Raises.
Proof.
  assert (Hr : rectangular 3 (scenario.grass_grid 3 2))
    by (repeat constructor).
  split; [exact Hr|].
  apply (X9_find_path_never_raises approx_sqrt push_back pop_min 3 (-4) 9 2 0
           (scenario.grass_grid 3 2) [scenario.well] 1000 Hr).
Defined.

(** X10. [find_path] returns [None] as soon as the start or the goal is
    outside the grid (an empty grid included); and, the start and the
    goal being different tiles, it never returns a path to a goal tile
    that is Water. *)
Theorem X10_no_path_cases
    (fsqrt : Q -> Q) (heappush : list Node -> Node -> list Node)
    (heappop : Node -> list Node -> Node * list Node)
    (start_x start_y goal_x goal_y : Z) (tiles : list (list terrain.Tile))
    (buildings : list building.Building) (max_iterations : Z) :
  (~ ((0 <= start_x < world_generator_advanced.grid_width tiles
       /\ 0 <= start_y < world_generator_advanced.grid_height tiles)
      /\ (0 <= goal_x < world_generator_advanced.grid_width tiles
          /\ 0 <= goal_y < world_generator_advanced.grid_height tiles)) ->
   find_path fsqrt heappush heappop start_x start_y goal_x goal_y tiles
     buildings max_iterations = Returns None)
  /\ ((forall l n, heappush l n ≡ₚ n :: l) ->
      (forall n0 rest n l, heappop n0 rest = (n, l) -> n0 :: rest ≡ₚ n :: l) ->
      (start_x, start_y) ≠ (goal_x, goal_y) ->
      (exists tile, terrain.tile_at tiles goal_y goal_x = Returns tile
                    /\ terrain.terrain_type tile = terrain.WATER) ->
      forall path,
        find_path fsqrt heappush heappop start_x start_y goal_x goal_y tiles
          buildings max_iterations ≠ Returns (Some path)).
Proof.
  split.
  - unfold find_path, world_generator_advanced.grid_width,
      world_generator_advanced.grid_height.
    destruct tiles as [|row0 rows]; [done|]. cbn [head default].
    destruct (length row0 =? 0)%nat; [done|].
    destruct (negb ((0 <=? start_x) && _ && _ && _)) eqn:E1; [done|].
    destruct (negb ((0 <=? goal_x) && _ && _ && _)) eqn:E2; [done|].
    apply negb_false_iff in E1, E2. intros H. exfalso. apply H. clear H.
    unfold id. lia.
  - intros Hpush Hpop Hne (tile & Htile & Hwater) path.
    unfold find_path.
    destruct tiles as [|row0 rows]; [done|].
    destruct (length row0 =? 0)%nat; [done|].
    destruct (negb _); [done|]. destruct (negb _); [done|].
    destruct ((start_x =? goal_x) && (start_y =? goal_y)) eqn:E.
    { intros _. apply Hne. f_equal; lia. }
    intros Hs.
    assert (Hlast : last path = Some (goal_x, goal_y)).
    { eapply (search_linked fsqrt heappush heappop Hpush Hpop) in Hs as [_ ?];
        [done|]. rewrite Hpush. by repeat constructor. }
    eapply (search_from_start fsqrt heappush heappop Hpush Hpop) in Hs;
      [|rewrite Hpush; by repeat constructor].
    destruct Hs as (rest & Hpath & Hrest). rewrite Hpath in Hlast.
    destruct rest as [|p rest] using rev_ind.
    + simpl in Hlast. apply Hne. by injection Hlast as -> ->.
    + rewrite app_comm_cons, last_snoc in Hlast. injection Hlast as ->.
      apply Forall_app in Hrest as [_ Hp]. apply Forall_inv in Hp.
      destruct Hp as (_ & _ & tile' & Htile' & Hdry).
      rewrite Htile in Htile'. injection Htile' as <-. done.
Qed.

Lemma X10_no_path_cases_witness :
  scenario.astar 0 0 3 0 scenario.pond [] = Returns None
  /\ scenario.astar 0 0 2 0 scenario.pond [] ≠ Returns (Some [(0, 0); (1, 0); (2, 0)]).
Proof.
  split.
  - apply (X10_no_path_cases approx_sqrt push_back pop_min 0 0 3 0
             scenario.pond [] 1000).
    vm_compute. intros [_ [[_ H] _]]. discriminate H.
  - apply (X10_no_path_cases approx_sqrt push_back pop_min 0 0 2 0
             scenario.pond [] 1000);
      [exact push_back_perm|exact pop_min_perm|discriminate|].
    exists (terrain.new 2 0 terrain.WATER). by vm_compute.
Defined.

End PathfindingMore.

Section JobMore.
Import job_manager job_facts.

Variable fsqrt : Q -> Q.
Variable heappush : list pathfinding.Node -> pathfinding.Node -> list pathfinding.Node.
Variable heappop :
  pathfinding.Node -> list pathfinding.Node -> pathfinding.Node * list pathfinding.Node.

(** [min]: the result is the first item of least key. *)
Lemma min_by_split {A : Type} (key : A -> Q) (best : nat * A)
    (items : list (nat * A)) :
  (min_by key best items = best
   /\ Forall (fun p => (key (snd best) <= key (snd p))%Q) items)
  \/ exists pre post,
       items = pre ++ min_by key best items :: post
       /\ (key (snd (min_by key best items)) < key (snd best))%Q
       /\ Forall (fun p => (key (snd (min_by key best items)) < key (snd p))%Q) pre
       /\ Forall (fun p => (key (snd (min_by key best items)) <= key (snd p))%Q) post.
Proof.
  revert best. induction items as [|item rest IH]; intros best; simpl.
  - left. by split.
  - destruct (Qltb (key (snd item)) (key (snd best))) eqn:E.
    + apply Qltb_lt in E. right.
      destruct (IH item) as [[Hr Hall]|(pre & post & Hsplit & Hlt & Hpre & Hpost)].
      * exists [], rest. rewrite Hr. repeat split; [done|constructor|done].
      * exists (item :: pre), post. repeat split.
        -- simpl. by rewrite <- Hsplit.
        -- by eapply Qlt_trans.
        -- by constructor.
        -- done.
    + apply Qltb_ge in E.
      destruct (IH best) as [[Hr Hall]|(pre & post & Hsplit & Hlt & Hpre & Hpost)].
      * left. split; [done|]. by constructor.
      * right. exists (item :: pre), post. repeat split.
        -- simpl. by rewrite <- Hsplit.
        -- done.
        -- constructor; [|done]. by eapply Qlt_le_trans.
        -- done.
Qed.

Lemma elem_of_indexed {A : Type} (l : list A) (i : nat) (a : A) :
  (i, a) ∈ indexed l <-> l !! i = Some a.
Proof.
  unfold indexed. rewrite list_elem_of_lookup. split.
  - intros [j Hj]. apply lookup_zip_Some in Hj as [Hs Ha].
    apply lookup_seq in Hs as [-> _]. done.
  - intros Ha. exists i. apply lookup_zip_Some. split; [|done].
    apply lookup_seq. split; [done|]. by eapply lookup_lt_Some.
Qed.

Lemma indexed_sorted {A : Type} (l : list A) (k : nat) :
  StronglySorted (fun p q : nat * A => (fst p < fst q)%nat)
    (zip (seq k (length l)) l).
Proof.
  revert k. induction l as [|a l IH]; intros k; simpl; constructor; [apply IH|].
  apply Forall_forall. intros [j b] Hin. apply elem_of_zip_l in Hin.
  apply elem_of_seq in Hin. simpl. lia.
Qed.

Lemma filter_sorted {A : Type} (R : relation A) (P : A -> Prop)
    `{!forall a, Decision (P a)} (l : list A) :
  StronglySorted R l -> StronglySorted R (filter P l).
Proof.
  induction 1 as [|a l Hs IH Hall]; [constructor|].
  rewrite filter_cons. destruct (decide (P a)); [|done].
  constructor; [done|].
  apply Forall_forall. intros b Hb. apply list_elem_of_filter in Hb as [_ Hb].
  rewrite Forall_forall in Hall. by apply Hall.
Qed.

(** The choice of [min] over the items of a list that pass a test, taken
    with their positions: the chosen one passes the test, no item that
    passes has a smaller key, and those before it have a larger one. *)
Lemma min_by_filter_indexed {A : Type} (key : A -> Q) (P : nat * A -> Prop)
    `{!forall p, Decision (P p)} (l : list A) b0 rest i a :
  filter P (indexed l) = b0 :: rest ->
  min_by key b0 rest = (i, a) ->
  l !! i = Some a /\ P (i, a)
  /\ forall j other, l !! j = Some other -> P (j, other) ->
       (key a <= key other)%Q /\ ((j < i)%nat -> (key a < key other)%Q).
Proof.
  intros Hf Hm.
  assert (Hsorted : StronglySorted (fun p q : nat * A => (fst p < fst q)%nat)
                      (b0 :: rest)).
  { rewrite <- Hf. apply filter_sorted, indexed_sorted. }
  assert (Hin : forall p, p ∈ b0 :: rest <-> P p /\ l !! fst p = Some (snd p)).
  { intros [j b]. rewrite <- Hf, list_elem_of_filter, elem_of_indexed. done. }
  destruct (min_by_split key b0 rest) as [[Hr Hall]|(pre & post & Hsplit & Hlt & Hpre & Hpost)];
    rewrite Hm in *.
  - subst b0. destruct (proj1 (Hin (i, a)) ltac:(left)) as [HP Hl]. simpl in *.
    split; [done|]. split; [done|]. intros j other Hj HPj.
    assert (Hmem : (j, other) ∈ (i, a) :: rest) by (by apply Hin).
    apply elem_of_cons in Hmem as [[= -> ->]|Hmem].
    + split; [apply Qle_refl|lia].
    + rewrite Forall_forall in Hall. split; [by apply (Hall (j, other))|].
      apply StronglySorted_inv in Hsorted as [_ Hlow].
      rewrite Forall_forall in Hlow. specialize (Hlow _ Hmem). simpl in Hlow. lia.
  - assert (Hmem0 : (i, a) ∈ b0 :: rest).
    { rewrite Hsplit. right. apply elem_of_app. right. left. }
    destruct (proj1 (Hin (i, a)) Hmem0) as [HP Hl]. simpl in *.
    split; [done|]. split; [done|]. intros j other Hj HPj.
    assert (Hmem : (j, other) ∈ b0 :: rest) by (by apply Hin).
    rewrite Forall_forall in Hpre, Hpost.
    rewrite Hsplit in Hmem, Hsorted.
    apply elem_of_cons in Hmem as [Hb0|Hmem].
    { subst b0. simpl in Hlt. split; [by apply Qlt_le_weak|]. by intros _. }
    apply elem_of_app in Hmem as [Hmem|Hmem].
    { specialize (Hpre _ Hmem). simpl in Hpre.
      split; [by apply Qlt_le_weak|]. by intros _. }
    apply elem_of_cons in Hmem as [[= -> ->]|Hmem].
    { split; [apply Qle_refl|lia]. }
    split; [by apply (Hpost (j, other))|].
    apply StronglySorted_inv in Hsorted as [Hsorted _].
    apply StronglySorted_app in Hsorted as (_ & _ & Hsorted).
    apply StronglySorted_inv in Hsorted as [_ Hlow].
    rewrite Forall_forall in Hlow. specialize (Hlow _ Hmem). simpl in Hlow. lia.
Qed.

Lemma filter_indexed_nil {A : Type} (P : nat * A -> Prop)
    `{!forall p, Decision (P p)} (l : list A) :
  filter P (indexed l) = [] ->
  forall j other, l !! j = Some other -> ~ P (j, other).
Proof.
  intros Hf j other Hj HP.
  assert (Hin : (j, other) ∈ filter P (indexed l))
    by (apply list_elem_of_filter; split; [done|by apply elem_of_indexed]).
  rewrite Hf in Hin. by apply not_elem_of_nil in Hin.
Qed.

(** A node that [_find_gathering_task] hands out was available and is
    claimed; when none is handed out the nodes are left alone. *)
Lemma _find_gathering_task_claims (c : citizen.Citizen)
    (resource_nodes : list resource.Resource) :
  match _find_gathering_task c resource_nodes with
  | (Some i, nodes') =>
      exists node,
        resource_nodes !! i = Some node /\ available node
        /\ nodes' = <[i := resource.assign_citizen node (citizen.id c)]> resource_nodes
  | (None, nodes') => nodes' = resource_nodes
  end.
Proof.
  unfold _find_gathering_task.
  destruct (citizen.can_gather c); simpl; [|done].
  match goal with
  | |- context [filter ?P (indexed resource_nodes)] =>
      destruct (filter P (indexed resource_nodes)) as [|n0 rest] eqn:Hf
  end; [done|].
  destruct (min_by _ n0 rest) as [i nearest] eqn:Hm.
  destruct (min_by_filter_indexed _ _ _ _ _ _ _ Hf Hm) as (Hl & HP & _).
  by exists nearest.
Qed.

(** X11. [_find_gathering_task] hands out a node that is designated, not
    depleted and not being gathered, and marks it as gathered by the
    citizen; it hands out nothing only when the citizen cannot gather or
    no such node exists, and then leaves the nodes alone. When the
    citizen stands on whole coordinates and all coordinates have at most
    25 bits, so that the squared distances are computed without rounding,
    the node handed out is the nearest such node to the citizen and the
    earliest of the list among equally near ones. *)
Theorem X11_gathering_task_nearest_available (c : citizen.Citizen)
    (resource_nodes : list resource.Resource) :
  match _find_gathering_task c resource_nodes with
  | (Some i, nodes') =>
      citizen.can_gather c = true
      /\ exists node,
           resource_nodes !! i = Some node /\ available node
           /\ nodes' = <[i := resource.assign_citizen node (citizen.id c)]> resource_nodes
           /\ (on_tile c -> Forall node_in_range resource_nodes ->
               forall j other,
                 resource_nodes !! j = Some other -> available other ->
                 (node_distance c node <= node_distance c other)%Q
                 /\ ((j < i)%nat -> (node_distance c node < node_distance c other)%Q))
  | (None, nodes') =>
      nodes' = resource_nodes
      /\ (citizen.can_gather c = false
          \/ forall j other, resource_nodes !! j = Some other -> ~ available other)
  end.
Proof.
  unfold _find_gathering_task.
  destruct (citizen.can_gather c); simpl; [|by split; [|left]].
  match goal with
  | |- context [filter ?P (indexed resource_nodes)] =>
      destruct (filter P (indexed resource_nodes)) as [|n0 rest] eqn:Hf
  end.
  - split; [done|]. right. intros j other Hj Ha.
    by eapply (filter_indexed_nil _ _ Hf j other Hj).
  - destruct (min_by _ n0 rest) as [i nearest] eqn:Hm.
    split; [done|]. exists nearest.
    destruct (min_by_filter_indexed _ _ _ _ _ _ _ Hf Hm) as (Hl & HP & Hmin).
    split; [done|]. split; [done|]. split; [done|].
    intros _ _ j other Hj Ha. by apply (Hmin j other).
Qed.

Lemma X11_gathering_task_nearest_available_witness :
  exists node,
    fst (_find_gathering_task scenario.settler scenario.grove) = Some 1%nat
    /\ scenario.grove !! 1%nat = Some node
    /\ on_tile scenario.settler
    /\ Forall node_in_range scenario.grove
    /\ forall j other,
         scenario.grove !! j = Some other -> available other ->
         (node_distance scenario.settler node <= node_distance scenario.settler other)%Q.
Proof.
  pose proof (X11_gathering_task_nearest_available scenario.settler scenario.grove)
    as H.
  destruct (_find_gathering_task scenario.settler scenario.grove) as [[i|] nodes']
    eqn:E; [|vm_compute in E; discriminate].
  assert (Hi : i = 1%nat) by (vm_compute in E; congruence). subst i.
  destruct H as (_ & node & Hn & _ & _ & Hmin).
  assert (Ht : on_tile scenario.settler).
  { split; [exists 15|exists 15]; split; try reflexivity; vm_compute; discriminate. }
  assert (Hr : Forall node_in_range scenario.grove).
  { repeat constructor; vm_compute; discriminate. }
  exists node. split; [done|]. split; [done|]. split; [done|]. split; [done|].
  intros j other Hj Ha. by apply (Hmin Ht Hr j other).
Defined.

(** X12. A node handed out to one citizen is not handed out to the next
    citizen that looks for gathering work. *)
Theorem X12_gathering_task_exclusive (c1 c2 : citizen.Citizen)
    (nodes nodes1 nodes2 : list resource.Resource) (i j : nat) :
  _find_gathering_task c1 nodes = (Some i, nodes1) ->
  _find_gathering_task c2 nodes1 = (Some j, nodes2) ->
  i ≠ j.
Proof.
  intros H1 H2 ->.
  pose proof (_find_gathering_task_claims c1 nodes) as S1.
  pose proof (_find_gathering_task_claims c2 nodes1) as S2.
  rewrite H1 in S1. rewrite H2 in S2.
  destruct S1 as (node & Hn & _ & ->).
  destruct S2 as (node' & Hn' & (_ & _ & Hfree) & _).
  rewrite list_lookup_insert_eq in Hn' by (by eapply lookup_lt_Some).
  injection Hn' as <-. done.
Qed.

Lemma X12_gathering_task_exclusive_witness :
  fst (_find_gathering_task scenario.settler scenario.grove) = Some 1%nat
  /\ fst (_find_gathering_task scenario.settler
            (snd (_find_gathering_task scenario.settler scenario.grove)))
     = Some 0%nat
  /\ 1%nat ≠ 0%nat.
Proof.
  split; [by vm_compute|]. split; [by vm_compute|].
  apply (X12_gathering_task_exclusive scenario.settler scenario.settler
           scenario.grove
           (snd (_find_gathering_task scenario.settler scenario.grove))
           (snd (_find_gathering_task scenario.settler
                   (snd (_find_gathering_task scenario.settler scenario.grove))))
           1 0); by vm_compute.
Defined.



Lemma first_in_stock_Some (resources : gmap string Z)
    (needed : list (string * Z)) :
  is_Some (first_in_stock resources needed)
  <-> exists resource_type needed_amount,
        (resource_type, needed_amount) ∈ needed
        /\ 0 < dict_get resources resource_type.
Proof.
  induction needed as [|[rt amount] rest IH]; simpl.
  - split; [by intros [? ?]|]. intros (rt & amount & Hin & _).
    by apply not_elem_of_nil in Hin.
  - destruct (Z.gtb_spec (dict_get resources rt) 0) as [Hpos|Hneg].
    + split; [|by eexists]. intros _. exists rt, amount. split; [left|lia].
    + rewrite IH. split.
      * intros (rt' & amount' & Hin & Hpos). exists rt', amount'.
        split; [by right|done].
      * intros (rt' & amount' & Hin & Hpos).
        apply elem_of_cons in Hin as [[= -> ->]|Hin]; [lia|].
        by exists rt', amount'.
Qed.

(** X14. [_find_material_hauling_task] hands out the first building of
    the list that is planned and short of a material of which the
    stockpile holds at least one unit; it hands out nothing only when the
    citizen cannot haul or no such building exists. *)
Theorem X14_hauling_task_first_haulable (c : citizen.Citizen)
    (buildings : list building.Building) (resources : gmap string Z) :
  match _find_material_hauling_task c buildings resources with
  | Some i =>
      citizen.can_haul c = true
      /\ exists b,
           buildings !! i = Some b /\ haulable resources b
           /\ forall j other,
                buildings !! j = Some other -> (j < i)%nat ->
                ~ haulable resources other
  | None =>
      citizen.can_haul c = false
      \/ forall j other, buildings !! j = Some other -> ~ haulable resources other
  end.
Proof.
  unfold _find_material_hauling_task, haulable.
  destruct (citizen.can_haul c); simpl; [|by left].
  match goal with
  | |- context [list_find ?P buildings] =>
      destruct (list_find P buildings) as [[i b]|] eqn:Hf; simpl
  end.
  - apply list_find_Some in Hf as (Hl & [Hs Hstock] & Hfirst).
    split; [done|]. exists b. split; [done|].
    split; [split; [done|by apply first_in_stock_Some]|].
    intros j other Hj Hlt [Hs' Hstock'].
    apply (Hfirst j other Hj Hlt). split; [done|].
    by apply first_in_stock_Some.
  - right. intros j other Hj [Hs' Hstock'].
    apply list_find_None in Hf. rewrite Forall_forall in Hf.
    apply (Hf other); [by eapply list_elem_of_lookup_2|].
    split; [done|]. by apply first_in_stock_Some.
Qed.

Lemma delivered_insert (bs : list building.Building) (i : nat)
    (b b' : building.Building) (kind : string) :
  bs !! i = Some b ->
  delivered (<[i := b']> bs) kind
  = delivered bs kind - dict_get (building.materials_delivered b) kind
    + dict_get (building.materials_delivered b') kind.
Proof.
  revert i. induction bs as [|b0 bs IH]; intros [|i] Hi; simpl in *; try done.
  - injection Hi as ->. lia.
  - rewrite (IH i Hi). lia.
Qed.

Lemma _move_citizen_to_cargo c tx ty tiles bs c' kind :
  _move_citizen_to fsqrt heappush heappop c tx ty tiles bs = Returns c' ->
  cargo c' kind = cargo c kind.
Proof.
  unfold _move_citizen_to. destruct (_ || _); [|by intros [= <-]].
  destruct (pathfinding.find_path _ _ _ _ _ _ _ _ _ _) as [path|]; [|done].
  by intros [= <-].
Qed.

(** X15. A step of [_update_hauling] neither creates nor destroys
    material: for every kind, the units in the stockpile, in the hands of
    the hauling citizen and delivered to the buildings add up to the same
    number before and after the step. *)
Theorem X15_hauling_conserves_material (c : citizen.Citizen) (w : World)
    (delta_time : Q) (tiles : list (list terrain.Tile))
    (c' : citizen.Citizen) (w' : World) (kind : string) :
  _update_hauling fsqrt heappush heappop c w delta_time tiles = Returns (c', w') ->
  material c' w' kind = material c w kind.
Proof.
  unfold _update_hauling, task_building.
  destruct (citizen.current_task c) as [[i|i]|]; try by intros [= <- <-].
  destruct (buildings w !! i) as [bld|] eqn:Hb; [|done]. simpl.
  unfold material.
  destruct (citizen.carrying_resource c) as [carried|] eqn:Hcarry.
  - destruct (building.get_center bld) as [bx by_].
    destruct (negb _).
    + destruct (_move_citizen_to _ _ _ _ _ _ _ _) as [c1|] eqn:Hmove; [|done].
      simpl. intros [= <- <-]. by rewrite (_move_citizen_to_cargo _ _ _ _ _ _ kind Hmove).
    + assert (Hsum :
        dict_get (resources w) kind + 0
        + delivered
            (<[i := building.deliver_material bld carried (citizen.carrying_amount c)]>
               (buildings w)) kind
        = dict_get (resources w) kind + cargo c kind + delivered (buildings w) kind).
      { rewrite (delivered_insert _ _ _ _ _ Hb). unfold cargo. rewrite Hcarry.
        unfold building.deliver_material. simpl.
        destruct (String.eqb_spec carried kind) as [->|Hne].
        - rewrite dict_get_insert_eq. lia.
        - rewrite dict_get_insert_ne by done. lia. }
      destruct (_ =? _)%nat; intros [= <- <-]; exact Hsum.
  - destruct (_get_stockpile_location (buildings w)) as [sx sy].
    destruct (negb _).
    + destruct (_move_citizen_to _ _ _ _ _ _ _ _) as [c1|] eqn:Hmove; [|done].
      simpl. intros [= <- <-]. by rewrite (_move_citizen_to_cargo _ _ _ _ _ _ kind Hmove).
    + destruct (first_in_stock _ _) as [[rt needed_amount]|]; intros [= <- <-];
        [|done].
      unfold cargo. simpl. rewrite Hcarry.
      destruct (String.eqb_spec rt kind) as [->|Hne].
      * rewrite dict_get_insert_eq. lia.
      * rewrite dict_get_insert_ne by done. lia.
Qed.

Lemma advances_refl b : advances b b.
Proof. unfold advances. repeat split; lia. Qed.

Lemma advances_trans b1 b2 b3 : advances b1 b2 -> advances b2 b3 -> advances b1 b3.
Proof. unfold advances. intros (?&?&?&?&?) (?&?&?&?&?). repeat split; try congruence; lia. Qed.

Lemma Forall2_advances_refl bs : Forall2 advances bs bs.
Proof. apply Forall_Forall2_diag, Forall_forall. intros b _. apply advances_refl. Qed.

Lemma Forall2_advances_trans bs1 bs2 bs3 :
  Forall2 advances bs1 bs2 -> Forall2 advances bs2 bs3 -> Forall2 advances bs1 bs3.
Proof.
  intros H12. revert bs3. induction H12 as [|b1 b2 l1 l2 Hb Hl IH]; intros bs3 H23.
  - by inversion H23.
  - inversion H23 as [|? b3 ? l3 Hb' Hl']; subst. constructor.
    + by eapply advances_trans.
    + by apply IH.
Qed.

Lemma put_building_advances w i b b' :
  buildings w !! i = Some b -> advances b b' ->
  Forall2 advances (buildings w) (buildings (put_building w i b')).
Proof.
  intros Hb Ha. simpl.
  rewrite <- (list_insert_id (buildings w) i b Hb) at 1.
  apply Forall2_insert; [apply Forall2_advances_refl|done].
Qed.

Lemma add_construction_progress_advances b amount :
  advances b (building.add_construction_progress b amount).
Proof.
  unfold building.add_construction_progress, advances.
  destruct (bool_decide _) eqn:E; [|repeat split; lia].
  apply bool_decide_eq_true in E.
  destruct (Qgeb _ _); simpl; rewrite ?E; repeat split; simpl; lia.
Qed.

Lemma _update_hauling_advances c w dt tiles c' w' :
  _update_hauling fsqrt heappush heappop c w dt tiles = Returns (c', w') ->
  Forall2 advances (buildings w) (buildings w').
Proof.
  unfold _update_hauling, task_building.
  destruct (citizen.current_task c) as [[i|i]|];
    try (intros [= <- <-]; apply Forall2_advances_refl).
  destruct (buildings w !! i) as [bld|] eqn:Hb; [|done]. simpl.
  destruct (citizen.carrying_resource c) as [carried|].
  - destruct (building.get_center bld) as [bx by_].
    destruct (negb _).
    + destruct (_move_citizen_to _ _ _ _ _ _ _ _) as [c1|]; [|done].
      simpl. intros [= <- <-]. apply Forall2_advances_refl.
    + assert (Ha : advances bld
                (building.deliver_material bld carried (citizen.carrying_amount c)))
        by (unfold advances; simpl; repeat split; lia).
      destruct (_ =? _)%nat; intros [= <- <-];
        by apply (put_building_advances w i bld).
  - destruct (_get_stockpile_location (buildings w)) as [sx sy].
    destruct (negb _).
    + destruct (_move_citizen_to _ _ _ _ _ _ _ _) as [c1|]; [|done].
      simpl. intros [= <- <-]. apply Forall2_advances_refl.
    + destruct (first_in_stock _ _) as [[rt needed_amount]|]; intros [= <- <-];
        apply Forall2_advances_refl.
Qed.

Lemma _update_construction_advances c w dt tiles c' w' :
  _update_construction fsqrt c w dt tiles = Returns (c', w') ->
  Forall2 advances (buildings w) (buildings w').
Proof.
  unfold _update_construction, task_building.
  destruct (citizen.current_task c) as [[i|i]|];
    try (intros [= <- <-]; apply Forall2_advances_refl).
  destruct (buildings w !! i) as [bld|] eqn:Hb; [|done]. simpl.
  set (bld0 := if _ && _ then _ else bld).
  assert (H0 : advances bld bld0).
  { subst bld0. destruct (bool_decide (building.state bld = building.PLANNED)) eqn:E;
      simpl; [|apply advances_refl].
    apply bool_decide_eq_true in E.
    destruct (building.has_all_materials bld); [|apply advances_refl].
    unfold advances. simpl. rewrite E. repeat split; simpl; lia. }
  clearbody bld0.
  destruct (bool_decide (building.state bld0 = building.UNDER_CONSTRUCTION)).
  - destruct (building.get_center bld0) as [bx by_].
    destruct (negb _); [intros [= <- <-]; by apply (put_building_advances w i bld)|].
    assert (H1 : advances bld
              (building.add_construction_progress bld0
                 (10.0 * (1.0 + inject_Z (citizen.construction_skill
                                            (citizen.set_state c citizen.WORKING)) / 20.0)
                  * dt)%Q)).
    { eapply advances_trans; [exact H0|apply add_construction_progress_advances]. }
    destruct (bool_decide _); intros [= <- <-];
      by apply (put_building_advances w i bld).
  - destruct (bool_decide _); intros [= <- <-];
      by apply (put_building_advances w i bld).
Qed.

Lemma _assign_work_buildings c w :
  buildings (snd (_assign_work c w)) = buildings w
  /\ resources (snd (_assign_work c w)) = resources w.
Proof.
  unfold _assign_work.
  destruct (_find_material_hauling_task _ _ _); [done|].
  destruct (_find_construction_task _ _); [done|].
  destruct (_find_gathering_task _ _) as [[i|] nodes]; done.
Qed.

Lemma update_citizen_advances check c w dt tiles c' w' :
  update_citizen fsqrt heappush heappop check c w dt tiles = Returns (c', w') ->
  Forall2 advances (buildings w) (buildings w').
Proof.
  unfold update_citizen.
  destruct (_ && _).
  - pose proof (_assign_work_buildings (citizen.update fsqrt c dt) w) as [Hb _].
    destruct (_assign_work _ w) as [c1 w1]. simpl in *. intros [= <- <-].
    rewrite Hb. apply Forall2_advances_refl.
  - destruct (negb _); [|intros [= <- <-]; apply Forall2_advances_refl].
    unfold _update_citizen_task.
    destruct (citizen.current_job _) as [[| | | | |]|];
      try (intros [= <- <-]; apply Forall2_advances_refl).
    + apply _update_construction_advances.
    + intros H. apply _update_gathering_within_capacity' in H. rewrite H.
      apply Forall2_advances_refl.
    + apply _update_hauling_advances.
Qed.

(** A property of the world that every citizen's step carries over is
    carried over by the loop of [update]. *)
Lemma update_loop_rel (R : World -> World -> Prop) check :
  (forall w, R w w) -> (forall w1 w2 w3, R w1 w2 -> R w2 w3 -> R w1 w3) ->
  (forall c w dt tiles c' w',
     update_citizen fsqrt heappush heappop check c w dt tiles = Returns (c', w') ->
     R w w') ->
  forall todo done w dt tiles cs' w',
    update_loop fsqrt heappush heappop check todo done w dt tiles = Returns (cs', w') ->
    R w w'.
Proof.
  intros Hrefl Htrans Hstep todo.
  induction todo as [|c rest IH]; intros done w dt tiles cs' w'; simpl.
  - intros [= <- <-]. apply Hrefl.
  - destruct (update_citizen _ _ _ _ _ _ _ _) as [[c1 w1]|] eqn:E; [|done].
    simpl. intros H. eapply Htrans; [by eapply Hstep|by eapply IH].
Qed.

(** X16. Over a whole [JobManager.update] no building is added, removed
    or moved in the list, every building keeps its id, type and position,
    and the construction state of a building never goes back. *)
Theorem X16_buildings_only_advance
    (check : option (list building.Building -> gmap string Z -> Z -> bool))
    (citizens : list citizen.Citizen) (w : World) (delta_time : Q)
    (tiles : list (list terrain.Tile)) (citizens' : list citizen.Citizen)
    (w' : World) :
  update fsqrt heappush heappop check citizens w delta_time tiles
    = Returns (citizens', w') ->
  Forall2 advances (buildings w) (buildings w').
Proof.
  unfold update.
  apply (update_loop_rel (fun w w' => Forall2 advances (buildings w) (buildings w'))).
  - intros w0. apply Forall2_advances_refl.
  - intros w1 w2 w3. apply Forall2_advances_trans.
  - intros c w0 dt tiles0 c' w0'. apply update_citizen_advances.
Qed.


Lemma capacity_advances bs bs' :
  Forall2 advances bs bs' ->
  game_state.get_total_storage_capacity bs
  <= game_state.get_total_storage_capacity bs'.
Proof.
  unfold game_state.get_total_storage_capacity,
    game_state.storage_capacity_per_warehouse.
  intros Hadv.
  match goal with
  | |- _ + Z.of_nat (length (filter ?P bs)) * _ <= _ =>
      assert (Hlen : (length (filter P bs) <= length (filter P bs'))%nat); [|lia]
  end.
  induction Hadv as [|b b' l l' Hb Hl IH]; [done|].
  rewrite !filter_cons.
  destruct (decide (_ /\ _)) as [[Ht Hs]|Hn].
  - destruct Hb as (_ & Ht' & _ & _ & Hrank).
    rewrite Hs in Hrank.
    assert (Hs' : building.state b' = building.COMPLETE)
      by (destruct (building.state b'); simpl in Hrank; done || lia).
    destruct (decide (_ /\ _)) as [_|Hn']; [simpl; lia|].
    exfalso. apply Hn'. split; [congruence|done].
  - destruct (decide (_ /\ _)); simpl; lia.
Qed.

Lemma first_in_stock_elem resources needed rt n :
  first_in_stock resources needed = Some (rt, n) ->
  (rt, n) ∈ needed /\ 0 < dict_get resources rt.
Proof.
  induction needed as [|[rt' n'] rest IH]; simpl; [done|].
  destruct (Z.gtb_spec (dict_get resources rt') 0) as [Hpos|Hneg].
  - intros [= -> ->]. split; [left|lia].
  - intros Hrest. destruct (IH Hrest). split; [by right|done].
Qed.

Lemma _update_hauling_stock c w dt tiles c' w' :
  _update_hauling fsqrt heappush heappop c w dt tiles = Returns (c', w') ->
  stockpile_total w' <= stockpile_total w.
Proof.
  unfold _update_hauling, task_building, stockpile_total,
    game_state.get_current_storage_used.
  destruct (citizen.current_task c) as [[i|i]|];
    try (intros [= <- <-]; lia).
  destruct (buildings w !! i) as [bld|] eqn:Hb; [|done]. simpl.
  destruct (citizen.carrying_resource c) as [carried|].
  - destruct (building.get_center bld) as [bx by_].
    destruct (negb _).
    + destruct (_move_citizen_to _ _ _ _ _ _ _ _) as [c1|]; [|done].
      simpl. intros [= <- <-]. lia.
    + destruct (_ =? _)%nat; intros [= <- <-]; simpl; lia.
  - destruct (_get_stockpile_location (buildings w)) as [sx sy].
    destruct (negb _).
    + destruct (_move_citizen_to _ _ _ _ _ _ _ _) as [c1|]; [|done].
      simpl. intros [= <- <-]. lia.
    + destruct (first_in_stock _ _) as [[rt n]|] eqn:Hf; intros [= <- <-];
        [|lia].
      apply first_in_stock_elem in Hf as [Hin Hpos].
      apply elem_of_needed_of in Hin as (a & _ & Hlt & ->).
      simpl. rewrite dict_sum_insert. lia.
Qed.

Lemma _update_construction_resources c w dt tiles c' w' :
  _update_construction fsqrt c w dt tiles = Returns (c', w') ->
  resources w' = resources w.
Proof.
  unfold _update_construction, task_building.
  destruct (citizen.current_task c) as [[i|i]|]; try by intros [= <- <-].
  destruct (buildings w !! i) as [bld|]; [|done]. simpl.
  repeat (case_match; simpl; try done); by intros [= <- <-].
Qed.

Lemma update_citizen_within_capacity c w dt tiles c' w' :
  update_citizen fsqrt heappush heappop (Some game_state.can_add_resources)
    c w dt tiles = Returns (c', w') ->
  stockpile_total w <= capacity w -> stockpile_total w' <= capacity w'.
Proof.
  intros H.
  pose proof (update_citizen_advances _ _ _ _ _ _ _ H) as Hadv.
  apply capacity_advances in Hadv. revert H.
  unfold update_citizen, capacity, stockpile_total in *.
  destruct (_ && _).
  - pose proof (_assign_work_buildings (citizen.update fsqrt c dt) w) as [Hb Hr].
    destruct (_assign_work _ w) as [c1 w1]. simpl in *. intros [= <- <-].
    rewrite Hb, Hr. done.
  - destruct (negb _); [|by intros [= <- <-]].
    unfold _update_citizen_task.
    destruct (citizen.current_job _) as [[| | | | |]|];
      try by intros [= <- <-].
    + intros H. apply _update_construction_resources in H. rewrite H. lia.
    + intros H. by apply _update_gathering_within_capacity in H as [_ H].
    + intros H. apply _update_hauling_stock in H.
      unfold stockpile_total in H. lia.
Qed.

Lemma update_within_capacity cs w dt tiles cs' w' :
  update fsqrt heappush heappop (Some game_state.can_add_resources)
    cs w dt tiles = Returns (cs', w') ->
  stockpile_total w <= capacity w -> stockpile_total w' <= capacity w'.
Proof.
  unfold update.
  apply (update_loop_rel
           (fun w w' => stockpile_total w <= capacity w ->
                        stockpile_total w' <= capacity w')).
  - done.
  - auto.
  - intros c0 w0 dt0 tiles0 c0' w0'. apply update_citizen_within_capacity.
Qed.

(** X17. However many frames [GameState.update] runs, with all its
    hauling, construction and gathering steps, a stockpile that holds no
    more than the storage capacity keeps holding no more than the
    capacity of the moment. *)
Theorem X17_storage_cap_every_frame (n : nat) (g g' : game_state.GameState)
    (delta_time : Q) :
  game_state.frames fsqrt heappush heappop n g delta_time = Returns g' ->
  stockpile_total (game_state.world g) <= capacity (game_state.world g) ->
  stockpile_total (game_state.world g') <= capacity (game_state.world g').
Proof.
  revert g. induction n as [|n IH]; intros g; simpl.
  - by intros [= <-].
  - unfold game_state.update at 1. destruct (game_state.paused g).
    + simpl. apply IH.
    + destruct (update _ _ _ _ _ _ _ _) as [[cs w1]|] eqn:E; [|done].
      simpl. intros H Hcap. apply (IH _ H). simpl.
      by apply (update_within_capacity _ _ _ _ _ _ E).
Qed.


Lemma same_person_refl c : same_person c c.
Proof. by repeat split. Qed.

Lemma same_person_trans c1 c2 c3 :
  same_person c1 c2 -> same_person c2 c3 -> same_person c1 c3.
Proof.
  unfold same_person. intros (?&?&?&?&?&?&?&?&?) (?&?&?&?&?&?&?&?&?).
  repeat split; congruence.
Qed.

Lemma citizen_update_same_person c dt : same_person c (citizen.update fsqrt c dt).
Proof.
  unfold citizen.update, citizen.step_towards.
  repeat (case_match; simpl; try apply same_person_refl); by repeat split.
Qed.

Lemma _move_citizen_to_same_person c tx ty tiles bs c' :
  _move_citizen_to fsqrt heappush heappop c tx ty tiles bs = Returns c' ->
  same_person c c'.
Proof.
  unfold _move_citizen_to. destruct (_ || _); [|intros [= <-]; apply same_person_refl].
  destruct (pathfinding.find_path _ _ _ _ _ _ _ _ _ _) as [path|]; [|done].
  intros [= <-]. by repeat split.
Qed.

Lemma _assign_work_same_person c w : same_person c (fst (_assign_work c w)).
Proof.
  unfold _assign_work.
  destruct (_find_material_hauling_task _ _ _); [by repeat split|].
  destruct (_find_construction_task _ _); [by repeat split|].
  destruct (_find_gathering_task _ _) as [[i|] nodes]; by repeat split.
Qed.

Lemma _update_hauling_same_person c w dt tiles c' w' :
  _update_hauling fsqrt heappush heappop c w dt tiles = Returns (c', w') ->
  same_person c c'.
Proof.
  unfold _update_hauling, task_building.
  destruct (citizen.current_task c) as [[i|i]|];
    try (intros [= <- <-]; by repeat split).
  destruct (buildings w !! i) as [bld|]; [|done]. simpl.
  destruct (citizen.carrying_resource c) as [carried|].
  - destruct (building.get_center bld) as [bx by_].
    destruct (negb _).
    + destruct (_move_citizen_to _ _ _ _ _ _ _ _) as [c1|] eqn:Hm; [|done].
      simpl. intros [= <- <-]. by eapply _move_citizen_to_same_person.
    + destruct (_ =? _)%nat; intros [= <- <-]; by repeat split.
  - destruct (_get_stockpile_location (buildings w)) as [sx sy].
    destruct (negb _).
    + destruct (_move_citizen_to _ _ _ _ _ _ _ _) as [c1|] eqn:Hm; [|done].
      simpl. intros [= <- <-]. by eapply _move_citizen_to_same_person.
    + destruct (first_in_stock _ _) as [[rt n]|]; intros [= <- <-];
        by repeat split.
Qed.

Lemma _update_construction_same_person c w dt tiles c' w' :
  _update_construction fsqrt c w dt tiles = Returns (c', w') ->
  same_person c c'.
Proof.
  unfold _update_construction, task_building.
  destruct (citizen.current_task c) as [[i|i]|];
    try (intros [= <- <-]; by repeat split).
  destruct (buildings w !! i) as [bld|]; [|done]. simpl.
  repeat (case_match; simpl; try done); intros [= <- <-]; by repeat split.
Qed.

Lemma _update_gathering_same_person check c w dt tiles c' w' :
  _update_gathering fsqrt heappush heappop check c w dt tiles = Returns (c', w') ->
  same_person c c'.
Proof.
  unfold _update_gathering.
  destruct (citizen.current_task c) as [[i|i]|];
    try (intros [= <- <-]; by repeat split).
  destruct (resource_nodes w !! i) as [node|]; [|done].
  destruct (citizen.carrying_resource c) as [carried|].
  - destruct (_get_stockpile_location (buildings w)) as [sx sy].
    destruct (_move_citizen_to _ _ _ _ _ _ _ _) as [c1|] eqn:Hm; [|done].
    apply _move_citizen_to_same_person in Hm. simpl.
    destruct (has_reached_target _ _).
    + unfold deposit. destruct (match check with Some _ => _ | None => _ end);
        intros [= <- <-]; (eapply same_person_trans; [exact Hm|by repeat split]).
    + by intros [= <- <-].
  - destruct (_move_citizen_to _ _ _ _ _ _ _ _) as [c1|] eqn:Hm; [|done].
    apply _move_citizen_to_same_person in Hm. simpl.
    destruct (has_reached_target _ _); [|by intros [= <- <-]].
    destruct (Qgeb _ _).
    + destruct (resource.gather node) as [[[rt|] amount] node1].
      * destruct (_ && _); intros [= <- <-];
          (eapply same_person_trans; [exact Hm|by repeat split]).
      * intros [= <- <-]. eapply same_person_trans; [exact Hm|by repeat split].
    + intros [= <- <-]. eapply same_person_trans; [exact Hm|by repeat split].
Qed.

Lemma update_citizen_same_person check c w dt tiles c' w' :
  update_citizen fsqrt heappush heappop check c w dt tiles = Returns (c', w') ->
  same_person c c'.
Proof.
  unfold update_citizen. intros H.
  apply (same_person_trans _ (citizen.update fsqrt c dt));
    [apply citizen_update_same_person|].
  revert H. destruct (_ && _).
  - pose proof (_assign_work_same_person (citizen.update fsqrt c dt) w) as Hs.
    destruct (_assign_work _ w) as [c1 w1]. by intros [= <- <-].
  - destruct (negb _); [|intros [= <- <-]; apply same_person_refl].
    unfold _update_citizen_task.
    destruct (citizen.current_job _) as [[| | | | |]|];
      try (intros [= <- <-]; apply same_person_refl).
    + apply _update_construction_same_person.
    + apply _update_gathering_same_person.
    + apply _update_hauling_same_person.
Qed.

Lemma update_loop_same_person check todo done w dt tiles cs' w' :
  update_loop fsqrt heappush heappop check todo done w dt tiles = Returns (cs', w') ->
  exists updated, cs' = done ++ updated /\ Forall2 same_person todo updated.
Proof.
  revert done w. induction todo as [|c rest IH]; intros done w; simpl.
  - intros [= <- <-]. exists []. by rewrite app_nil_r.
  - destruct (update_citizen _ _ _ _ _ _ _ _) as [[c1 w1]|] eqn:E; [|done].
    simpl. intros H. apply IH in H as (updated & -> & Hall).
    exists (c1 :: updated). rewrite <- app_assoc. split; [done|].
    constructor; [by eapply update_citizen_same_person|done].
Qed.

(** X18. [JobManager.update] returns the citizens it was given, in their
    order: none is added or removed, and each keeps its id, name, skills,
    permissions and speed. *)
Theorem X18_citizens_keep_their_identity
    (check : option (list building.Building -> gmap string Z -> Z -> bool))
    (citizens : list citizen.Citizen) (w : World) (delta_time : Q)
    (tiles : list (list terrain.Tile)) (citizens' : list citizen.Citizen)
    (w' : World) :
  update fsqrt heappush heappop check citizens w delta_time tiles
    = Returns (citizens', w') ->
  Forall2 same_person citizens citizens'.
Proof.
  unfold update. intros H.
  by apply update_loop_same_person in H as (updated & -> & Hall).
Qed.


Lemma citizen_update_stalled c dt :
  stalled c -> stalled (citizen.update fsqrt c dt).
Proof.
  unfold stalled, citizen.update, citizen.step_towards.
  intros [Hs Ht]. repeat (case_match; simpl; try done).
Qed.

Lemma update_citizen_stalled check c w dt tiles :
  stalled c ->
  update_citizen fsqrt heappush heappop check c w dt tiles
  = Returns (citizen.update fsqrt c dt, w).
Proof.
  intros Hc. apply (citizen_update_stalled c dt) in Hc as [Hs Ht].
  unfold update_citizen.
  rewrite (bool_decide_eq_false_2 _ Hs), (bool_decide_eq_true_2 _ Ht). done.
Qed.

Lemma update_loop_stalled check todo done w dt tiles :
  Forall stalled todo ->
  update_loop fsqrt heappush heappop check todo done w dt tiles
  = Returns (done ++ map (fun c => citizen.update fsqrt c dt) todo, w).
Proof.
  revert done. induction todo as [|c rest IH]; intros done Hall; simpl.
  - by rewrite app_nil_r.
  - apply Forall_cons in Hall as [Hc Hrest].
    rewrite (update_citizen_stalled check c w dt tiles Hc). simpl.
    rewrite (IH _ Hrest), <- app_assoc. done.
Qed.

Lemma frames_stalled n g dt :
  Forall stalled (game_state.citizens g) ->
  exists g',
    game_state.frames fsqrt heappush heappop n g dt = Returns g'
    /\ game_state.world g' = game_state.world g
    /\ Forall stalled (game_state.citizens g').
Proof.
  revert g. induction n as [|n IH]; intros g Hall; simpl; [by exists g|].
  unfold game_state.update at 1. destruct (game_state.paused g); simpl.
  - by apply IH.
  - unfold update. rewrite update_loop_stalled by done. simpl.
    match goal with
    | |- context [game_state.frames _ _ _ n ?g1 dt] =>
        destruct (IH g1) as (g' & Hrun & Hw & Hst)
    end.
    + simpl. apply Forall_forall. intros c' Hin.
      apply list_elem_of_fmap in Hin as (c0 & -> & Hin).
      apply citizen_update_stalled. rewrite Forall_forall in Hall. by apply Hall.
    + exists g'. by repeat split.
Qed.

(** X19. Citizens that were saved while walking, working or carrying
    come back from [from_dict] without their task, and the job manager
    gives work to idle citizens only: in a game whose citizens were all
    loaded that way, every frame returns and none of them changes the
    buildings, the stockpile or the resource nodes. *)
Theorem X19_loaded_workers_never_work_again (saved : list citizen.Citizen)
    (g : game_state.GameState) (n : nat) (delta_time : Q) :
  Forall (fun c => citizen.state c ≠ citizen.IDLE) saved ->
  game_state.citizens g
  = map (fun c => citizen.from_dict (citizen.to_dict c)) saved ->
  exists g',
    game_state.frames fsqrt heappush heappop n g delta_time = Returns g'
    /\ game_state.world g' = game_state.world g
    /\ Forall stalled (game_state.citizens g').
Proof.
  intros Hbusy Hload. apply frames_stalled. rewrite Hload.
  apply Forall_forall. intros c' Hin.
  apply list_elem_of_fmap in Hin as (c0 & -> & Hin).
  rewrite Forall_forall in Hbusy. split; simpl; [by apply Hbusy|done].
Qed.


End JobMore.

Section JobScenarios.
Import pathfinding job_manager job_facts.

Lemma X15_hauling_conserves_material_witness :
  exists c' w',
    _update_hauling approx_sqrt push_back pop_min scenario.hauler scenario.depot
      (1 / 60) (scenario.grass_grid 20 20) = Returns (c', w')
    /\ cargo c' "wood" = 5
    /\ material c' w' "wood" = material scenario.hauler scenario.depot "wood".
Proof.
  eexists _, _. split; [vm_compute; reflexivity|]. split; [vm_compute; reflexivity|].
  apply (X15_hauling_conserves_material approx_sqrt push_back pop_min
           scenario.hauler scenario.depot (1 / 60) (scenario.grass_grid 20 20)).
  vm_compute; reflexivity.
Defined.

Lemma X16_buildings_only_advance_witness :
  exists cs' w',
    update approx_sqrt push_back pop_min (Some game_state.can_add_resources)
      [scenario.builder] scenario.building_site (1 / 60)
      (scenario.grass_grid 20 20) = Returns (cs', w')
    /\ Forall2 advances (buildings scenario.building_site) (buildings w').
Proof.
  eexists _, _. split; [vm_compute; reflexivity|].
  eapply (X16_buildings_only_advance approx_sqrt push_back pop_min
            (Some game_state.can_add_resources) [scenario.builder]
            scenario.building_site (1 / 60) (scenario.grass_grid 20 20)).
  vm_compute; reflexivity.
Defined.

Lemma X17_storage_cap_every_frame_witness :
  exists g',
    scenario.run 3 scenario.hauling_game = Returns g'
    /\ stockpile_total (game_state.world scenario.hauling_game) = 250
    /\ stockpile_total (game_state.world g') <= capacity (game_state.world g').
Proof.
  eexists. split; [vm_compute; reflexivity|]. split; [vm_compute; reflexivity|].
  apply (X17_storage_cap_every_frame approx_sqrt push_back pop_min 3
           scenario.hauling_game _ (1 / 60)).
  - vm_compute; reflexivity.
  - vm_compute; discriminate.
Defined.

Lemma X18_citizens_keep_their_identity_witness :
  exists cs' w',
    update approx_sqrt push_back pop_min (Some game_state.can_add_resources)
      [scenario.builder] scenario.building_site (1 / 60)
      (scenario.grass_grid 20 20) = Returns (cs', w')
    /\ Forall2 same_person [scenario.builder] cs'.
Proof.
  eexists _, _. split; [vm_compute; reflexivity|].
  eapply (X18_citizens_keep_their_identity approx_sqrt push_back pop_min
            (Some game_state.can_add_resources) [scenario.builder]
            scenario.building_site (1 / 60) (scenario.grass_grid 20 20)).
  vm_compute; reflexivity.
Defined.

Lemma X19_loaded_workers_never_work_again_witness :
  citizen.state scenario.builder = citizen.WALKING
  /\ exists g',
       scenario.run 3 scenario.loaded_game = Returns g'
       /\ game_state.world g' = scenario.building_site
       /\ Forall stalled (game_state.citizens g').
Proof.
  split; [reflexivity|].
  apply (X19_loaded_workers_never_work_again approx_sqrt push_back pop_min
           [scenario.builder] scenario.loaded_game 3 (1 / 60)).
  - by repeat constructor.
  - reflexivity.
Defined.

End JobScenarios.

Section CitizenMore.
Import citizen.

(** X20. A citizen comes back from [to_dict] and [from_dict] as it was
    exactly when it had no task, no path and path index 0: these three are
    not saved, and every other field is. *)
Theorem X20_citizen_round_trip (c : Citizen) :
  from_dict (to_dict c) = c
  <-> current_task c = None /\ current_path c = None /\ path_index c = 0.
Proof.
  destruct c; unfold from_dict, to_dict; simpl. split.
  - by intros [= <- <- <-].
  - by intros (-> & -> & ->).
Qed.

End CitizenMore.

Section PlacementMore.
Import game_state placement_facts gen_facts.

(** *** Loops that stop at the first [return] *)

Section Scan.

Context {A : Type} (body : A -> option bool -> outcome (option bool)).
Hypothesis body_returned : forall a r, body a (Some r) = Returns (Some r).

Lemma scan_returned (l : list A) (r : bool) :
  for_each l body (Some r) = Returns (Some r).
Proof. induction l as [|a l IH]; simpl; [done|]. by rewrite body_returned. Qed.

Lemma scan_through (l : list A) :
  for_each l body None = Returns None
  <-> forall a, a ∈ l -> body a None = Returns None.
Proof.
  induction l as [|a l IH]; simpl.
  - split; [|done]. intros _ a Ha. by apply elem_of_nil in Ha.
  - destruct (body a None) as [[r|]|] eqn:E; simpl.
    + rewrite scan_returned. split; [done|]. intros H.
      specialize (H a ltac:(left)). congruence.
    + rewrite IH. split.
      * intros H a' Ha'. apply elem_of_cons in Ha' as [->|Ha']; [done|by apply H].
      * intros H a' Ha'. apply H. by right.
    + split; [done|]. intros H. specialize (H a ltac:(left)). congruence.
Qed.

Lemma scan_stopped (l : list A) (r : bool) :
  for_each l body None = Returns (Some r) ->
  exists a, a ∈ l /\ body a None = Returns (Some r).
Proof.
  induction l as [|a l IH]; simpl; [done|].
  destruct (body a None) as [[r'|]|] eqn:E; simpl; [| |done].
  - rewrite scan_returned. intros [= ->]. exists a. split; [left|done].
  - intros H. destruct (IH H) as (a' & Ha' & E'). exists a'. split; [by right|done].
Qed.

Lemma scan_returns (l : list A) :
  (forall a, a ∈ l -> exists r, body a None = Returns r) ->
  exists r, for_each l body None = Returns r.
Proof.
  induction l as [|a l IH]; intros H; simpl; [by eexists|].
  destruct (H a ltac:(left)) as [[r|] ->]; simpl.
  - rewrite scan_returned. by eexists.
  - apply IH. intros a' Ha'. apply H. by right.
Qed.

End Scan.

Lemma check_tile_through tiles buildings px py :
  check_tile tiles buildings px py = Returns None
  <-> (exists tile, terrain.tile_at tiles py px = Returns tile
                    /\ placeable (terrain.terrain_type tile) = true)
      /\ Forall (fun b => building.occupies_tile b px py = false) buildings.
Proof.
  unfold check_tile.
  destruct (terrain.tile_at tiles py px) as [tile|]; simpl.
  - destruct (placeable (terrain.terrain_type tile)) eqn:Hp; simpl.
    + destruct (existsb _ buildings) eqn:He.
      * split; [done|]. intros [_ Hall].
        apply existsb_exists in He as (b & Hb & Ho).
        rewrite Forall_forall in Hall. apply list_elem_of_In in Hb.
        rewrite (Hall b Hb) in Ho. done.
      * split; [|done]. intros _. split; [by exists tile|].
        apply Forall_forall. intros b Hb.
        destruct (building.occupies_tile b px py) eqn:Ho; [|done].
        assert (existsb (fun b => building.occupies_tile b px py) buildings = true);
          [|congruence].
        apply existsb_exists. exists b. split; [by apply list_elem_of_In|done].
    + split; [done|]. intros [(tile' & [= <-] & Hp') _]. congruence.
  - split; [done|]. by intros [(tile' & ? & _) _].
Qed.

Lemma check_tile_never_true tiles buildings px py :
  check_tile tiles buildings px py ≠ Returns (Some true).
Proof.
  unfold check_tile. destruct (terrain.tile_at tiles py px) as [tile|]; simpl; [|done].
  destruct (negb _); [done|]. by destruct (existsb _ _).
Qed.

Lemma bounds_checked (tx ty bw bh w h : Z) :
  (tx <? 0) || (ty <? 0) || (tx + bw >? w) || (ty + bh >? h) = false
  <-> 0 <= tx /\ 0 <= ty /\ tx + bw <= w /\ ty + bh <= h.
Proof. rewrite !Z.gtb_ltb. lia. Qed.

Lemma width_of_grid (tiles : list (list terrain.Tile)) :
  (if Z.of_nat (length tiles) >? 0
   then Z.of_nat (length (default [] (head tiles))) else 0)
  = world_generator_advanced.grid_width tiles.
Proof. by destruct tiles. Qed.

(** What [_can_place_building] has checked when it returns [True]. *)
Lemma _can_place_building_true tiles buildings bt tx ty :
  _can_place_building tiles buildings bt tx ty = Returns true ->
  (0 <= tx /\ 0 <= ty
   /\ tx + building.width (building.BUILDING_DEFINITIONS bt)
      <= world_generator_advanced.grid_width tiles
   /\ ty + building.height (building.BUILDING_DEFINITIONS bt)
      <= world_generator_advanced.grid_height tiles)
  /\ forall px py, on_footprint bt tx ty px py ->
       (exists tile, terrain.tile_at tiles py px = Returns tile
                     /\ placeable (terrain.terrain_type tile) = true)
       /\ Forall (fun b => building.occupies_tile b px py = false) buildings.
Proof.
  unfold _can_place_building, on_footprint. rewrite width_of_grid.
  destruct (_ || _) eqn:Hbounds; [done|]. apply bounds_checked in Hbounds.
  match goal with
  | |- obind (for_each ?rows ?outer None) _ = _ -> _ =>
      destruct (for_each rows outer None) as [[r|]|] eqn:Hscan; simpl; [| |done]
  end.
  - intros [= ->]. exfalso.
    apply scan_stopped in Hscan as (dy & _ & Hrow);
      [|intros a r; apply scan_returned; done].
    apply scan_stopped in Hrow as (dx & _ & Hcell); [|done].
    by apply check_tile_never_true in Hcell.
  - intros _. split.
    + exact Hbounds.
    + intros px py [Hx Hy].
      rewrite scan_through in Hscan by (intros a r; apply scan_returned; done).
      specialize (Hscan (py - ty) ltac:(apply elem_of_range; lia)).
      rewrite scan_through in Hscan by done.
      specialize (Hscan (px - tx) ltac:(apply elem_of_range; lia)).
      replace (tx + (px - tx)) with px in Hscan by lia.
      replace (ty + (py - ty)) with py in Hscan by lia.
      by apply check_tile_through.
Qed.

(** X21. On a grid whose rows have the same length
    [_can_place_building] always returns, and it returns [True] exactly
    when the footprint of the building lies within the grid, every tile
    of the footprint is Grass, Dirt or Sand, and no building of the game
    occupies a tile of the footprint. *)
Theorem X21_can_place_building_spec (w : nat)
    (local_tiles : list (list terrain.Tile))
    (buildings : list building.Building) (building_type : building.BuildingType)
    (tile_x tile_y : Z) :
  rectangular w local_tiles ->
  exists ok,
    _can_place_building local_tiles buildings building_type tile_x tile_y
    = Returns ok
    /\ (ok = true
        <-> (0 <= tile_x /\ 0 <= tile_y
             /\ tile_x + building.width (building.BUILDING_DEFINITIONS building_type)
                <= world_generator_advanced.grid_width local_tiles
             /\ tile_y + building.height (building.BUILDING_DEFINITIONS building_type)
                <= world_generator_advanced.grid_height local_tiles)
            /\ forall px py, on_footprint building_type tile_x tile_y px py ->
                 (exists tile, terrain.tile_at local_tiles py px = Returns tile
                               /\ placeable (terrain.terrain_type tile) = true)
                 /\ Forall (fun b => building.occupies_tile b px py = false)
                      buildings).
Proof.
  intros Hrect.
  destruct (_can_place_building local_tiles buildings building_type tile_x tile_y)
    as [ok|] eqn:E.
  - exists ok. split; [done|]. split.
    + intros ->. by apply _can_place_building_true.
    + intros [Hb Hall]. destruct ok; [done|]. exfalso. revert E.
      unfold _can_place_building. rewrite width_of_grid.
      destruct (_ || _) eqn:Hbounds.
      { apply bounds_checked in Hb. unfold world_generator_advanced.grid_height in Hb.
        congruence. }
      match goal with
      | |- obind (for_each ?rows ?outer None) _ = _ -> _ =>
          assert (Hscan : for_each rows outer None = Returns None)
      end.
      { apply scan_through; [intros a r; apply scan_returned; done|].
        intros dy Hdy. apply elem_of_range in Hdy.
        apply scan_through; [done|]. intros dx Hdx. apply elem_of_range in Hdx.
        apply check_tile_through, Hall. unfold on_footprint. lia. }
      rewrite Hscan. done.
  - exfalso. revert E.
    unfold _can_place_building. rewrite width_of_grid.
    destruct (_ || _) eqn:Hbounds; [done|].
    apply bounds_checked in Hbounds as (Hx0 & Hy0 & Hx1 & Hy1).
    match goal with
    | |- obind (for_each ?rows ?outer None) _ = _ -> _ =>
        destruct (scan_returns outer) with (l := rows) as [r ->]; [| |done]
    end.
    + intros a r. apply scan_returned. done.
    + intros dy Hdy. apply elem_of_range in Hdy.
      apply scan_returns; [done|]. intros dx Hdx. apply elem_of_range in Hdx.
      unfold check_tile.
      destruct local_tiles as [|row0 rows]; [simpl in Hy1; lia|].
      assert (Hw : length row0 = w)
        by (pose proof Hrect as Hr; by apply Forall_cons in Hr as [? _]).
      unfold world_generator_advanced.grid_width in Hx1. simpl in Hx1.
      unfold id in Hx1. rewrite Hw in Hx1.
      destruct (tile_at_rectangular w (row0 :: rows) (tile_y + dy) (tile_x + dx) Hrect)
        as (row & tile & _ & _ & ->); [lia|lia|].
      simpl. destruct (negb _); [by eexists|]. destruct (existsb _ _); by eexists.
Qed.

Lemma X21_can_place_building_spec_witness :
  rectangular 20 (scenario.grass_grid 20 20)
  /\ exists ok,
       _can_place_building (scenario.grass_grid 20 20) [scenario.wagon]
         building.HOUSE 9 9 = Returns ok
       /\ (ok = true
           <-> (0 <= 9 /\ 0 <= 9
                /\ 9 + building.width (building.BUILDING_DEFINITIONS building.HOUSE)
                   <= world_generator_advanced.grid_width (scenario.grass_grid 20 20)
                /\ 9 + building.height (building.BUILDING_DEFINITIONS building.HOUSE)
                   <= world_generator_advanced.grid_height (scenario.grass_grid 20 20))
               /\ forall px py, on_footprint building.HOUSE 9 9 px py ->
                    (exists tile,
                       terrain.tile_at (scenario.grass_grid 20 20) py px = Returns tile
                       /\ placeable (terrain.terrain_type tile) = true)
                    /\ Forall (fun b => building.occupies_tile b px py = false)
                         [scenario.wagon]).
Proof.
  assert (Hr : rectangular 20 (scenario.grass_grid 20 20))
    by (apply (bool_decide_unpack _); by vm_compute).
  split; [exact Hr|].
  apply (X21_can_place_building_spec 20 (scenario.grass_grid 20 20)
           [scenario.wagon] building.HOUSE 9 9 Hr).
Defined.

Lemma occupies_new (bid : Z) (bt : building.BuildingType) (tx ty px py : Z) :
  building.occupies_tile (building.new bid bt tx ty) px py = true
  <-> on_footprint bt tx ty px py.
Proof.
  unfold building.occupies_tile, on_footprint, building.get_definition. simpl.
  generalize (building.width (building.BUILDING_DEFINITIONS bt)).
  generalize (building.height (building.BUILDING_DEFINITIONS bt)).
  intros bh bw. lia.
Qed.

(** X22. [place_building] keeps the buildings apart: when no tile is
    occupied by two buildings and every id is below the next id, the same
    holds after the call. A placement that succeeds was made in the local
    view and appends one planned building with the next id at the place
    asked for; one that fails leaves the list and the next id as they
    were. *)
Theorem X22_placement_keeps_buildings_apart (current_view : string)
    (local_tiles : list (list terrain.Tile))
    (buildings : list building.Building) (next_building_id : Z)
    (building_type : building.BuildingType) (tile_x tile_y : Z)
    (ok : bool) (buildings' : list building.Building) (next_building_id' : Z) :
  well_placed buildings next_building_id ->
  place_building current_view local_tiles buildings next_building_id
    building_type tile_x tile_y
  = Returns (ok, (buildings', next_building_id')) ->
  well_placed buildings' next_building_id'
  /\ if ok
     then current_view = "local"
          /\ buildings'
             = buildings
               ++ [building.new next_building_id building_type tile_x tile_y]
          /\ next_building_id' = next_building_id + 1
     else buildings' = buildings /\ next_building_id' = next_building_id.
Proof.
  intros [Hapart Hids]. unfold place_building.
  destruct (String.eqb_spec current_view "local") as [Hview|Hview]; simpl;
    [|intros [= <- <- <-]; by repeat split].
  destruct (_can_place_building _ _ _ _ _) as [[|]|] eqn:Hcan; simpl;
    [|intros [= <- <- <-]; by repeat split|done].
  intros [= <- <- <-]. split; [|done].
  apply _can_place_building_true in Hcan as [_ Hfree].
  set (b := building.new next_building_id building_type tile_x tile_y).
  assert (Hclash : forall i b1 px py,
            buildings !! i = Some b1 ->
            building.occupies_tile b1 px py = true ->
            building.occupies_tile b px py = true -> False).
  { intros i b1 px py Hi H1 Hb. apply occupies_new in Hb.
    destruct (Hfree px py Hb) as [_ Hall]. rewrite Forall_forall in Hall.
    rewrite (Hall b1) in H1; [done|]. by eapply list_elem_of_lookup_2. }
  split.
  - intros i j b1 b2 px py Hi Hj H1 H2.
    apply lookup_app_Some in Hi as [Hi|[Hil Hi]];
      apply lookup_app_Some in Hj as [Hj|[Hjl Hj]].
    + by apply (Hapart i j b1 b2 px py).
    + apply list_lookup_singleton_Some in Hj as [_ <-].
      exfalso. by apply (Hclash i b1 px py).
    + apply list_lookup_singleton_Some in Hi as [_ <-].
      exfalso. by apply (Hclash j b2 px py).
    + apply list_lookup_singleton_Some in Hi as [Hi _].
      apply list_lookup_singleton_Some in Hj as [Hj _]. lia.
  - apply Forall_app. split.
    + eapply Forall_impl; [exact Hids|]. intros b0 Hb0. simpl in Hb0. lia.
    + apply Forall_singleton. simpl. lia.
Qed.

Lemma X22_placement_keeps_buildings_apart_witness :
  well_placed [scenario.wagon] 2
  /\ well_placed [scenario.wagon; scenario.house] 3.
Proof.
  assert (Hw : well_placed [scenario.wagon] 2).
  { split; [|by repeat constructor].
    intros [|i] [|j] b1 b2 px py Hi Hj _ _; done. }
  split; [exact Hw|].
  apply (X22_placement_keeps_buildings_apart "local" (scenario.grass_grid 20 20)
           [scenario.wagon] 2 building.HOUSE 2 2 true
           [scenario.wagon; scenario.house] 3 Hw).
  vm_compute; reflexivity.
Defined.

End PlacementMore.

Section GeneratorMore.
Import world_generator_advanced gen_facts.

Lemma clamp01_bounds (v : Q) : (0 <= clamp01 v <= 1)%Q.
Proof.
  unfold clamp01, py_max, py_min, Qgtb.
  destruct (Qltb v 1) eqn:E1.
  - destruct (Qltb 0 v) eqn:E2.
    + apply Qltb_lt in E1, E2. split; by apply Qlt_le_weak.
    + split; [apply Qle_refl|done].
  - destruct (Qltb 0 1) eqn:E2; [|done]. split; [done|apply Qle_refl].
Qed.

Lemma lookup_range (a b : Z) (i : nat) (v : Z) :
  range a b !! i = Some v <-> v = a + Z.of_nat i /\ Z.of_nat i < b - a.
Proof. unfold range. rewrite lookup_seqZ. lia. Qed.

(** X23. [generate_world_map] always returns, with [height] rows of
    [width] tiles and without a draw from the random generator. The tile
    of row [j] and column [i] carries the coordinates [(i, j)], an
    elevation and a rainfall between 0 and 1, and the biome that
    [get_biome_from_climate] gives for its own temperature and
    rainfall. *)
Theorem X23_world_tiles_well_formed (self : TieredWorldGenerator)
    (width height : Z) (s : random.State) :
  exists world_tiles,
    generate_world_map self width height s = Returns (world_tiles, s)
    /\ length world_tiles = Z.to_nat height
    /\ forall (j : nat) (row : list WorldTile.t),
         world_tiles !! j = Some row ->
         length row = Z.to_nat width
         /\ forall (i : nat) (tile : WorldTile.t),
              row !! i = Some tile ->
              WorldTile.x tile = Z.of_nat i /\ WorldTile.y tile = Z.of_nat j
              /\ (0 <= WorldTile.elevation tile <= 1)%Q
              /\ (0 <= WorldTile.rainfall tile <= 1)%Q
              /\ WorldTile.biome tile
                 = biomes.get_biome_from_climate (WorldTile.temperature tile)
                     (WorldTile.rainfall tile).
Proof.
  eexists. split; [apply generate_world_map_cells|].
  split; [rewrite length_fmap, length_range; f_equal; lia|].
  intros j row. rewrite list_lookup_fmap.
  destruct (range 0 height !! j) as [y|] eqn:Hy; [|done]. simpl. intros [= <-].
  apply lookup_range in Hy as [-> _].
  split; [rewrite length_fmap, length_range; f_equal; lia|].
  intros i tile. rewrite list_lookup_fmap.
  destruct (range 0 width !! i) as [x|] eqn:Hx; [|done]. simpl. intros [= <-].
  apply lookup_range in Hx as [-> _].
  unfold world_tile. simpl.
  split; [lia|]. split; [lia|].
  split; [apply clamp01_bounds|]. split; [apply clamp01_bounds|done].
Qed.

(** *** Grids related tile by tile, with positions *)

Section Gridwise.

Variable R : nat -> nat -> terrain.Tile -> terrain.Tile -> Prop.
Hypothesis R_refl : forall j i t, R j i t t.
Hypothesis R_trans : forall j i t1 t2 t3, R j i t1 t2 -> R j i t2 t3 -> R j i t1 t3.

Lemma gridwise_refl g : gridwise R g g.
Proof.
  split; [done|]. intros j row row' H1 H2. rewrite H1 in H2. injection H2 as <-.
  split; [done|]. intros i t t' H3 H4. rewrite H3 in H4. injection H4 as <-.
  apply R_refl.
Qed.

Lemma gridwise_trans g1 g2 g3 :
  gridwise R g1 g2 -> gridwise R g2 g3 -> gridwise R g1 g3.
Proof.
  intros [L12 H12] [L23 H23]. split; [congruence|].
  intros j row1 row3 Hr1 Hr3.
  destruct (lookup_lt_is_Some_2 g2 j) as [row2 Hr2];
    [rewrite L12; by eapply lookup_lt_Some|].
  destruct (H12 j row1 row2 Hr1 Hr2) as [Lr12 Hc12].
  destruct (H23 j row2 row3 Hr2 Hr3) as [Lr23 Hc23].
  split; [congruence|]. intros i t1 t3 Ht1 Ht3.
  destruct (lookup_lt_is_Some_2 row2 i) as [t2 Ht2];
    [rewrite Lr12; by eapply lookup_lt_Some|].
  eapply R_trans; [by eapply Hc12|by eapply Hc23].
Qed.

Lemma update_tile_gridwise g ty tx f g' :
  update_tile g ty tx f = Returns g' ->
  (forall j i row t,
     norm_index (length g) ty = Some j -> g !! j = Some row ->
     norm_index (length row) tx = Some i -> row !! i = Some t ->
     R j i t (f t)) ->
  gridwise R g g'.
Proof.
  intros H Hf. apply update_tile_spec in H
    as (j & i & row & tile & Hj & Hrow & Hi & Htile & ->).
  specialize (Hf j i row tile Hj Hrow Hi Htile).
  split; [by rewrite length_insert|].
  intros j' row1 row1' Hr Hr'.
  destruct (decide (j' = j)) as [->|Hne].
  - rewrite Hrow in Hr. injection Hr as <-.
    rewrite list_lookup_insert_eq in Hr' by (by eapply lookup_lt_Some).
    injection Hr' as <-. split; [by rewrite length_insert|].
    intros i' t t' Ht Ht'.
    destruct (decide (i' = i)) as [->|Hni].
    + rewrite Htile in Ht. injection Ht as <-.
      rewrite list_lookup_insert_eq in Ht' by (by eapply lookup_lt_Some).
      by injection Ht' as <-.
    + rewrite list_lookup_insert_ne in Ht' by done.
      rewrite Ht in Ht'. injection Ht' as <-. apply R_refl.
  - rewrite list_lookup_insert_ne in Hr' by done.
    rewrite Hr in Hr'. injection Hr' as <-. split; [done|].
    intros i' t t' Ht Ht'. rewrite Ht in Ht'. injection Ht' as <-. apply R_refl.
Qed.

End Gridwise.

Lemma retyped_refl j i t : retyped j i t t.
Proof. by repeat split. Qed.

Lemma retyped_trans j i t1 t2 t3 :
  retyped j i t1 t2 -> retyped j i t2 t3 -> retyped j i t1 t3.
Proof. unfold retyped. intros (?&?&?) (?&?&?). repeat split; congruence. Qed.

Lemma set_terrain_retyped g ty tx t g' :
  set_terrain g ty tx t = Returns g' -> gridwise retyped g g'.
Proof.
  intros H. apply (update_tile_gridwise retyped retyped_refl _ _ _ _ _ H).
  intros j i row t0 _ _ _ _. by repeat split.
Qed.

Ltac retyped_loop :=
  apply for_each_rel;
    [intros; unfold gridwise_st; apply (gridwise_refl retyped retyped_refl)
    |intros ? ? ?; unfold gridwise_st; apply (gridwise_trans retyped retyped_trans)|].

Ltac retyped_step :=
  repeat (match goal with
          | |- obind (set_terrain ?g ?y ?x ?t) _ = _ -> _ =>
              let E := fresh "E" in
              destruct (set_terrain g y x t) eqn:E; cbn [obind]; [|done];
              apply set_terrain_retyped in E
          | |- set_terrain _ _ _ _ = _ -> _ => apply set_terrain_retyped
          | |- obind ?m _ = _ -> _ => destruct m; cbn [obind]; [|done]
          | |- (if ?b then _ else _) = _ -> _ => destruct b
          | |- (let '(_, _) := ?p in _) = _ -> _ => destruct p
          | |- Returns _ = Returns _ -> _ =>
              intros [= <-]; unfold gridwise_st; simpl;
              first [done | apply (gridwise_refl retyped retyped_refl)]
          end).

Lemma water_to_grass_retyped g ty tx g' :
  water_to_grass g ty tx = Returns g' -> gridwise retyped g g'.
Proof. unfold water_to_grass. retyped_step. Qed.

Lemma _ensure_local_playability_retyped g g' :
  _ensure_local_playability g = Returns g' -> gridwise retyped g g'.
Proof.
  unfold _ensure_local_playability.
  destruct (for_each (range 0 (grid_width g)) _ g) as [g1|] eqn:E1;
    cbn [obind]; [|done].
  destruct (for_each (range 0 (grid_height g)) _ g1) as [g2|] eqn:E2;
    cbn [obind]; [|done].
  intros E3.
  assert (H1 : gridwise retyped g g1).
  { revert E1. retyped_loop. intros x s1 s2 _.
    destruct (water_to_grass s1 0 x) as [s3|] eqn:Ea; cbn [obind]; [|done].
    intros Eb. apply water_to_grass_retyped in Ea, Eb.
    by eapply (gridwise_trans retyped retyped_trans). }
  assert (H2 : gridwise retyped g1 g2).
  { revert E2. retyped_loop. intros y s1 s2 _.
    destruct (water_to_grass s1 y 0) as [s3|] eqn:Ea; cbn [obind]; [|done].
    intros Eb. apply water_to_grass_retyped in Ea, Eb.
    by eapply (gridwise_trans retyped retyped_trans). }
  assert (H3 : gridwise retyped g2 g').
  { revert E3. retyped_loop. intros dy s1 s2 _. retyped_loop. intros dx s3 s4 _.
    retyped_step. }
  eapply (gridwise_trans retyped retyped_trans); [exact H1|].
  by eapply (gridwise_trans retyped retyped_trans).
Qed.


Variable fsqrt : Q -> Q.
Variable set_iter : list biomes.BiomeType -> list biomes.BiomeType.

Lemma grow_forest_retyped width height cx cy radius st st' :
  grow_forest fsqrt width height cx cy radius st = Returns st' ->
  gridwise_st retyped st st'.
Proof.
  unfold grow_forest.
  retyped_loop. intros dy st1 st2 _. retyped_loop. intros dx [g s] st4 _.
  retyped_step.
Qed.

Lemma _add_forests_retyped g tree_density s g' s' :
  _add_forests fsqrt g tree_density s = Returns (g', s') -> gridwise retyped g g'.
Proof.
  unfold _add_forests.
  destruct (Qltb tree_density 0.05);
    [intros [= <- <-]; apply (gridwise_refl retyped retyped_refl)|].
  intros H. change (gridwise_st retyped (g, s) (g', s')). revert H.
  retyped_loop. intros k [g1 s1] st2 _.
  destruct (random.randint 0 (grid_width g - 1) s1) as [[cx s2]|]; cbn [obind];
    [|done].
  destruct (random.randint 0 (grid_height g - 1) s2) as [[cy s3]|]; cbn [obind];
    [|done].
  destruct (terrain_at g1 cy cx) as [t|]; cbn [obind]; [|done].
  destruct (bool_decide _);
    [|intros [= <-]; apply (gridwise_refl retyped retyped_refl)].
  destruct (random.randint 3 _ s3) as [[radius s4]|]; cbn [obind]; [|done].
  apply grow_forest_retyped.
Qed.

Lemma _smooth_terrain_retyped g g' :
  _smooth_terrain g = Returns g' -> gridwise retyped g g'.
Proof.
  unfold _smooth_terrain.
  retyped_loop. intros y g1 g2 _. retyped_loop. intros x g3 g4 _.
  retyped_step.
Qed.

(** *** The placement of the resource nodes *)

Lemma stocked_refl j i t : stocked j i t t.
Proof. by left. Qed.

Lemma stocked_trans j i t1 t2 t3 :
  stocked j i t1 t2 -> stocked j i t2 t3 -> stocked j i t1 t3.
Proof.
  intros [->|(r & -> & Hr)] [->|(r' & -> & Hr')].
  - by left.
  - right. by exists r'.
  - right. by exists r.
  - right. exists r'. split; [by destruct t1|done].
Qed.

Lemma stocked_wooded j i g g' :
  gridwise stocked g g' -> wooded j i g -> wooded j i g'.
Proof.
  intros [Hlen Hrows] Hw row' tile' Hrow' Htile' Hforest.
  destruct (lookup_lt_is_Some_2 g j) as [row Hrow];
    [rewrite <- Hlen; by eapply lookup_lt_Some|].
  destruct (Hrows _ _ _ Hrow Hrow') as [Hl Hcells].
  destruct (lookup_lt_is_Some_2 row i) as [tile Htile];
    [rewrite <- Hl; by eapply lookup_lt_Some|].
  destruct (Hcells _ _ _ Htile Htile') as [->|(r & -> & Hr)].
  - by apply (Hw row).
  - simpl in *. rewrite Hforest in Hr. simpl in Hr. by rewrite Hr.
Qed.

Lemma set_resource_stocked g y x r g' :
  0 <= y -> 0 <= x ->
  update_tile g y x (fun tile => terrain.set_resource tile r) = Returns g' ->
  (forall t, terrain_at g y x = Returns t ->
             fits (Z.to_nat y) (Z.to_nat x) t r) ->
  gridwise stocked g g'.
Proof.
  intros Hy Hx H Hfits.
  apply (update_tile_gridwise stocked stocked_refl _ _ _ _ _ H).
  intros j i row t Hj Hrow Hi Ht.
  right. exists r. split; [done|].
  assert (Hat : terrain_at g y x = Returns (terrain.terrain_type t)).
  { unfold terrain_at, terrain.tile_at, py_index. rewrite Hj, Hrow. simpl.
    by rewrite Hi, Ht. }
  apply norm_index_nonneg in Hj as [-> _]; [|done].
  apply norm_index_nonneg in Hi as [-> _]; [|done].
  by apply Hfits.
Qed.

Lemma set_resource_wooded g y x g' :
  0 <= y -> 0 <= x ->
  update_tile g y x
    (fun tile => terrain.set_resource tile (resource.new resource.TREE x y))
  = Returns g' ->
  wooded (Z.to_nat y) (Z.to_nat x) g'.
Proof.
  intros Hy Hx H. apply update_tile_spec in H
    as (j & i & row & tile & Hj & Hrow & Hi & Htile & ->).
  apply norm_index_nonneg in Hj as [-> Hj]; [|done].
  apply norm_index_nonneg in Hi as [-> Hi]; [|done].
  intros row' tile' Hrow' Htile' _.
  rewrite list_lookup_insert_eq in Hrow' by done. injection Hrow' as <-.
  rewrite list_lookup_insert_eq in Htile' by done. injection Htile' as <-.
  simpl. by rewrite !Z2Nat.id.
Qed.

Lemma terrain_at_wooded g y x t :
  0 <= y -> 0 <= x -> terrain_at g y x = Returns t -> t ≠ terrain.FOREST ->
  wooded (Z.to_nat y) (Z.to_nat x) g.
Proof.
  intros Hy Hx H Hne row tile Hrow Htile Hforest. exfalso. apply Hne.
  unfold terrain_at in H.
  destruct (terrain.tile_at g y x) as [tile0|] eqn:E; simpl in H; [|done].
  injection H as <-.
  apply tile_at_spec in E as (j & i & row0 & Hj & Hrow0 & Hi & Htile0).
  apply norm_index_nonneg in Hj as [-> _]; [|done].
  apply norm_index_nonneg in Hi as [-> _]; [|done].
  rewrite Hrow in Hrow0. injection Hrow0 as <-.
  rewrite Htile in Htile0. by injection Htile0 as <-.
Qed.

(** One visit of [_place_resource_nodes]. *)
Lemma place_step y x g s g' s' :
  0 <= y -> 0 <= x ->
  obind (terrain_at g y x) (fun t =>
    if bool_decide (t = terrain.FOREST) then
      obind
        (update_tile g y x
           (fun tile => terrain.set_resource tile (resource.new resource.TREE x y)))
        (fun tiles => Returns (tiles, s))
    else if is_buildable t then
      let '(random_value, s) := random.random s in
      if Qltb random_value 0.03 then
        obind
          (update_tile g y x
             (fun tile => terrain.set_resource tile (resource.new resource.STONE x y)))
          (fun tiles => Returns (tiles, s))
      else if Qltb random_value 0.08 then
        obind
          (update_tile g y x
             (fun tile =>
                terrain.set_resource tile (resource.new resource.BERRY_BUSH x y)))
          (fun tiles => Returns (tiles, s))
      else Returns (g, s)
    else Returns (g, s)) = Returns (g', s') ->
  gridwise stocked g g' /\ wooded (Z.to_nat y) (Z.to_nat x) g'.
Proof.
  intros Hy Hx.
  destruct (terrain_at g y x) as [t|] eqn:Hat; cbn [obind]; [|done].
  destruct (bool_decide (t = terrain.FOREST)) eqn:Hf.
  { apply bool_decide_eq_true in Hf as ->.
    destruct (update_tile _ _ _ _) as [g2|] eqn:E; cbn [obind]; [|done].
    intros [= <- <-]. split; [|by apply (set_resource_wooded g y x g2 Hy Hx)].
    apply (set_resource_stocked g y x _ g2 Hy Hx E).
    intros t'. rewrite Hat. intros [= <-]. simpl. by rewrite !Z2Nat.id. }
  apply bool_decide_eq_false in Hf.
  assert (Hkeep : gridwise stocked g g /\ wooded (Z.to_nat y) (Z.to_nat x) g).
  { split; [apply (gridwise_refl stocked stocked_refl)|].
    by apply (terrain_at_wooded g y x t Hy Hx). }
  assert (Hput : forall r g2,
            is_buildable t = true ->
            r = resource.new resource.STONE x y
            \/ r = resource.new resource.BERRY_BUSH x y ->
            update_tile g y x (fun tile => terrain.set_resource tile r) = Returns g2 ->
            gridwise stocked g g2 /\ wooded (Z.to_nat y) (Z.to_nat x) g2).
  { intros r g2 Hb Hr E.
    assert (Hs : gridwise stocked g g2).
    { apply (set_resource_stocked g y x _ g2 Hy Hx E).
      intros t'. rewrite Hat. intros [= <-].
      unfold is_buildable in Hb. apply orb_true_iff in Hb.
      destruct Hb as [Hb|Hb]; apply bool_decide_eq_true in Hb; subst t; simpl;
        by rewrite !Z2Nat.id. }
    split; [done|]. apply (stocked_wooded _ _ g); [done|].
    by apply (terrain_at_wooded g y x t Hy Hx). }
  destruct (is_buildable t) eqn:Hb; [|by intros [= <- <-]].
  destruct (random.random s) as [v s2].
  destruct (Qltb v 0.03).
  { destruct (update_tile _ _ _ _) as [g2|] eqn:E; cbn [obind]; [|done].
    intros [= <- <-]. eapply Hput; [done|by left|exact E]. }
  destruct (Qltb v 0.08); [|by intros [= <- <-]].
  destruct (update_tile _ _ _ _) as [g2|] eqn:E; cbn [obind]; [|done].
  intros [= <- <-]. eapply Hput; [done|by right|exact E].
Qed.

Lemma _place_resource_nodes_stocked g s g' s' :
  _place_resource_nodes g s = Returns (g', s') ->
  gridwise stocked g g'
  /\ forall y x, 0 <= y < grid_height g -> 0 <= x < grid_width g ->
       wooded (Z.to_nat y) (Z.to_nat x) g'.
Proof.
  unfold _place_resource_nodes. intros H.
  apply (for_each_inv (gridwise_st stocked)
           (fun y st => forall x, 0 <= x < grid_width g ->
                                  wooded (Z.to_nat y) (Z.to_nat x) (fst st)))
    in H as [HR HQ].
  - split; [exact HR|]. intros y x Hy Hx.
    apply (HQ y); [by apply elem_of_range|done].
  - intros st. apply (gridwise_refl stocked stocked_refl).
  - intros st1 st2 st3. apply (gridwise_trans stocked stocked_trans).
  - intros y st1 st2 Hy _ Hrow. apply elem_of_range in Hy.
    apply (for_each_inv (gridwise_st stocked)
             (fun x st => wooded (Z.to_nat y) (Z.to_nat x) (fst st)))
      in Hrow as [HR' HQ'].
    + split; [exact HR'|]. intros x Hx. apply HQ'. by apply elem_of_range.
    + intros st. apply (gridwise_refl stocked stocked_refl).
    + intros sa sb sc. apply (gridwise_trans stocked stocked_trans).
    + intros x [ga sa] [gb sb] Hx _ Hstep. apply elem_of_range in Hx.
      unfold gridwise_st. simpl. eapply place_step; [| |exact Hstep]; lia.
    + intros x sa sb Hw Hs. by eapply stocked_wooded.
  - intros y sa sb Hw Hs x Hx. eapply stocked_wooded; [exact Hs|by apply Hw].
Qed.


(** *** The cells of the local map *)

(** A loop that appends one item per iteration, the item of iteration
    [a] satisfying [P a]. *)
Lemma for_each_append_Forall2 {A B S : Type} (P : A -> B -> Prop) (l : list A)
    (body : A -> list B * S -> outcome (list B * S)) (st st' : list B * S) :
  (forall a st1 st2, body a st1 = Returns st2 ->
                     exists b, fst st2 = fst st1 ++ [b] /\ P a b) ->
  for_each l body st = Returns st' ->
  exists bs, fst st' = fst st ++ bs /\ Forall2 P l bs.
Proof.
  intros Hbody. revert st. induction l as [|a l IH]; intros st; simpl.
  - intros [= <-]. exists []. by rewrite app_nil_r.
  - destruct (body a st) as [st1|] eqn:E; simpl; [|done].
    intros H. destruct (Hbody _ _ _ E) as (b & Hb & HP).
    destruct (IH _ H) as (bs & Hbs & Hall).
    exists (b :: bs). split; [|by constructor].
    by rewrite Hbs, Hb, <- app_assoc.
Qed.

Lemma draft_local_map_fresh self biome_props avg_e avg_m ox oy lw lh s g s' :
  draft_local_map self biome_props avg_e avg_m ox oy lw lh s = Returns (g, s') ->
  grid_of fresh (Z.to_nat lw) (Z.to_nat lh) g.
Proof.
  unfold draft_local_map. intros H.
  apply (for_each_append_Forall2
           (fun y row =>
              Forall2 (fun x t => terrain.x t = x /\ terrain.y t = y
                                  /\ terrain.resource t = None)
                (range 0 lw) row))
    in H as (rows & Hrows & Hall).
  - simpl in Hrows. subst g. split.
    + rewrite <- (Forall2_length _ _ _ Hall), length_range. f_equal. lia.
    + intros j row Hrow.
      destruct (Forall2_lookup_r _ _ _ _ _ Hall Hrow) as (y & Hy & Hcells).
      apply lookup_range in Hy as [-> _]. split.
      * rewrite <- (Forall2_length _ _ _ Hcells), length_range. f_equal. lia.
      * intros i t Ht.
        destruct (Forall2_lookup_r _ _ _ _ _ Hcells Ht) as (x & Hx & Hx' & Hy' & Hr).
        apply lookup_range in Hx as [-> _]. unfold fresh. split; [lia|].
        split; [lia|done].
  - intros y [g1 s1] st2.
    destruct (for_each (range 0 lw) _ ([], s1)) as [[row s2]|] eqn:E;
      cbn [obind]; [|done].
    intros [= <-]. exists row. split; [done|].
    apply (for_each_append_Forall2
             (fun x t => terrain.x t = x /\ terrain.y t = y
                         /\ terrain.resource t = None))
      in E as (cells & Hcells & Hall).
    + simpl in Hcells. by subst row.
    + intros x [r1 s3] st4.
      destruct (_get_terrain_from_biome _ _ _ s3) as [t s4].
      intros [= <-]. eexists. split; [done|]. by repeat split.
Qed.

Lemma _generate_fallback_map_fresh width height :
  grid_of (fun j i t => fresh j i t /\ terrain.terrain_type t = terrain.GRASS)
    (Z.to_nat width) (Z.to_nat height) (_generate_fallback_map width height).
Proof.
  unfold _generate_fallback_map. split.
  - rewrite length_fmap, length_range. f_equal. lia.
  - intros j row. rewrite list_lookup_fmap.
    destruct (range 0 height !! j) as [y|] eqn:Hy; [|done]. simpl. intros [= <-].
    apply lookup_range in Hy as [-> _]. split.
    + rewrite length_fmap, length_range. f_equal. lia.
    + intros i t. rewrite list_lookup_fmap.
      destruct (range 0 width !! i) as [x|] eqn:Hx; [|done]. simpl. intros [= <-].
      apply lookup_range in Hx as [-> _]. unfold fresh. simpl.
      repeat split; lia.
Qed.

Lemma gridwise_grid_of (R : nat -> nat -> terrain.Tile -> terrain.Tile -> Prop)
    (P P' : nat -> nat -> terrain.Tile -> Prop) w h g g' :
  (forall j i t t', R j i t t' -> P j i t -> P' j i t') ->
  gridwise R g g' -> grid_of P w h g -> grid_of P' w h g'.
Proof.
  intros HR [Hlen Hrows] [Hh Hcells]. split; [congruence|].
  intros j row' Hrow'.
  destruct (lookup_lt_is_Some_2 g j) as [row Hrow];
    [rewrite <- Hlen; by eapply lookup_lt_Some|].
  destruct (Hrows _ _ _ Hrow Hrow') as [Hl Hc].
  destruct (Hcells _ _ Hrow) as [Hw HP].
  split; [congruence|]. intros i t' Ht'.
  destruct (lookup_lt_is_Some_2 row i) as [t Ht];
    [rewrite <- Hl; by eapply lookup_lt_Some|].
  apply (HR j i t t'); [by eapply Hc|by eapply HP].
Qed.

Lemma retyped_fresh j i t t' : retyped j i t t' -> fresh j i t -> fresh j i t'.
Proof. unfold retyped, fresh. intros (?&?&?) (?&?&?). repeat split; congruence. Qed.

Lemma finish_local_map_finished w h g biome_props s g' s' :
  grid_of fresh w h g ->
  finish_local_map fsqrt g biome_props s = Returns (g', s') ->
  grid_of finished w h g'.
Proof.
  intros Hg. unfold finish_local_map.
  destruct (_ensure_local_playability g) as [g1|] eqn:E1; cbn [obind]; [|done].
  destruct (_add_forests fsqrt g1 _ s) as [[g2 s2]|] eqn:E2; cbn [obind]; [|done].
  destruct (_smooth_terrain g2) as [g3|] eqn:E3; cbn [obind]; [|done].
  intros E4.
  apply _ensure_local_playability_retyped in E1.
  apply _add_forests_retyped in E2. apply _smooth_terrain_retyped in E3.
  apply _place_resource_nodes_stocked in E4 as [E4 Hwooded].
  assert (H3 : grid_of fresh w h g3).
  { apply (gridwise_grid_of retyped fresh fresh w h g2); [apply retyped_fresh|done|].
    apply (gridwise_grid_of retyped fresh fresh w h g1); [apply retyped_fresh|done|].
    by apply (gridwise_grid_of retyped fresh fresh w h g); [apply retyped_fresh|..]. }
  destruct H3 as [H3h H3c]. destruct E4 as [Hlen Hrows]. split; [congruence|].
  intros j row' Hrow'.
  destruct (lookup_lt_is_Some_2 g3 j) as [row Hrow];
    [rewrite <- Hlen; by eapply lookup_lt_Some|].
  destruct (Hrows _ _ _ Hrow Hrow') as [Hl Hc].
  destruct (H3c _ _ Hrow) as [Hw HP].
  split; [congruence|]. intros i t' Ht'.
  destruct (lookup_lt_is_Some_2 row i) as [t Ht];
    [rewrite <- Hl; by eapply lookup_lt_Some|].
  destruct (HP _ _ Ht) as (Hx & Hy & Hnone).
  assert (Hj : (j < length g3)%nat) by (by eapply lookup_lt_Some).
  assert (Hi : (i < length row)%nat) by (by eapply lookup_lt_Some).
  assert (Hgw : grid_width g3 = Z.of_nat w).
  { unfold grid_width. destruct g3 as [|row0 g3]; [simpl in Hj; lia|]. simpl.
    by destruct (H3c 0%nat row0 eq_refl) as [-> _]. }
  assert (Hwd : wooded j i g').
  { rewrite <- (Nat2Z.id j), <- (Nat2Z.id i). apply Hwooded.
    - unfold grid_height. lia.
    - rewrite Hgw. lia. }
  destruct (Hc _ _ _ Ht Ht') as [->|(r & -> & Hr)].
  - split; [done|]. split; [done|]. split; [by apply (Hwd row')|].
    intros r. by rewrite Hnone.
  - simpl. split; [done|]. split; [done|].
    split; [intros Hf; by apply (Hwd row')|]. by intros r' [= <-].
Qed.

(** The cells of a local map, whichever way it was made. *)
Lemma generate_local_map_finished self region_tiles chunk_x chunk_y chunk_width
    chunk_height local_width local_height s tiles s' :
  generate_local_map set_iter fsqrt self region_tiles chunk_x chunk_y
    chunk_width chunk_height local_width local_height s = Returns (tiles, s') ->
  grid_of finished (Z.to_nat local_width) (Z.to_nat local_height) tiles.
Proof.
  unfold generate_local_map.
  destruct (chunk_of _ _ _ _ _) as [chunk_tiles|]; cbn [obind]; [|done].
  destruct chunk_tiles as [|t0 chunk_tiles].
  - intros [= <- <-].
    destruct (_generate_fallback_map_fresh local_width local_height) as [Hh Hc].
    split; [done|]. intros j row Hrow. destruct (Hc j row Hrow) as [Hw HP].
    split; [done|]. intros i t Ht. destruct (HP i t Ht) as [(Hx & Hy & Hn) Hg].
    split; [done|]. split; [done|]. split; [by rewrite Hg|].
    intros r. by rewrite Hn.
  - destruct (set_iter _) as [|b0 others]; [done|].
    destruct (draft_local_map _ _ _ _ _ _ _ _ _) as [[g s1]|] eqn:E;
      cbn [obind]; [|done].
    apply draft_local_map_fresh in E. by apply finish_local_map_finished.
Qed.

(** X24. A local map returned by [generate_local_map] has
    [local_height] rows of [local_width] tiles, and the tile of row [j]
    and column [i] carries the coordinates [(i, j)]: the playability,
    forest, smoothing and resource passes keep the shape and the
    coordinates of the first draft. *)
Theorem X24_local_map_shape (self : TieredWorldGenerator)
    (region_tiles : list (list RegionTile.t))
    (chunk_x chunk_y chunk_width chunk_height local_width local_height : Z)
    (s s' : random.State) (tiles : list (list terrain.Tile)) :
  generate_local_map set_iter fsqrt self region_tiles chunk_x chunk_y
    chunk_width chunk_height local_width local_height s = Returns (tiles, s') ->
  length tiles = Z.to_nat local_height
  /\ forall (j : nat) (row : list terrain.Tile),
       tiles !! j = Some row ->
       length row = Z.to_nat local_width
       /\ forall (i : nat) (tile : terrain.Tile),
            row !! i = Some tile ->
            terrain.x tile = Z.of_nat i /\ terrain.y tile = Z.of_nat j.
Proof.
  intros H. apply generate_local_map_finished in H as [Hh Hc].
  split; [done|]. intros j row Hrow. destruct (Hc j row Hrow) as [Hw HP].
  split; [done|]. intros i tile Ht. by destruct (HP i tile Ht) as (? & ? & _).
Qed.

(** X25. On a local map returned by [generate_local_map] every Forest
    tile carries a tree node placed at the tile, a Grass or Dirt tile
    carries nothing or a stone or berry-bush node placed at the tile, and
    a Water, Sand or Stone tile carries no resource. *)
Theorem X25_local_map_resources (self : TieredWorldGenerator)
    (region_tiles : list (list RegionTile.t))
    (chunk_x chunk_y chunk_width chunk_height local_width local_height : Z)
    (s s' : random.State) (tiles : list (list terrain.Tile))
    (j i : nat) (row : list terrain.Tile) (tile : terrain.Tile) :
  generate_local_map set_iter fsqrt self region_tiles chunk_x chunk_y
    chunk_width chunk_height local_width local_height s = Returns (tiles, s') ->
  tiles !! j = Some row -> row !! i = Some tile ->
  match terrain.terrain_type tile with
  | terrain.FOREST =>
      terrain.resource tile
      = Some (resource.new resource.TREE (Z.of_nat i) (Z.of_nat j))
  | terrain.GRASS | terrain.DIRT =>
      terrain.resource tile = None
      \/ terrain.resource tile
         = Some (resource.new resource.STONE (Z.of_nat i) (Z.of_nat j))
      \/ terrain.resource tile
         = Some (resource.new resource.BERRY_BUSH (Z.of_nat i) (Z.of_nat j))
  | _ => terrain.resource tile = None
  end.
Proof.
  intros H Hrow Ht. apply generate_local_map_finished in H as [_ Hc].
  destruct (Hc j row Hrow) as [_ HP].
  destruct (HP i tile Ht) as (_ & _ & Hforest & Hfits).
  destruct (terrain.terrain_type tile) eqn:Hty; try by apply Hforest.
  all: destruct (terrain.resource tile) as [r|] eqn:Hr; [|by auto].
  all: specialize (Hfits r eq_refl); simpl in Hfits; try done.
  all: destruct Hfits as [->| ->]; auto.
Qed.


End GeneratorMore.

Section GeneratorScenarios.
Import world_generator_advanced gen_facts.

Lemma X24_local_map_shape_witness :
  exists tiles s',
    scenario.local_map = Returns (tiles, s')
    /\ length tiles = Z.to_nat 13
    /\ forall (j : nat) (row : list terrain.Tile),
         tiles !! j = Some row ->
         length row = Z.to_nat 13
         /\ forall (i : nat) (tile : terrain.Tile),
              row !! i = Some tile ->
              terrain.x tile = Z.of_nat i /\ terrain.y tile = Z.of_nat j.
Proof.
  eexists _, _. split; [vm_compute; reflexivity|].
  eapply (X24_local_map_shape pathfinding.approx_sqrt remove_dups
            (mkGenerator 12345 (scenario.flat_noise 12345)
               (scenario.flat_noise 12346) (scenario.flat_noise 12347)
               (scenario.flat_noise 12348))
            scenario.forest_region 0 0 3 3 13 13 scenario.forest_draws).
  vm_compute; reflexivity.
Defined.

Lemma X25_local_map_resources_witness :
  exists tiles s' row tile,
    scenario.local_map = Returns (tiles, s')
    /\ tiles !! 6%nat = Some row /\ row !! 6%nat = Some tile
    /\ terrain.terrain_type tile = terrain.FOREST
    /\ terrain.resource tile = Some (resource.new resource.TREE 6 6).
Proof.
  destruct scenario.local_map as [[tiles s']|] eqn:E;
    [|vm_compute in E; discriminate].
  pose proof E as E'. vm_compute in E'. injection E' as Ht Hs.
  destruct (tiles !! 6%nat) as [row|] eqn:Hrow; [|by subst tiles].
  destruct (row !! 6%nat) as [tile|] eqn:Htile;
    [|subst tiles; injection Hrow as <-; discriminate].
  pose proof (X25_local_map_resources pathfinding.approx_sqrt remove_dups
                (mkGenerator 12345 (scenario.flat_noise 12345)
                   (scenario.flat_noise 12346) (scenario.flat_noise 12347)
                   (scenario.flat_noise 12348))
                scenario.forest_region 0 0 3 3 13 13 scenario.forest_draws s'
                tiles 6%nat 6%nat row tile E Hrow Htile) as W.
  assert (Hf : terrain.terrain_type tile = terrain.FOREST).
  { subst tiles. injection Hrow as <-. by injection Htile as <-. }
  rewrite Hf in W. exists tiles, s', row, tile. by repeat split.
Defined.

End GeneratorScenarios.

Section NewGameMore.
Import world_generator_advanced gen_facts job_facts.

Variable fsqrt : Q -> Q.
Variable set_iter : list biomes.BiomeType -> list biomes.BiomeType.

Lemma elem_of_collect_resource_nodes (tiles : list (list terrain.Tile))
    (node : resource.Resource) :
  node ∈ game_state._collect_resource_nodes tiles
  <-> exists j i row tile,
        tiles !! j = Some row /\ row !! i = Some tile
        /\ terrain.resource tile = Some node.
Proof.
  unfold game_state._collect_resource_nodes.
  rewrite list_elem_of_join. split.
  - intros (l & Hnode & Hl). apply list_elem_of_fmap in Hl as (row & -> & Hrow).
    apply list_elem_of_omap in Hnode as (tile & Htile & Hres).
    apply list_elem_of_lookup in Hrow as [j Hj].
    apply list_elem_of_lookup in Htile as [i Hi]. by exists j, i, row, tile.
  - intros (j & i & row & tile & Hj & Hi & Hres).
    exists (omap terrain.resource row). split.
    + apply list_elem_of_omap. exists tile.
      split; [by eapply list_elem_of_lookup_2|done].
    + apply list_elem_of_fmap. exists row.
      split; [done|by eapply list_elem_of_lookup_2].
Qed.

(** X27. The resource nodes that [_collect_resource_nodes] takes from a
    freshly generated local map are new nodes placed on a tile of the map:
    each is full, not depleted, not claimed and not designated. So, until
    the player designates a node, [_find_gathering_task] hands out no
    gathering work and leaves the nodes as they are, whoever asks. *)
Theorem X27_new_game_nodes_wait_for_designation (self : TieredWorldGenerator)
    (region_tiles : list (list RegionTile.t))
    (chunk_x chunk_y chunk_width chunk_height local_width local_height : Z)
    (s s' : random.State) (tiles : list (list terrain.Tile)) :
  generate_local_map set_iter fsqrt self region_tiles chunk_x chunk_y
    chunk_width chunk_height local_width local_height s = Returns (tiles, s') ->
  Forall
    (fun node =>
       (exists j i row tile,
          tiles !! j = Some row /\ row !! i = Some tile
          /\ terrain.resource tile = Some node
          /\ resource.x node = Z.of_nat i /\ resource.y node = Z.of_nat j)
       /\ resource.amount_remaining node = resource.max_amount node
       /\ resource.is_depleted node = false
       /\ resource.currently_being_gathered node = false
       /\ resource.designated node = false)
    (game_state._collect_resource_nodes tiles)
  /\ forall c : citizen.Citizen,
       job_manager._find_gathering_task c (game_state._collect_resource_nodes tiles)
       = (None, game_state._collect_resource_nodes tiles).
Proof.
  intros H. apply generate_local_map_finished in H as [_ Hcells].
  assert (Hnodes : forall node,
            node ∈ game_state._collect_resource_nodes tiles ->
            exists j i row tile kind,
              tiles !! j = Some row /\ row !! i = Some tile
              /\ terrain.resource tile = Some node
              /\ node = resource.new kind (Z.of_nat i) (Z.of_nat j)).
  { intros node Hin.
    apply elem_of_collect_resource_nodes in Hin
      as (j & i & row & tile & Hj & Hi & Hres).
    destruct (Hcells j row Hj) as [_ HP].
    destruct (HP i tile Hi) as (_ & _ & _ & Hfits).
    specialize (Hfits node Hres). exists j, i, row, tile.
    unfold fits in Hfits.
    destruct (terrain.terrain_type tile); try done;
      try (destruct Hfits as [->| ->]); subst; by eexists. }
  split.
  - apply Forall_forall. intros node Hin.
    destruct (Hnodes node Hin) as (j & i & row & tile & kind & Hj & Hi & Hres & ->).
    split; [exists j, i, row, tile; by destruct kind|]. by destruct kind.
  - intros c.
    pose proof (_find_gathering_task_claims c
                  (game_state._collect_resource_nodes tiles)) as Hcases.
    destruct (job_manager._find_gathering_task c _) as [[k|] nodes'].
    + destruct Hcases as (node & Hk & (Hd & _) & _). exfalso.
      destruct (Hnodes node) as (j & i & row & tile & kind & _ & _ & _ & ->);
        [by eapply list_elem_of_lookup_2|].
      by destruct kind.
    + by rewrite Hcases.
Qed.

End NewGameMore.

Section NewGameScenarios.
Import world_generator_advanced gen_facts job_facts.

Lemma X27_new_game_nodes_wait_for_designation_witness :
  exists tiles s',
    scenario.local_map = Returns (tiles, s')
    /\ (0 < length (game_state._collect_resource_nodes tiles))%nat
    /\ job_manager._find_gathering_task scenario.settler
         (game_state._collect_resource_nodes tiles)
       = (None, game_state._collect_resource_nodes tiles).
Proof.
  destruct scenario.local_map as [[tiles s']|] eqn:E;
    [|vm_compute in E; discriminate].
  exists tiles, s'. split; [done|]. split.
  - pose proof E as E'. vm_compute in E'. injection E' as <- _.
    apply Nat.ltb_lt. vm_compute. reflexivity.
  - apply (X27_new_game_nodes_wait_for_designation pathfinding.approx_sqrt
             remove_dups
             (mkGenerator 12345 (scenario.flat_noise 12345)
                (scenario.flat_noise 12346) (scenario.flat_noise 12347)
                (scenario.flat_noise 12348))
             scenario.forest_region 0 0 3 3 13 13 scenario.forest_draws s'
             tiles E).
Defined.

End NewGameScenarios.

Section RegionMore.
Import world_generator_advanced gen_facts.

Lemma adjusted_refl t : adjusted t t.
Proof. unfold adjusted. repeat split; by left. Qed.

Lemma adjust_tile_adjusted tile s :
  adjusted tile (fst (adjust_tile tile s)).
Proof.
  unfold adjust_tile.
  destruct (bool_decide _) eqn:E1.
  - apply bool_decide_eq_true in E1. destruct (random.random s) as [d s1].
    destruct (Qltb d 0.5); simpl; [|apply adjusted_refl].
    unfold adjusted. simpl. repeat split. right. by left.
  - destruct (bool_decide _ && _) eqn:E2; [|apply adjusted_refl].
    apply andb_prop in E2 as [Hw He]. apply bool_decide_eq_true in Hw.
    unfold Qgtb in He. apply Qltb_lt in He.
    destruct (random.random s) as [d s1].
    destruct (Qltb d 0.3); simpl; [|apply adjusted_refl].
    unfold adjusted. simpl. repeat split. right. by right.
Qed.

Lemma adjust_row_adjusted row s :
  Forall2 adjusted row (fst (adjust_row row s)).
Proof.
  revert s. induction row as [|tile rest IH]; intros s; simpl; [constructor|].
  pose proof (adjust_tile_adjusted tile s) as Ht.
  destruct (adjust_tile tile s) as [tile' s1].
  specialize (IH s1). destruct (adjust_row rest s1) as [rest' s2].
  by constructor.
Qed.

Lemma adjust_rows_adjusted rows s :
  Forall2 (Forall2 adjusted) rows (fst (adjust_rows rows s)).
Proof.
  revert s. induction rows as [|row rest IH]; intros s; simpl; [constructor|].
  pose proof (adjust_row_adjusted row s) as Hr.
  destruct (adjust_row row s) as [row' s1].
  specialize (IH s1). destruct (adjust_rows rest s1) as [rest' s2].
  by constructor.
Qed.

Lemma adjusted_buildable t t' :
  adjusted t t' -> region_buildable t -> region_buildable t'.
Proof.
  unfold region_buildable.
  intros (_ & _ & _ & _ & _ & [->|[[Hs ->]|(Hw & -> & _)]]) Hb; auto.
Qed.

Lemma adjusted_count_row row row' :
  Forall2 adjusted row row' ->
  (length (filter region_buildable row) <= length (filter region_buildable row'))%nat.
Proof.
  induction 1 as [|t t' l l' Ht Hl IH]; [done|].
  rewrite !filter_cons.
  destruct (decide (region_buildable t)) as [Hb|Hn].
  - rewrite decide_True by (by eapply adjusted_buildable). simpl. lia.
  - destruct (decide (region_buildable t')); simpl; lia.
Qed.

Lemma adjusted_count rows rows' :
  Forall2 (Forall2 adjusted) rows rows' ->
  (buildable_count rows <= buildable_count rows')%nat.
Proof.
  unfold buildable_count.
  induction 1 as [|row row' l l' Hr Hl IH]; [done|].
  simpl. rewrite !filter_app, !length_app.
  pose proof (adjusted_count_row _ _ Hr). lia.
Qed.

(** [_ensure_region_playability] raises on a region without rows only,
    and adjusts the tiles one by one. *)
Lemma _ensure_region_playability_adjusted
    (region_tiles : list (list RegionTile.t)) (s : random.State) :
  match _ensure_region_playability region_tiles s with
  | Raises => region_tiles = []
  | Returns (region_tiles', s') =>
      region_tiles ≠ [] /\ Forall2 (Forall2 adjusted) region_tiles region_tiles'
  end.
Proof.
  unfold _ensure_region_playability.
  destruct region_tiles as [|row0 rows]; [done|].
  change (py_index (row0 :: rows) 0) with (Returns (A := list RegionTile.t) row0).
  cbn [obind].
  match goal with
  | |- context [Qltb ?a ?b] => destruct (Qltb a b)
  end.
  - pose proof (adjust_rows_adjusted (row0 :: rows) s) as Hadj.
    by destruct (adjust_rows (row0 :: rows) s) as [rows' s1].
  - split; [done|].
    apply Forall_Forall2_diag, Forall_forall; intros row _.
    apply Forall_Forall2_diag, Forall_forall; intros t _. apply adjusted_refl.
Qed.

(** X28. [_ensure_region_playability] raises on a region without rows
    and returns otherwise. What it returns has the rows and the tiles of
    the region it was given, each tile as it was or turned from Stone
    into Dirt or from Water above elevation 0.22 into Grass, so never with
    fewer Grass and Dirt tiles; and a region of which three tenths or
    more are Grass or Dirt is returned as it is, without a draw. *)
Theorem X28_region_playability_pass
    (region_tiles : list (list RegionTile.t)) (s : random.State) :
  match _ensure_region_playability region_tiles s with
  | Raises => region_tiles = []
  | Returns (region_tiles', s') =>
      region_tiles ≠ []
      /\ Forall2 (Forall2 adjusted) region_tiles region_tiles'
      /\ (buildable_count region_tiles <= buildable_count region_tiles')%nat
      /\ ((inject_Z (grid_height region_tiles * grid_width region_tiles) * 0.3
           <= inject_Z (Z.of_nat (buildable_count region_tiles)))%Q ->
          region_tiles' = region_tiles /\ s' = s)
  end.
Proof.
  unfold _ensure_region_playability.
  destruct region_tiles as [|row0 rows]; [done|].
  change (py_index (row0 :: rows) 0) with (Returns (A := list RegionTile.t) row0).
  cbn [obind].
  match goal with
  | |- context [Qltb ?a ?b] => destruct (Qltb a b) eqn:E
  end.
  - pose proof (adjust_rows_adjusted (row0 :: rows) s) as Hadj.
    destruct (adjust_rows (row0 :: rows) s) as [rows' s1]. simpl in Hadj.
    split; [done|]. split; [done|]. split; [by apply adjusted_count|].
    intros Hle. apply Qltb_lt in E. exfalso.
    unfold grid_height, grid_width, buildable_count in Hle. simpl in Hle.
    unfold id in Hle. apply (Qlt_not_le _ _ E). exact Hle.
  - split; [done|].
    split; [apply Forall_Forall2_diag, Forall_forall; intros row _;
            apply Forall_Forall2_diag, Forall_forall; intros t _;
            apply adjusted_refl|].
    split; [done|]. done.
Qed.

Lemma region_rows_return (P : Z -> Z -> RegionTile.t -> Prop)
    (pick : Z -> Z -> random.State -> terrain.TerrainType * random.State)
    (make : Z -> Z -> terrain.TerrainType -> RegionTile.t)
    (width : Z) (ys : list Z) (acc : list (list RegionTile.t)) (s : random.State) :
  (forall x y t, P y x (make x y t)) ->
  exists rows s',
    for_each ys
      (fun y '(region_tiles, s) =>
         obind
           (for_each (range 0 width)
              (fun x '(row, s) =>
                 let '(terrain_type, s) := pick x y s in
                 Returns (row ++ [make x y terrain_type], s))
              ([], s))
           (fun '(row, s) => Returns (region_tiles ++ [row], s)))
      (acc, s)
    = Returns (acc ++ rows, s')
    /\ Forall2 (fun y row => Forall2 (P y) (range 0 width) row) ys rows.
Proof.
  intros Hcell. revert acc s.
  assert (Hrow : forall y xs row0 s0,
            exists row s1,
              for_each xs
                (fun x '(row, s) =>
                   let '(terrain_type, s) := pick x y s in
                   Returns (row ++ [make x y terrain_type], s))
                (row0, s0)
              = Returns (row0 ++ row, s1)
              /\ Forall2 (P y) xs row).
  { intros y xs. induction xs as [|x xs IH]; intros row0 s0; simpl.
    - exists [], s0. by rewrite app_nil_r.
    - destruct (pick x y s0) as [t s1]. simpl.
      destruct (IH (row0 ++ [make x y t]) s1) as (row & s2 & -> & Hall).
      exists (make x y t :: row), s2. rewrite <- app_assoc. split; [done|].
      by constructor. }
  induction ys as [|y ys IH]; intros acc s; simpl.
  - exists [], s. by rewrite app_nil_r.
  - destruct (Hrow y (range 0 width) [] s) as (row & s1 & -> & Hall). simpl.
    destruct (IH (acc ++ [row]) s1) as (rows & s2 & -> & Hrows).
    exists (row :: rows), s2. rewrite <- app_assoc. split; [done|].
    by constructor.
Qed.

(** X29. [generate_region_from_world_tile] raises when [region_height]
    is not positive, and returns otherwise. The region it returns has
    [region_height] rows of [region_width] tiles; the tile of row [j] and
    column [i] carries the coordinates [(i, j)], the biome of the world
    tile, and an elevation and a moisture between 0 and 1. *)
Theorem X29_region_tiles_well_formed (self : TieredWorldGenerator)
    (world_tile : WorldTile.t) (region_width region_height : Z)
    (s : random.State) :
  match generate_region_from_world_tile self world_tile region_width
          region_height s with
  | Raises => region_height <= 0
  | Returns (region_tiles, s') =>
      0 < region_height
      /\ length region_tiles = Z.to_nat region_height
      /\ forall (j : nat) (row : list RegionTile.t),
           region_tiles !! j = Some row ->
           length row = Z.to_nat region_width
           /\ forall (i : nat) (tile : RegionTile.t),
                row !! i = Some tile ->
                RegionTile.x tile = Z.of_nat i /\ RegionTile.y tile = Z.of_nat j
                /\ RegionTile.biome tile = WorldTile.biome world_tile
                /\ (0 <= RegionTile.elevation tile <= 1)%Q
                /\ (0 <= RegionTile.moisture tile <= 1)%Q
  end.
Proof.
  unfold generate_region_from_world_tile.
  set (P := fun (y x : Z) (t : RegionTile.t) =>
              RegionTile.x t = x /\ RegionTile.y t = y
              /\ RegionTile.biome t = WorldTile.biome world_tile
              /\ (0 <= RegionTile.elevation t <= 1)%Q
              /\ (0 <= RegionTile.moisture t <= 1)%Q).
  set (offset_x := WorldTile.x world_tile * region_width).
  set (offset_y := WorldTile.y world_tile * region_height).
  set (pick := fun (x y : Z) (s0 : random.State) =>
         _get_terrain_from_biome
           (biomes.get_biome_properties (WorldTile.biome world_tile))
           (_generate_constrained_elevation self x y offset_x offset_y
              (WorldTile.elevation world_tile))
           (_generate_constrained_moisture self x y offset_x offset_y
              (WorldTile.rainfall world_tile)) s0).
  set (make := fun (x y : Z) (t : terrain.TerrainType) =>
         RegionTile.mk x y
           (_generate_constrained_elevation self x y offset_x offset_y
              (WorldTile.elevation world_tile))
           (_generate_constrained_moisture self x y offset_x offset_y
              (WorldTile.rainfall world_tile))
           (WorldTile.biome world_tile) t).
  destruct (region_rows_return P pick make region_width (range 0 region_height)
              [] s) as (rows & s1 & Hrun & Hrows).
  { intros x y t. unfold P, make. simpl. repeat split; apply clamp01_bounds. }
  match goal with
  | |- match obind ?loop _ with _ => _ end =>
      assert (Hrun' : loop = Returns ([] ++ rows, s1)) by exact Hrun;
      rewrite Hrun'
  end.
  cbn [obind app].
  assert (Hlen : length rows = Z.to_nat region_height).
  { rewrite <- (Forall2_length _ _ _ Hrows), length_range. f_equal. lia. }
  pose proof (_ensure_region_playability_adjusted rows s1) as Hpass.
  destruct (_ensure_region_playability rows s1) as [[rows' s2]|].
  - destruct Hpass as (Hne & Hadj).
    split; [destruct rows; [done|simpl in Hlen; lia]|].
    split; [by rewrite <- (Forall2_length _ _ _ Hadj)|].
    intros j row' Hrow'.
    destruct (Forall2_lookup_r _ _ _ _ _ Hadj Hrow') as (row & Hrow & Hcells).
    destruct (Forall2_lookup_r _ _ _ _ _ Hrows Hrow) as (y & Hy & Hdraft).
    apply lookup_range in Hy as [-> _]. split.
    + rewrite <- (Forall2_length _ _ _ Hcells), <- (Forall2_length _ _ _ Hdraft),
        length_range. f_equal. lia.
    + intros i tile' Htile'.
      destruct (Forall2_lookup_r _ _ _ _ _ Hcells Htile') as (tile & Htile & Ha).
      destruct (Forall2_lookup_r _ _ _ _ _ Hdraft Htile) as (x & Hx & HP).
      apply lookup_range in Hx as [-> _].
      destruct HP as (Px & Py & Pb & [Pe1 Pe2] & [Pm1 Pm2]).
      destruct Ha as (Ax & Ay & Ae & Am & Ab & _).
      rewrite Ax, Ay, Ae, Am, Ab. repeat split; try done; lia.
  - subst rows. simpl in Hlen. lia.
Qed.

End RegionMore.

Section SmoothingMore.
Import world_generator_advanced gen_facts.

(** A loop whose every iteration returns from the states that the loop
    can reach. *)
Lemma for_each_total {A S : Type} (T : S -> S -> Prop) (Q : A -> S -> Prop)
    (l : list A) (body : A -> S -> outcome S) (s : S) :
  (forall s0, T s0 s0) ->
  (forall s1 s2 s3, T s1 s2 -> T s2 s3 -> T s1 s3) ->
  (forall a s0, a ∈ l -> T s s0 ->
     exists s1, body a s0 = Returns s1 /\ T s0 s1 /\ Q a s1) ->
  (forall a s0 s1, Q a s0 -> T s0 s1 -> Q a s1) ->
  exists s', for_each l body s = Returns s' /\ T s s' /\ forall a, a ∈ l -> Q a s'.
Proof.
  intros Hrefl Htrans Hbody Hkeep. revert s Hbody.
  induction l as [|a l IH]; intros s Hbody; simpl.
  - exists s. split; [done|]. split; [done|]. intros a Ha.
    by apply elem_of_nil in Ha.
  - destruct (Hbody a s ltac:(left) (Hrefl s)) as (s1 & -> & Hstep & Hq). simpl.
    destruct (IH s1) as (s' & Hrun & Hrest & Hall).
    { intros a' s0 Ha' Hs0. apply Hbody; [by right|]. by eapply Htrans. }
    exists s'. split; [done|]. split; [by eapply Htrans|].
    intros a' Ha'. apply elem_of_cons in Ha' as [->|Ha']; [|by apply Hall].
    by eapply Hkeep.
Qed.

Section Smoothing.

Variable tiles : list (list terrain.Tile).
Variable w : nat.
Hypothesis tiles_rectangular : rectangular w tiles.

Lemma smoothed_refl j i t : smoothed tiles j i t t.
Proof. by left. Qed.

Lemma smoothed_trans j i t1 t2 t3 :
  smoothed tiles j i t1 t2 -> smoothed tiles j i t2 t3 -> smoothed tiles j i t1 t3.
Proof.
  intros [->|[Hp ->]] [->|[Hp' ->]]; [by left|by right|by right|].
  right. split; [done|]. by destruct t1.
Qed.

Lemma drained_kept g g' j i :
  gridwise (smoothed tiles) g g' -> drained tiles g j i -> drained tiles g' j i.
Proof.
  intros [Hlen Hrows] Hd Hp. specialize (Hd Hp). unfold terrain_in in *.
  destruct (g !! j) as [row|] eqn:Hrow; [|done].
  destruct (row !! i) as [t|] eqn:Ht; [|done]. simpl in Hd. injection Hd as Hd.
  destruct (lookup_lt_is_Some_2 g' j) as [row' Hrow'];
    [rewrite Hlen; by eapply lookup_lt_Some|].
  rewrite Hrow'. destruct (Hrows _ _ _ Hrow Hrow') as [Hl Hc].
  destruct (lookup_lt_is_Some_2 row' i) as [t' Ht'];
    [rewrite Hl; by eapply lookup_lt_Some|].
  rewrite Ht'. simpl.
  destruct (Hc _ _ _ Ht Ht') as [->|[_ ->]]; [by rewrite Hd|done].
Qed.

(** A read of the snapshot [original] of the terrain. *)
Lemma snapshot_read (y x : Z) :
  0 <= y < Z.of_nat (length tiles) -> 0 <= x < Z.of_nat w ->
  exists t,
    obind (py_index (map (map terrain.terrain_type) tiles) y)
      (fun row => py_index row x) = Returns t
    /\ terrain_in tiles (Z.to_nat y) (Z.to_nat x) = Some t.
Proof.
  intros Hy Hx.
  destruct (tile_at_rectangular w tiles y x tiles_rectangular Hy Hx)
    as (row & tile & Hrow & Htile & _).
  assert (Hlen : length row = w).
  { pose proof tiles_rectangular as Hr. unfold rectangular in Hr.
    rewrite Forall_lookup in Hr. by apply (Hr _ _ Hrow). }
  exists (terrain.terrain_type tile). unfold py_index, terrain_in.
  rewrite length_map, norm_index_in_range by done.
  rewrite list_lookup_fmap, Hrow. simpl.
  rewrite length_map, Hlen, norm_index_in_range by done.
  by rewrite list_lookup_fmap, Htile.
Qed.

Lemma set_terrain_returns g (y x : Z) t :
  gridwise (smoothed tiles) tiles g ->
  0 <= y < Z.of_nat (length tiles) -> 0 <= x < Z.of_nat w ->
  exists g', set_terrain g y x t = Returns g'.
Proof.
  intros [Hlen Hrows] Hy Hx. unfold set_terrain, update_tile.
  rewrite Hlen, norm_index_in_range by done.
  destruct (lookup_lt_is_Some_2 tiles (Z.to_nat y)) as [row0 Hrow0]; [lia|].
  destruct (lookup_lt_is_Some_2 g (Z.to_nat y)) as [row Hrow]; [lia|].
  rewrite Hrow. destruct (Hrows _ _ _ Hrow0 Hrow) as [Hl _].
  assert (Hw : length row0 = w).
  { pose proof tiles_rectangular as Hr. unfold rectangular in Hr.
    rewrite Forall_lookup in Hr. by apply (Hr _ _ Hrow0). }
  rewrite Hl, Hw, norm_index_in_range by done.
  destruct (lookup_lt_is_Some_2 row (Z.to_nat x)) as [tile ->]; [lia|].
  by eexists.
Qed.

(** One visit of the smoothing loops. *)
Lemma smooth_step g (y x : Z) :
  gridwise (smoothed tiles) tiles g ->
  1 <= y < Z.of_nat (length tiles) - 1 -> 1 <= x < Z.of_nat w - 1 ->
  let at_ (y x : Z) :=
    obind (py_index (map (map terrain.terrain_type) tiles) y)
      (fun row => py_index row x) in
  exists g',
    obind (at_ y x) (fun t =>
      if bool_decide (t = terrain.WATER) then
        obind (at_ (y - 1) x) (fun n1 =>
        obind (at_ (y + 1) x) (fun n2 =>
        obind (at_ y (x - 1)) (fun n3 =>
        obind (at_ y (x + 1)) (fun n4 =>
          if forallb (fun n => negb (bool_decide (n = terrain.WATER)))
               [n1; n2; n3; n4]
          then set_terrain g y x terrain.GRASS
          else Returns g))))
      else Returns g) = Returns g'
    /\ gridwise (smoothed tiles) g g'
    /\ drained tiles g' (Z.to_nat y) (Z.to_nat x).
Proof.
  intros Hg Hy Hx at_. subst at_. cbn beta.
  destruct (snapshot_read y x) as (t & -> & Ht); [lia|lia|].
  destruct (snapshot_read (y - 1) x) as (n1 & E1 & H1); [lia|lia|].
  destruct (snapshot_read (y + 1) x) as (n2 & E2 & H2); [lia|lia|].
  destruct (snapshot_read y (x - 1)) as (n3 & E3 & H3); [lia|lia|].
  destruct (snapshot_read y (x + 1)) as (n4 & E4 & H4); [lia|lia|].
  replace (Z.to_nat (y - 1)) with (Z.to_nat y - 1)%nat in H1 by lia.
  replace (Z.to_nat (y + 1)) with (Z.to_nat y + 1)%nat in H2 by lia.
  replace (Z.to_nat (x - 1)) with (Z.to_nat x - 1)%nat in H3 by lia.
  replace (Z.to_nat (x + 1)) with (Z.to_nat x + 1)%nat in H4 by lia.
  cbn [obind].
  assert (Hkeep : ~ puddle tiles (Z.to_nat y) (Z.to_nat x) ->
            exists g', Returns g = Returns g'
                       /\ gridwise (smoothed tiles) g g'
                       /\ drained tiles g' (Z.to_nat y) (Z.to_nat x)).
  { intros Hn. exists g. split; [done|].
    split; [apply (gridwise_refl _ smoothed_refl)|]. by intros Hp. }
  destruct (bool_decide (t = terrain.WATER)) eqn:Hw.
  2:{ apply Hkeep. intros (Hp & _). apply bool_decide_eq_false in Hw. congruence. }
  apply bool_decide_eq_true in Hw as ->.
  rewrite E1, E2, E3, E4. cbn [obind].
  destruct (forallb _ _) eqn:Hall.
  2:{ apply Hkeep. intros (_ & _ & _ & Hnb).
      assert (forallb (fun n => negb (bool_decide (n = terrain.WATER)))
                [n1; n2; n3; n4] = true); [|congruence].
      rewrite H1, H2, H3, H4 in Hnb.
      apply forallb_forall. intros n Hin. apply list_elem_of_In in Hin.
      apply negb_true_iff, bool_decide_eq_false.
      rewrite Forall_forall in Hnb.
      destruct (Hnb (Some n)) as (t' & [= <-] & Hne); [|done].
      by apply list_elem_of_fmap_2 with (f := Some) in Hin. }
  assert (Hp : puddle tiles (Z.to_nat y) (Z.to_nat x)).
  { split; [done|]. split; [lia|]. split; [lia|].
    rewrite H1, H2, H3, H4.
    assert (Hn : forall n, n ∈ [n1; n2; n3; n4] -> n ≠ terrain.WATER).
    { intros n Hin. apply list_elem_of_In in Hin.
      rewrite forallb_forall in Hall. specialize (Hall n Hin).
      by apply negb_true_iff, bool_decide_eq_false in Hall. }
    repeat constructor; eexists; (split; [done|]); apply Hn.
    - apply list_elem_of_here.
    - apply list_elem_of_further, list_elem_of_here.
    - do 2 apply list_elem_of_further. apply list_elem_of_here.
    - do 3 apply list_elem_of_further. apply list_elem_of_here. }
  destruct (set_terrain_returns g y x terrain.GRASS Hg) as [g' Hset]; [lia|lia|].
  exists g'. split; [done|]. split.
  - apply (update_tile_gridwise _ smoothed_refl _ _ _ _ _ Hset).
    intros j i row t0 Hj Hrow Hi Ht0.
    apply norm_index_nonneg in Hj as [-> _]; [|lia].
    apply norm_index_nonneg in Hi as [-> _]; [|lia]. by right.
  - intros _. apply update_tile_spec in Hset
      as (j & i & row & tile & Hj & Hrow & Hi & Htile & ->).
    apply norm_index_nonneg in Hj as [-> Hj]; [|lia].
    apply norm_index_nonneg in Hi as [-> Hi]; [|lia].
    unfold terrain_in. rewrite list_lookup_insert_eq by done.
    by rewrite list_lookup_insert_eq by done.
Qed.

Lemma _smooth_terrain_smoothed :
  exists tiles',
    _smooth_terrain tiles = Returns tiles'
    /\ gridwise (smoothed tiles) tiles tiles'
    /\ forall y x, 1 <= y < Z.of_nat (length tiles) - 1 ->
                   1 <= x < Z.of_nat w - 1 ->
                   drained tiles tiles' (Z.to_nat y) (Z.to_nat x).
Proof.
  unfold _smooth_terrain.
  assert (Hwidth : forall y, 1 <= y < Z.of_nat (length tiles) - 1 ->
                             grid_width tiles = Z.of_nat w).
  { intros y Hy. apply rectangular_width; [done|]. intros E. rewrite E in Hy.
    simpl in Hy. lia. }
  destruct (for_each_total (gridwise (smoothed tiles))
              (fun y g => forall x, 1 <= x < Z.of_nat w - 1 ->
                                    drained tiles g (Z.to_nat y) (Z.to_nat x))
              (range 1 (grid_height tiles - 1))
              (fun y g =>
                 for_each (range 1 (grid_width tiles - 1))
                   (fun x g =>
                      obind
                        (obind (py_index (map (map terrain.terrain_type) tiles) y)
                           (fun row => py_index row x))
                        (fun t =>
                           if bool_decide (t = terrain.WATER) then
                             obind
                               (obind
                                  (py_index (map (map terrain.terrain_type) tiles)
                                     (y - 1))
                                  (fun row => py_index row x))
                               (fun n1 =>
                             obind
                               (obind
                                  (py_index (map (map terrain.terrain_type) tiles)
                                     (y + 1))
                                  (fun row => py_index row x))
                               (fun n2 =>
                             obind
                               (obind
                                  (py_index (map (map terrain.terrain_type) tiles) y)
                                  (fun row => py_index row (x - 1)))
                               (fun n3 =>
                             obind
                               (obind
                                  (py_index (map (map terrain.terrain_type) tiles) y)
                                  (fun row => py_index row (x + 1)))
                               (fun n4 =>
                                if forallb
                                     (fun n => negb (bool_decide (n = terrain.WATER)))
                                     [n1; n2; n3; n4]
                                then set_terrain g y x terrain.GRASS
                                else Returns g))))
                           else Returns g))
                   g)
              tiles)
    as (tiles' & Hrun & HT & HQ).
  - intros g. apply (gridwise_refl _ smoothed_refl).
  - intros g1 g2 g3. apply (gridwise_trans _ smoothed_trans).
  - intros y g Hy Hg. apply elem_of_range in Hy. unfold grid_height in Hy.
    rewrite (Hwidth y Hy).
    destruct (for_each_total (gridwise (smoothed tiles))
                (fun x g => drained tiles g (Z.to_nat y) (Z.to_nat x))
                (range 1 (Z.of_nat w - 1))
                (fun x g =>
                   obind
                     (obind (py_index (map (map terrain.terrain_type) tiles) y)
                        (fun row => py_index row x))
                     (fun t =>
                        if bool_decide (t = terrain.WATER) then
                          obind
                            (obind
                               (py_index (map (map terrain.terrain_type) tiles)
                                  (y - 1))
                               (fun row => py_index row x))
                            (fun n1 =>
                          obind
                            (obind
                               (py_index (map (map terrain.terrain_type) tiles)
                                  (y + 1))
                               (fun row => py_index row x))
                            (fun n2 =>
                          obind
                            (obind
                               (py_index (map (map terrain.terrain_type) tiles) y)
                               (fun row => py_index row (x - 1)))
                            (fun n3 =>
                          obind
                            (obind
                               (py_index (map (map terrain.terrain_type) tiles) y)
                               (fun row => py_index row (x + 1)))
                            (fun n4 =>
                             if forallb
                                  (fun n => negb (bool_decide (n = terrain.WATER)))
                                  [n1; n2; n3; n4]
                             then set_terrain g y x terrain.GRASS
                             else Returns g))))
                        else Returns g))
                g)
      as (g' & Hrun' & HT' & HQ').
    + intros g0. apply (gridwise_refl _ smoothed_refl).
    + intros g1 g2 g3. apply (gridwise_trans _ smoothed_trans).
    + intros x g0 Hx Hg0. apply elem_of_range in Hx.
      apply smooth_step; [|done|done].
      eapply (gridwise_trans _ smoothed_trans); [exact Hg|exact Hg0].
    + intros x g0 g1 Hd HT0. by eapply drained_kept.
    + exists g'. split; [exact Hrun'|]. split; [done|].
      intros x Hx. apply HQ'. by apply elem_of_range.
  - intros y g0 g1 Hd HT0 x Hx. eapply drained_kept; [exact HT0|by apply Hd].
  - exists tiles'. split; [exact Hrun|]. split; [done|].
    intros y x Hy Hx. apply HQ; [|done]. apply elem_of_range.
    unfold grid_height. lia.
Qed.

End Smoothing.

(** X30. On a grid whose rows have the same length [_smooth_terrain]
    always returns, and it turns into Grass exactly the Water tiles whose
    four neighbours were not Water when the pass began: the neighbours are
    read from a snapshot, so a tile dried earlier in the pass does not
    let its neighbour dry. Every other tile comes back as it was. *)
Theorem X30_smoothing_drains_puddles (w : nat) (tiles : list (list terrain.Tile)) :
  rectangular w tiles ->
  exists tiles',
    _smooth_terrain tiles = Returns tiles'
    /\ length tiles' = length tiles
    /\ forall (j i : nat) (row : list terrain.Tile) (tile : terrain.Tile),
         tiles !! j = Some row -> row !! i = Some tile ->
         exists row' tile',
           tiles' !! j = Some row' /\ length row' = length row
           /\ row' !! i = Some tile'
           /\ (puddle tiles j i ->
               tile' = terrain.set_terrain_type tile terrain.GRASS)
           /\ (~ puddle tiles j i -> tile' = tile).
Proof.
  intros Hrect.
  destruct (_smooth_terrain_smoothed tiles w Hrect)
    as (tiles' & Hrun & [Hlen Hrows] & Hdrained).
  exists tiles'. split; [done|]. split; [done|].
  intros j i row tile Hrow Htile.
  destruct (lookup_lt_is_Some_2 tiles' j) as [row' Hrow'];
    [rewrite Hlen; by eapply lookup_lt_Some|].
  destruct (Hrows _ _ _ Hrow Hrow') as [Hl Hc].
  destruct (lookup_lt_is_Some_2 row' i) as [tile' Htile'];
    [rewrite Hl; by eapply lookup_lt_Some|].
  exists row', tile'. split; [done|]. split; [done|]. split; [done|].
  destruct (Hc _ _ _ Htile Htile') as [->|[Hp ->]].
  - split; [|done]. intros Hp. exfalso.
    assert (Hw : length row = w).
    { unfold rectangular in Hrect. rewrite Forall_lookup in Hrect.
      by apply (Hrect _ _ Hrow). }
    pose proof Hp as (Hwater & Hj & Hi & Hnb).
    rewrite Forall_forall in Hnb.
    destruct (Hnb (terrain_in tiles (j + 1) i)) as (t2 & E2 & _);
      [apply list_elem_of_further, list_elem_of_here|].
    destruct (Hnb (terrain_in tiles j (i + 1))) as (t4 & E4 & _);
      [do 3 apply list_elem_of_further; apply list_elem_of_here|].
    unfold terrain_in in E2, E4, Hwater. rewrite Hrow in E4, Hwater.
    rewrite Htile in Hwater. simpl in Hwater. injection Hwater as Hwater.
    destruct (tiles !! (j + 1)%nat) as [row2|] eqn:Hrow2; [|done].
    apply lookup_lt_Some in Hrow2.
    destruct (row !! (i + 1)%nat) as [t|] eqn:Ht; [|done].
    apply lookup_lt_Some in Ht.
    specialize (Hdrained (Z.of_nat j) (Z.of_nat i) ltac:(lia) ltac:(lia)).
    rewrite !Nat2Z.id in Hdrained. specialize (Hdrained Hp).
    unfold terrain_in in Hdrained. rewrite Hrow', Htile' in Hdrained.
    simpl in Hdrained. congruence.
  - split; [done|]. by intros Hn.
Qed.

Lemma X30_smoothing_drains_puddles_witness :
  rectangular 3 scenario.pool
  /\ puddle scenario.pool 1 1
  /\ exists tiles',
       _smooth_terrain scenario.pool = Returns tiles'
       /\ terrain_in tiles' 1 1 = Some terrain.GRASS.
Proof.
  assert (Hr : rectangular 3 scenario.pool) by (by repeat constructor).
  assert (Hp : puddle scenario.pool 1 1).
  { split; [done|]. split; [lia|]. split; [lia|].
    repeat constructor; by eexists. }
  split; [exact Hr|]. split; [exact Hp|].
  destruct (X30_smoothing_drains_puddles 3 scenario.pool Hr)
    as (tiles' & Hrun & _ & Hcells).
  exists tiles'. split; [exact Hrun|].
  destruct (Hcells 1%nat 1%nat _ _ eq_refl eq_refl)
    as (row' & tile' & Hrow' & _ & Htile' & Hdry & _).
  unfold terrain_in. rewrite Hrow', Htile', (Hdry Hp). reflexivity.
Defined.

End SmoothingMore.
